(** * better-search-console: the background sync orchestrator

    A shallow embedding of the sync orchestrator of better-search-console
    (src/core/SyncManager.ts, src/core/Database.ts, src/core/DataRetention.ts,
    src/core/GscClient.ts, src/tools/helpers.ts) and the properties its
    specification states about it.

    Conventions of the embedding.

    - A calendar day, which the code holds as a 'YYYY-MM-DD' string, is its
      day number (days since 1970-01-01).  On such strings the comparisons of
      JavaScript ([<=]) and of SQLite (TEXT [<]) are lexicographic and agree
      with the order of the day numbers.
    - A JavaScript [Date] is its [getTime()] value, in milliseconds.
      Parsing a date-only string and [toISOString] work in UTC; [getDate]
      and [setDate] work in the local time of the process, whose time zone
      is an argument of the functions that use them.
    - [Date.now()] and [new Date()] read a clock; the clock value is an
      argument of the functions that read it.
    - JavaScript objects that are shared and mutated (the jobs of the
      registry) live in a heap of cells addressed by references. *)

From Stdlib Require Import ZArith Lia String Ascii Bool.
From stdpp Require Import gmap strings list pretty.
From Equations Require Import Equations.

Local Open Scope Z_scope.

(* ===================================================================== *)
(** * Dates *)
(* ===================================================================== *)

Module Dates.

(** [1000 * 60 * 60 * 24], as written in [daysBetween]. *)
Definition MS_PER_DAY : Z := 1000 * 60 * 60 * 24.

(** A 'YYYY-MM-DD' string, by day number. *)
Definition IsoDay : Type := Z.

(** [new Date(s)] for a date-only ISO string: midnight UTC of that day. *)
Definition newDate (s : IsoDay) : Z := s * MS_PER_DAY.

(** [d.toISOString().slice(0, 10)], also [formatDate] of helpers.ts. *)
Definition toISODate (t : Z) : IsoDay := t / MS_PER_DAY.

(** ** Local time

    The time zone of the process as ECMAScript uses it: [offsetAt t] is
    the offset of local time from UTC, in milliseconds, at the instant [t]
    (LocalTZA(t, true)), and [offsetOfLocal tl] is the offset that applies
    to the local time [tl] (LocalTZA(tl, false)).  The offsets of one zone
    lie less than half a day apart. *)
Definition HALF_DAY : Z := 1000 * 60 * 60 * 12.

Record TimeZone : Type := {
  offsetAt : Z -> Z;
  offsetOfLocal : Z -> Z;
  offset_spread : forall t tl, Z.abs (offsetAt t - offsetOfLocal tl) < HALF_DAY;
}.

(** LocalTime(t) and UTC(t) of ECMAScript. *)
Definition LocalTime (tz : TimeZone) (t : Z) : Z := t + offsetAt tz t.
Definition UTC (tz : TimeZone) (tl : Z) : Z := tl - offsetOfLocal tz tl.

(** [d.setDate(d.getDate() + n)]: the day of the month of the local time
    is moved by [n], the local time of day is kept, and the result is
    converted back to UTC. *)
Definition addDays (tz : TimeZone) (t n : Z) : Z :=
  UTC tz (LocalTime tz t + n * MS_PER_DAY).

(** A zone whose offset is [k] milliseconds at all times; its local days
    all have 24 hours. *)
Definition fixedOffset (tz : TimeZone) (k : Z) : Prop :=
  forall t, offsetAt tz t = k /\ offsetOfLocal tz t = k.

Lemma utc_spread (t tl : Z) : Z.abs (0 - 0) < HALF_DAY.
Proof. reflexivity. Qed.

Definition utc : TimeZone :=
  {| offsetAt := fun _ => 0; offsetOfLocal := fun _ => 0; offset_spread := utc_spread |}.

(** The [date] column of a stored row: TEXT NOT NULL.  [transformRow]
    writes the empty string when the date dimension was not requested;
    the empty string sorts before every day. *)
Inductive DateText : Type :=
| EmptyDate
| Day (d : IsoDay).

(** Comparison of two [date] values as SQLite compares TEXT. *)
Definition date_ltb (a b : DateText) : bool :=
  match a, b with
  | EmptyDate, EmptyDate => false
  | EmptyDate, Day _ => true
  | Day _, EmptyDate => false
  | Day x, Day y => x <? y
  end.

Definition date_leb (a b : DateText) : bool := negb (date_ltb b a).

Definition date_max (a b : DateText) : DateText :=
  if date_ltb a b then b else a.

End Dates.

(* ===================================================================== *)
(** * The chunk planner (SyncManager.ts and DataSync.ts) *)
(* ===================================================================== *)

Module ChunkPlanner.
Import Dates.

Definition CHUNK_DAYS : Z := 90.

(** [{ from: string; to: string }] *)
Record Chunk : Type := { from : IsoDay; to : IsoDay }.

(** The half days still ahead of the cursor bound the iterations of the
    loop. *)
Lemma half_days_left_decr (c e c' : Z) :
  c <= e -> c + HALF_DAY <= c' ->
  (Z.to_nat ((e - c') / HALF_DAY + 1) < Z.to_nat ((e - c) / HALF_DAY + 1))%nat.
Proof.
  intros Hce Hc'.
  assert (H0 : 0 <= (e - c) / HALF_DAY) by (apply Z.div_pos; [lia | reflexivity]).
  assert (H1 : (e - c') / HALF_DAY <= (e - c - HALF_DAY) / HALF_DAY)
    by (apply Z.div_le_mono; [reflexivity | lia]).
  replace (e - c - HALF_DAY) with ((e - c) + (-1) * HALF_DAY) in H1 by lia.
  rewrite Z.div_add in H1 by discriminate.
  lia.
Qed.

(** [setDate] moves a time stamp by the days asked for, give or take the
    change of the offset. *)
Lemma addDays_bounds (tz : TimeZone) (t n : Z) :
  t + n * MS_PER_DAY - HALF_DAY < addDays tz t n < t + n * MS_PER_DAY + HALF_DAY.
Proof.
  unfold addDays, UTC, LocalTime.
  pose proof (offset_spread tz t (t + offsetAt tz t + n * MS_PER_DAY)) as H.
  unfold HALF_DAY in *. lia.
Qed.

(** The [while (cursor <= end)] loop of [buildChunks]; the chunks it
    pushes, in order. *)
Equations? buildChunks_loop (tz : TimeZone) (cursor endT : Z) : list Chunk
  by wf (Z.to_nat ((endT - cursor) / HALF_DAY + 1)) lt :=
  buildChunks_loop tz cursor endT with Z_le_gt_dec cursor endT => {
    | left _ =>
        let chunkEnd := addDays tz cursor (CHUNK_DAYS - 1) in
        let effectiveEnd := if chunkEnd >? endT then endT else chunkEnd in
        {| from := toISODate cursor; to := toISODate effectiveEnd |}
          :: buildChunks_loop tz (addDays tz effectiveEnd 1) endT;
    | right _ => [] }.
Proof.
  apply half_days_left_decr; [assumption |].
  pose proof (addDays_bounds tz cursor (CHUNK_DAYS - 1)) as Hend.
  subst effectiveEnd chunkEnd.
  destruct (_ >? _).
  - pose proof (addDays_bounds tz endT 1) as Hnext.
    unfold CHUNK_DAYS, HALF_DAY, MS_PER_DAY in *. lia.
  - pose proof (addDays_bounds tz (addDays tz cursor (CHUNK_DAYS - 1)) 1) as Hnext.
    unfold CHUNK_DAYS, HALF_DAY, MS_PER_DAY in *. lia.
Qed.

(** [buildChunks(dateFrom, dateTo)] *)
Definition buildChunks (tz : TimeZone) (dateFrom dateTo : IsoDay) : list Chunk :=
  buildChunks_loop tz (newDate dateFrom) (newDate dateTo).

(** [Math.round(x / MS_PER_DAY)]: the nearest integer, halves upwards. *)
Definition roundDiv (x d : Z) : Z := (2 * x + d) / (2 * d).

(** [daysBetween(dateFrom, dateTo)] *)
Definition daysBetween (dateFrom dateTo : IsoDay) : Z :=
  roundDiv (newDate dateTo - newDate dateFrom) MS_PER_DAY.

(** The chunk list handed to the chunk workers by [syncOneProperty]. *)
Definition planChunks (tz : TimeZone) (startDate endDate : IsoDay) : list Chunk :=
  if daysBetween startDate endDate >? CHUNK_DAYS
  then buildChunks tz startDate endDate
  else [ {| from := startDate; to := endDate |} ].

(** ** Vocabulary of the chunk properties *)

(** Day [d] is fetched by chunk [c]. *)
Definition covers (c : Chunk) (d : IsoDay) : Prop := from c <= d <= to c.

(** Each chunk begins the day after the previous chunk ends. *)
Fixpoint contiguous (cs : list Chunk) : Prop :=
  match cs with
  | c1 :: ((c2 :: _) as rest) => from c2 = to c1 + 1 /\ contiguous rest
  | _ => True
  end.

(** No day is fetched by two chunks at different positions. *)
Definition non_overlapping (cs : list Chunk) : Prop :=
  forall (i j : nat) (ci cj : Chunk) (d : IsoDay),
    cs !! i = Some ci -> cs !! j = Some cj ->
    covers ci d -> covers cj d -> i = j.

(** The union of the chunks is the inclusive range [[a, b]]. *)
Definition union_is (cs : list Chunk) (a b : IsoDay) : Prop :=
  forall d : IsoDay, (exists c, In c cs /\ covers c d) <-> a <= d <= b.

(** [ceil(n / w)] *)
Definition ceil_div (n w : Z) : Z := - ((- n) / w).

(** The shape of a plan for the days [a .. b]: the walk of the loop. *)
Inductive plan (b : IsoDay) : IsoDay -> list Chunk -> Prop :=
| plan_end : plan b (b + 1) []
| plan_chunk (a : IsoDay) (cs : list Chunk) :
    a <= b ->
    plan b (Z.min (a + (CHUNK_DAYS - 1)) b + 1) cs ->
    plan b a ({| from := a; to := Z.min (a + (CHUNK_DAYS - 1)) b |} :: cs).

(** The DataSync class carries a second, identical planner. *)
Definition DataSync_buildChunks : TimeZone -> IsoDay -> IsoDay -> list Chunk :=
  buildChunks.

End ChunkPlanner.


(* ===================================================================== *)
(** * Paths of the per-property databases (tools/helpers.ts) *)
(* ===================================================================== *)

Module Helpers.
Local Open Scope string_scope.

(** [name.replace(/^p/, '')] for a literal prefix [p]. *)
Fixpoint stripPrefix (p s : string) : option string :=
  match p, s with
  | EmptyString, _ => Some s
  | String a p', String b s' =>
      if Ascii.eqb a b then stripPrefix p' s' else None
  | String _ _, EmptyString => None
  end.

Definition removePrefix (p s : string) : string :=
  match stripPrefix p s with Some rest => rest | None => s end.

(** [name.replace(/^https?:\/\//, '')] *)
Definition removeProtocol (s : string) : string :=
  match stripPrefix "http://" s with
  | Some rest => rest
  | None => removePrefix "https://" s
  end.

(** [name.replace(/\/+$/, '')] *)
Fixpoint removeTrailingSlashes (s : string) : string :=
  match s with
  | EmptyString => EmptyString
  | String c s' =>
      match removeTrailingSlashes s' with
      | EmptyString => if Ascii.eqb c "/" then EmptyString else String c EmptyString
      | rest => String c rest
      end
  end.

(** The class [[a-zA-Z0-9.-]]. *)
Definition safeChar (c : ascii) : bool :=
  let n := nat_of_ascii c in
  ((97 <=? n) && (n <=? 122))%nat || ((65 <=? n) && (n <=? 90))%nat
  || ((48 <=? n) && (n <=? 57))%nat || Ascii.eqb c "." || Ascii.eqb c "-".

(** [name.replace(/[^a-zA-Z0-9.-]/g, '_')] *)
Fixpoint replaceUnsafe (s : string) : string :=
  match s with
  | EmptyString => EmptyString
  | String c s' => String (if safeChar c then c else "_"%char) (replaceUnsafe s')
  end.

(** [sanitizeSiteUrl(siteUrl)] *)
Definition sanitizeSiteUrl (siteUrl : string) : string :=
  let name := siteUrl in
  let name := removePrefix "sc-domain:" name in
  let name := removeProtocol name in
  let name := removeTrailingSlashes name in
  let name := replaceUnsafe name in
  name.

(** [getDbPath(siteUrl)]; [dataDir] is the value of [getDataDir()]. *)
Definition getDbPath (dataDir siteUrl : string) : string :=
  dataDir ++ "/" ++ sanitizeSiteUrl siteUrl ++ ".db".

End Helpers.

(* ===================================================================== *)
(** * The store (core/Database.ts) *)
(* ===================================================================== *)

Module Database.
Import Dates.

(** A REAL column, or a JavaScript number that the modelled code only
    carries from the API to the table. *)
Definition Real : Type := Z * positive.

(** [SearchAnalyticsRow] (types/index.ts): the record handed to the
    batch writer.  A dimension that was not requested is [null]. *)
Record SearchAnalyticsRow : Type := {
  date : DateText;
  query : option string;
  page : option string;
  device : option string;
  country : option string;
  searchAppearance : option string;
  clicks : Z;
  impressions : Z;
  ctr : Real;
  position : Real;
}.

(** A row of the table [search_analytics]:
    [id INTEGER PRIMARY KEY AUTOINCREMENT], the ten data columns, and
    [created_at TEXT DEFAULT (datetime('now'))]. *)
Record StoredRow : Type := {
  id : Z;
  data : SearchAnalyticsRow;
  created_at : Z;
}.

(** One database file.  [search_analytics] is in rowid order; [sqlite_sequence] is
    the largest rowid ever handed out (the AUTOINCREMENT counter). *)
Record Db : Type := {
  search_analytics : list StoredRow;
  sqlite_sequence : Z;
}.

(** A file that does not exist yet is created empty by the constructor
    ([CREATE TABLE IF NOT EXISTS]). *)
Definition emptyDb : Db := {| search_analytics := []; sqlite_sequence := 0 |}.

(** The data directory: path of a database file to its content. *)
Abbreviation FileSystem := (gmap string Db).

(** [new Database(dbPath)] *)
Definition openDatabase (fs : FileSystem) (dbPath : string) : Db :=
  default emptyDb (fs !! dbPath).

(** ** Uniqueness: [idx_sa_unique ON (date, query, page, device, country)] *)

Definition date_eqb (a b : DateText) : bool :=
  match a, b with
  | EmptyDate, EmptyDate => true
  | Day x, Day y => x =? y
  | _, _ => false
  end.

(** Two values of a nullable TEXT column count as equal for a UNIQUE
    index only when neither is NULL: SQLite treats every NULL as
    distinct from every other value, NULL included. *)
Definition unique_eqb (a b : option string) : bool :=
  match a, b with
  | Some x, Some y => String.eqb x y
  | _, _ => false
  end.

(** A stored row with data [a] makes the insertion of [b] violate
    [idx_sa_unique]. *)
Definition conflicts (a b : SearchAnalyticsRow) : bool :=
  date_eqb (date a) (date b)
  && unique_eqb (query a) (query b)
  && unique_eqb (page a) (page b)
  && unique_eqb (device a) (device b)
  && unique_eqb (country a) (country b).

(** One run of the prepared statement
    [INSERT OR REPLACE INTO search_analytics (...) VALUES (...)]:
    the rows that would violate the unique index are deleted, then the
    new row is inserted under a fresh rowid. *)
Definition insertOrReplace (now : Z) (row : SearchAnalyticsRow) (db : Db) : Db :=
  {| search_analytics :=
       List.filter (fun s => negb (conflicts (data s) row)) (search_analytics db)
       ++ [ {| id := sqlite_sequence db + 1; data := row; created_at := now |} ];
     sqlite_sequence := sqlite_sequence db + 1 |}.

(** The body of the transaction of [insertSearchAnalyticsBatch]:
    [for (const row of rows) { stmt.run(...); inserted++; }] *)
Fixpoint insertRows (now : Z) (rows : list SearchAnalyticsRow) (db : Db) (inserted : Z)
  : Z * Db :=
  match rows with
  | [] => (inserted, db)
  | row :: rest => insertRows now rest (insertOrReplace now row db) (inserted + 1)
  end.

(** [insertSearchAnalyticsBatch(rows)]: the count returned and the
    database after the transaction. *)
Definition insertSearchAnalyticsBatch (now : Z) (rows : list SearchAnalyticsRow) (db : Db)
  : Z * Db :=
  insertRows now rows db 0.

(** [getRowCount()] *)
Definition getRowCount (db : Db) : Z := Z.of_nat (length (search_analytics db)).

(** [SELECT MAX(date) FROM search_analytics]: NULL on an empty table. *)
Definition sqlMaxDate (rows : list StoredRow) : option DateText :=
  match rows with
  | [] => None
  | r :: rest => Some (fold_left (fun m s => date_max m (date (data s))) rest (date (data r)))
  end.

(** [getLastSyncDate(siteUrl)]: the statement has no parameter, and
    the argument is not used. *)
Definition getLastSyncDate (db : Db) (siteUrl : string) : option DateText :=
  sqlMaxDate (search_analytics db).

(** ** Vocabulary of the store properties *)

(** The ten data columns of the table, in rowid order. *)
Definition contents (db : Db) : list SearchAnalyticsRow :=
  map data (search_analytics db).

(** All five columns of the uniqueness tuple hold a value. *)
Definition keyed (r : SearchAnalyticsRow) : bool :=
  match query r, page r, device r, country r with
  | Some _, Some _, Some _, Some _ => true
  | _, _, _, _ => false
  end.

(** The latest date among stored rows, [None] when there is none. *)
Definition isLatestDate (rows : list StoredRow) (o : option DateText) : Prop :=
  match o with
  | None => rows = []
  | Some m =>
      (exists s, In s rows /\ date (data s) = m)
      /\ forall s, In s rows -> date_leb (date (data s)) m = true
  end.

(** What is stored for a property: the content of the database file
    that [getDbPath] assigns to it. *)
Definition storedFor (dataDir : string) (fs : FileSystem) (propertyId : string)
  : list StoredRow :=
  search_analytics (openDatabase fs (Helpers.getDbPath dataDir propertyId)).

(** ** The batch writer, read on the data columns *)

(** [INSERT OR REPLACE] of [r], on the data columns of the table. *)
Definition upsert (r : SearchAnalyticsRow) (l : list SearchAnalyticsRow)
    : list SearchAnalyticsRow :=
  List.filter (fun a => negb (conflicts a r)) l ++ [r].

Definition upsertAll (rows l : list SearchAnalyticsRow) : list SearchAnalyticsRow :=
  fold_left (fun l r => upsert r l) rows l.

(** Row [a] conflicts with none of [rows]. *)
Definition untouched (rows : list SearchAnalyticsRow) (a : SearchAnalyticsRow) : bool :=
  forallb (fun r => negb (conflicts a r)) rows.

End Database.

(* ===================================================================== *)
(** * The retention pruner (core/DataRetention.ts) *)
(* ===================================================================== *)

Module DataRetention.
Import Dates Database.
Local Open Scope string_scope.

Definition DEFAULT_TARGET_COUNTRIES : list string :=
  [ "usa"; "gbr"; "aus"; "can";
    "deu"; "fra"; "ita"; "esp"; "nld"; "bel"; "aut"; "pol"; "swe"; "prt";
    "che"; "dnk"; "nor"; "fin"; "irl"; "cze"; "hun"; "rou"; "bgr"; "hrv";
    "svk"; "svn"; "ltu"; "lva"; "est"; "lux"; "mlt"; "cyp"; "grc" ].

Record RetentionPolicy : Type := {
  recentDays : Z;
  targetMinImpressions : Z;
  pruneNonTargetZeroClicks : bool;
  targetCountries : list string;
}.

(** [Partial<RetentionPolicy>]: the keys the caller supplied. *)
Record PartialPolicy : Type := {
  recentDays_opt : option Z;
  targetMinImpressions_opt : option Z;
  pruneNonTargetZeroClicks_opt : option bool;
  targetCountries_opt : option (list string);
}.

Definition DEFAULT_POLICY : RetentionPolicy :=
  {| recentDays := 90;
     targetMinImpressions := 5;
     pruneNonTargetZeroClicks := true;
     targetCountries := DEFAULT_TARGET_COUNTRIES |}.

(** [{ ...DEFAULT_POLICY, ...policy }] *)
Definition mergePolicy (policy : PartialPolicy) : RetentionPolicy :=
  {| recentDays := default (recentDays DEFAULT_POLICY) (recentDays_opt policy);
     targetMinImpressions :=
       default (targetMinImpressions DEFAULT_POLICY) (targetMinImpressions_opt policy);
     pruneNonTargetZeroClicks :=
       default (pruneNonTargetZeroClicks DEFAULT_POLICY) (pruneNonTargetZeroClicks_opt policy);
     targetCountries := default (targetCountries DEFAULT_POLICY) (targetCountries_opt policy) |}.

(** No key supplied: [policy = {}]. *)
Definition noPolicy : PartialPolicy :=
  {| recentDays_opt := None; targetMinImpressions_opt := None;
     pruneNonTargetZeroClicks_opt := None; targetCountries_opt := None |}.

(** [cutoff = new Date(); cutoff.setDate(cutoff.getDate() - p.recentDays);
    cutoffDate = cutoff.toISOString().slice(0, 10)], for the clock value
    [now] and the time zone [tz] of the process. *)
Definition cutoffDate (tz : TimeZone) (now : Z) (p : RetentionPolicy) : DateText :=
  Day (toISODate (addDays tz now (- recentDays p))).

(** Lower case of the letters A-Z, which is what SQLite's [LOWER] does;
    [toLowerCase] agrees with it on the ASCII country codes. *)
Definition lowerChar (c : ascii) : ascii :=
  let n := nat_of_ascii c in
  if ((65 <=? n) && (n <=? 90))%nat then ascii_of_nat (n + 32) else c.

Fixpoint toLowerCase (s : string) : string :=
  match s with
  | EmptyString => EmptyString
  | String c s' => String (lowerChar c) (toLowerCase s')
  end.

(** [p.targetCountries.map(c => c.toLowerCase())] *)
Definition lowerTargets (p : RetentionPolicy) : list string :=
  map toLowerCase (targetCountries p).

(** [LOWER(country) IN (?, ..., ?)] in SQL's three-valued logic; [None]
    is NULL.  With an empty list the result is false whatever the left
    operand, NULL included. *)
Definition sqlLowerIn (c : option string) (targets : list string) : option bool :=
  match targets with
  | [] => Some false
  | _ =>
      match c with
      | None => None
      | Some v => Some (existsb (String.eqb (toLowerCase v)) targets)
      end
  end.

(** [LOWER(country) NOT IN (?, ..., ?)] *)
Definition sqlLowerNotIn (c : option string) (targets : list string) : option bool :=
  negb <$> sqlLowerIn c targets.

(** A WHERE clause selects the rows on which it is true; NULL selects
    nothing. *)
Definition selected (o : option bool) : bool :=
  match o with Some true => true | _ => false end.

(** [WHERE date < ? AND clicks = 0 AND impressions < ?
       AND LOWER(country) IN (...)] *)
Definition targetLowValueWhere (cutoff : DateText) (p : RetentionPolicy)
    (r : StoredRow) : bool :=
  date_ltb (date (data r)) cutoff
  && (clicks (data r) =? 0)%Z
  && (impressions (data r) <? targetMinImpressions p)%Z
  && selected (sqlLowerIn (country (data r)) (lowerTargets p)).

(** [WHERE date < ? AND clicks = 0 AND LOWER(country) NOT IN (...)] *)
Definition nonTargetZeroClickWhere (cutoff : DateText) (p : RetentionPolicy)
    (r : StoredRow) : bool :=
  date_ltb (date (data r)) cutoff
  && (clicks (data r) =? 0)%Z
  && selected (sqlLowerNotIn (country (data r)) (lowerTargets p)).

(** [DELETE FROM search_analytics WHERE w]: the number of rows deleted
    ([changes]) and the database afterwards. *)
Definition sqlDelete (w : StoredRow -> bool) (db : Db) : Z * Db :=
  (Z.of_nat (length (List.filter w (search_analytics db))),
   {| search_analytics := List.filter (fun r => negb (w r)) (search_analytics db);
      sqlite_sequence := sqlite_sequence db |}).

(** [SELECT COUNT( * ) FROM search_analytics WHERE w] *)
Definition sqlCount (w : StoredRow -> bool) (db : Db) : Z :=
  Z.of_nat (length (List.filter w (search_analytics db))).

(** The fields of [PruneResult] that the table determines; the sizes of
    the file and the duration are measured on the file system and the
    clock. *)
Record PruneResult : Type := {
  rowsBefore : Z;
  rowsDeleted : Z;
  rowsAfter : Z;
  vacuumed : bool;
}.

(** [DataRetention.prune(siteUrl, policy)] on the database of the
    property, at clock value [now]: the result and the database
    afterwards.  VACUUM and ANALYZE leave the rows as they are. *)
Definition prune (tz : TimeZone) (now : Z) (policy : PartialPolicy) (db : Db)
    : PruneResult * Db :=
  let p := mergePolicy policy in
  let rowsBefore := getRowCount db in
  let cutoff := cutoffDate tz now p in
  let '(targetChanges, db1) := sqlDelete (targetLowValueWhere cutoff p) db in
  let '(nonTargetDeleted, db2) :=
    if pruneNonTargetZeroClicks p
    then sqlDelete (nonTargetZeroClickWhere cutoff p) db1
    else (0, db1) in
  let totalDeleted := targetChanges + nonTargetDeleted in
  let rowsAfter := rowsBefore - totalDeleted in
  ({| rowsBefore := rowsBefore;
      rowsDeleted := totalDeleted;
      rowsAfter := rowsAfter;
      vacuumed := (0 <? totalDeleted)%Z |},
   db2).

(** The result of [DataRetention.preview], without [reductionPct], a
    rounded floating-point percentage. *)
Record PreviewResult : Type := {
  totalRows : Z;
  wouldDelete : Z;
  wouldKeep : Z;
  targetLowValue : Z;
  nonTargetZeroClick : Z;
  recentProtected : Z;
}.

(** [DataRetention.preview(siteUrl, policy)]: the database is opened
    read-only and only SELECT statements run. *)
Definition preview (tz : TimeZone) (now : Z) (policy : PartialPolicy) (db : Db)
    : PreviewResult * Db :=
  let p := mergePolicy policy in
  let totalRows := getRowCount db in
  let cutoff := cutoffDate tz now p in
  let targetLowValue := sqlCount (targetLowValueWhere cutoff p) db in
  let nonTargetZeroClick := sqlCount (nonTargetZeroClickWhere cutoff p) db in
  let recentProtected := sqlCount (fun r => negb (date_ltb (date (data r)) cutoff)) db in
  let wouldDelete :=
    targetLowValue + (if pruneNonTargetZeroClicks p then nonTargetZeroClick else 0) in
  ({| totalRows := totalRows;
      wouldDelete := wouldDelete;
      wouldKeep := totalRows - wouldDelete;
      targetLowValue := targetLowValue;
      nonTargetZeroClick := nonTargetZeroClick;
      recentProtected := recentProtected |},
   db).

(** The rows that a run removed: stored before, not stored after. *)
Definition deletedBy (before after : Db) (r : StoredRow) : Prop :=
  In r (search_analytics before) /\ ~ In r (search_analytics after).

End DataRetention.

(* ===================================================================== *)
(** * The job manager (core/SyncManager.ts) *)
(* ===================================================================== *)

Module SyncManager.
Import Dates ChunkPlanner.

(** [CHUNK_CONCURRENCY]: parallel date-range chunks per property. *)
Definition CHUNK_CONCURRENCY : nat := 3.
(** [PROPERTY_CONCURRENCY]: parallel properties in sync_all. *)
Definition PROPERTY_CONCURRENCY : nat := 2.
Definition MAX_JOB_HISTORY : nat := 50.

(** ['queued' | 'syncing' | 'completed' | 'failed' | 'cancelled'] *)
Inductive SyncJobStatus : Type := Queued | Syncing | Completed | Failed | Cancelled.

(** The [status] of a [SyncJobResult]:
    ['completed' | 'failed' | 'skipped' | 'cancelled'] *)
Inductive ResultStatus : Type := ResCompleted | ResFailed | ResSkipped | ResCancelled.

(** ['web' | 'discover' | 'googleNews' | 'image' | 'video'] *)
Inductive SearchType : Type := Web | Discover | GoogleNews | Image | Video.

(** An element of [SyncJob['properties']].  An absent key is [None]. *)
Module Property.
Record t : Type := mk {
  siteUrl : string;
  startDate : option IsoDay;
  endDate : option IsoDay;
  dimensions : option (list string);
  searchType : option SearchType;
}.
End Property.

(** [SyncJobResult] *)
Module Result.
Record Pruned : Type := mkPruned {
  rowsDeleted : Z;
  rowsAfter : Z;
  spaceSavedMB : Z;
}.
Record t : Type := mk {
  siteUrl : string;
  status : ResultStatus;
  rowsFetched : Z;
  rowsInserted : Z;
  durationMs : Z;
  error : option string;
  pruned : option Pruned;
}.
End Result.

(** [SyncJob] *)
Module Job.
Record t : Type := mk {
  id : string;
  status : SyncJobStatus;
  cancelled : bool;
  properties : list Property.t;
  totalProperties : Z;
  completedProperties : Z;
  currentProperty : option string;
  rowsFetched : Z;
  estimatedTotalRows : option Z;
  apiCallsMade : Z;
  startedAt : Z;
  results : list Result.t;
  error : option string;
}.

(** Assignments to one field of the job object. *)
Definition with_status (v : SyncJobStatus) (j : t) : t :=
  let 'mk a _ c d e f g h i k l m n := j in mk a v c d e f g h i k l m n.
Definition with_cancelled (v : bool) (j : t) : t :=
  let 'mk a b _ d e f g h i k l m n := j in mk a b v d e f g h i k l m n.
Definition with_completedProperties (v : Z) (j : t) : t :=
  let 'mk a b c d e _ g h i k l m n := j in mk a b c d e v g h i k l m n.
Definition with_currentProperty (v : option string) (j : t) : t :=
  let 'mk a b c d e f _ h i k l m n := j in mk a b c d e f v h i k l m n.
Definition with_rowsFetched (v : Z) (j : t) : t :=
  let 'mk a b c d e f g _ i k l m n := j in mk a b c d e f g v i k l m n.
Definition with_estimatedTotalRows (v : option Z) (j : t) : t :=
  let 'mk a b c d e f g h _ k l m n := j in mk a b c d e f g h v k l m n.
Definition with_apiCallsMade (v : Z) (j : t) : t :=
  let 'mk a b c d e f g h i _ l m n := j in mk a b c d e f g h i v l m n.
Definition with_results (v : list Result.t) (j : t) : t :=
  let 'mk a b c d e f g h i k l _ n := j in mk a b c d e f g h i k l v n.
Definition with_error (v : option string) (j : t) : t :=
  let 'mk a b c d e f g h i k l m _ := j in mk a b c d e f g h i k l m v.
End Job.

(** [SyncStatus].  [startedAt] is an ISO time stamp, or the empty string
    ([None]) in the reply for an unknown job. *)
Module Status.
Record t : Type := mk {
  jobId : string;
  status : SyncJobStatus;
  totalProperties : Z;
  completedProperties : Z;
  currentProperty : option string;
  rowsFetched : Z;
  estimatedTotalRows : option Z;
  apiCallsMade : Z;
  startedAt : option Z;
  elapsedMs : Z;
  results : list Result.t;
  error : option string;
}.
End Status.

(** ** The registry *)

(** The variables that one call of [runJob] closes over: the set
    [activeProperties], the [index] of [runWithConcurrency], the calls of
    [syncProperty] that are awaiting [syncOneProperty], and whether the
    code after [await runWithConcurrency(...)] has run. *)
Record RunState : Type := {
  activeProperties : list string;
  index : nat;
  inflight : list Property.t;
  finished : bool;
}.

(** A job object together with its [runJob] activation. *)
Record Cell : Type := {
  job : Job.t;
  run : RunState;
}.

(** The manager: [jobs] maps a job id to (a reference to) a job object,
    [jobOrder] lists ids in insertion order, [heap] holds every job
    object that was created, whether [jobs] still points to it or not. *)
Record Manager : Type := {
  jobs : gmap string nat;
  jobOrder : list string;
  heap : gmap nat Cell;
  nextRef : nat;
}.

Definition emptyManager : Manager :=
  {| jobs := ∅; jobOrder := []; heap := ∅; nextRef := 0 |}.

(** [this.jobs.get(jobId)]: the reference and the object behind it. *)
Definition getJob (m : Manager) (jobId : string) : option (nat * Cell) :=
  match jobs m !! jobId with
  | Some r => match heap m !! r with Some c => Some (r, c) | None => None end
  | None => None
  end.

(** A mutation of the job object behind reference [r]. *)
Definition updateJob (r : nat) (f : Job.t -> Job.t) (m : Manager) : Manager :=
  {| jobs := jobs m;
     jobOrder := jobOrder m;
     heap := alter (fun c => {| job := f (job c); run := run c |}) r (heap m);
     nextRef := nextRef m |}.

Definition updateCell (r : nat) (c : Cell) (m : Manager) : Manager :=
  {| jobs := jobs m; jobOrder := jobOrder m;
     heap := <[r := c]> (heap m); nextRef := nextRef m |}.

(** [status === 'completed' || status === 'failed' || status === 'cancelled'] *)
Definition terminal (s : SyncJobStatus) : bool :=
  match s with
  | Completed | Failed | Cancelled => true
  | Queued | Syncing => false
  end.

(** The [while] loop of [pruneHistory].  [order] is [this.jobOrder]; each
    iteration that does not [break] removes its head. *)
Fixpoint pruneHistory_loop (h : gmap nat Cell) (order : list string)
    (js : gmap string nat) : list string * gmap string nat :=
  match order with
  | [] => (order, js)
  | oldId :: rest =>
      if (MAX_JOB_HISTORY <? length order)%nat then
        match js !! oldId ≫= (fun r => h !! r) with
        | Some oldJob =>
            if terminal (Job.status (job oldJob))
            then pruneHistory_loop h rest (delete oldId js)
            else (order, js)
        | None => (order, js)
        end
      else (order, js)
  end.

(** [pruneHistory()] *)
Definition pruneHistory (m : Manager) : Manager :=
  let '(order, js) := pruneHistory_loop (heap m) (jobOrder m) (jobs m) in
  {| jobs := js; jobOrder := order; heap := heap m; nextRef := nextRef m |}.

(** [createJob(properties)].  [id] is the value of
    [randomUUID().slice(0, 8)] and [now] that of [Date.now()]. *)
Definition createJob (id : string) (now : Z) (properties : list Property.t)
    (m : Manager) : nat * Manager :=
  let j := {| Job.id := id;
              Job.status := Queued;
              Job.cancelled := false;
              Job.properties := properties;
              Job.totalProperties := Z.of_nat (length properties);
              Job.completedProperties := 0;
              Job.currentProperty := None;
              Job.rowsFetched := 0;
              Job.estimatedTotalRows := None;
              Job.apiCallsMade := 0;
              Job.startedAt := now;
              Job.results := [];
              Job.error := None |} in
  let c := {| job := j;
              run := {| activeProperties := []; index := 0;
                        inflight := []; finished := false |} |} in
  let r := nextRef m in
  (r, pruneHistory
        {| jobs := <[id := r]> (jobs m);
           jobOrder := jobOrder m ++ [id];
           heap := <[r := c]> (heap m);
           nextRef := S r |}).

(** The first statement of [runJob], which runs before [startSync]
    returns: [job.status = 'syncing']. *)
Definition runJob_begin (r : nat) (m : Manager) : Manager :=
  updateJob r (Job.with_status Syncing) m.

(** [startSync(args)] *)
Definition startSync (id : string) (now : Z) (args : Property.t) (m : Manager)
    : string * Manager :=
  let '(r, m1) := createJob id now [args] m in
  (id, runJob_begin r m1).

(** [properties.map(p => ({ siteUrl: p.siteUrl, startDate: args.startDate,
    ... }))] in [startSyncAll]. *)
Definition propertyArgs (listed : list string) (args : Property.t) : list Property.t :=
  map (fun p => {| Property.siteUrl := p;
                   Property.startDate := Property.startDate args;
                   Property.endDate := Property.endDate args;
                   Property.dimensions := Property.dimensions args;
                   Property.searchType := Property.searchType args |}) listed.

(** [startSyncAll(args)], once [listProperties()] has resolved with the
    properties whose site URLs are [listed]. *)
Definition startSyncAll (id : string) (now : Z) (listed : list string)
    (args : Property.t) (m : Manager) : string * Manager :=
  let '(r, m1) := createJob id now (propertyArgs listed args) m in
  (id, runJob_begin r m1).

(** [cancelJob(jobId)] *)
Definition cancelJob (jobId : string) (m : Manager) : bool * Manager :=
  match getJob m jobId with
  | None => (false, m)
  | Some (r, c) =>
      if terminal (Job.status (job c)) then (false, m)
      else (true, updateJob r (fun j => Job.with_status Cancelled (Job.with_cancelled true j)) m)
  end.

(** [jobToStatus(job)] at clock value [now]. *)
Definition jobToStatus (now : Z) (j : Job.t) : Status.t :=
  {| Status.jobId := Job.id j;
     Status.status := Job.status j;
     Status.totalProperties := Job.totalProperties j;
     Status.completedProperties := Job.completedProperties j;
     Status.currentProperty := Job.currentProperty j;
     Status.rowsFetched := Job.rowsFetched j;
     Status.estimatedTotalRows := Job.estimatedTotalRows j;
     Status.apiCallsMade := Job.apiCallsMade j;
     Status.startedAt := Some (Job.startedAt j);
     Status.elapsedMs := now - Job.startedAt j;
     Status.results := Job.results j;
     Status.error := Job.error j |}.

(** The reply of [getStatus(jobId)] for an id that [jobs] does not hold. *)
Definition notFoundStatus (jobId : string) : Status.t :=
  {| Status.jobId := jobId;
     Status.status := Failed;
     Status.totalProperties := 0;
     Status.completedProperties := 0;
     Status.currentProperty := None;
     Status.rowsFetched := 0;
     Status.estimatedTotalRows := None;
     Status.apiCallsMade := 0;
     Status.startedAt := None;
     Status.elapsedMs := 0;
     Status.results := [];
     Status.error :=
       Some ("Job " ++ jobId ++ " not found. It may have expired from history.")%string |}.

(** [getStatus(jobId)] with a non-empty [jobId]. *)
Definition getStatus (now : Z) (jobId : string) (m : Manager) : Status.t :=
  match getJob m jobId with
  | None => notFoundStatus jobId
  | Some (_, c) => jobToStatus now (job c)
  end.

(** [getStatus()] without a job id (or with the empty string, which is
    falsy): every tracked job.  [this.jobs.get(id)!] on an id that [jobs]
    does not hold makes [jobToStatus] throw: [None]. *)
Definition getStatusAll (now : Z) (m : Manager) : option (list Status.t) :=
  mapM (fun id => (fun rc => jobToStatus now (job (snd rc))) <$> getJob m id) (jobOrder m).

(** ** Running a job *)

(** How the [await this.syncOneProperty(job, prop)] of [syncProperty]
    ends: with a result, or with an exception, of which [message] is the
    [err.message] of an [Error] and [durationMs] the time since the
    property started. *)
Inductive Outcome : Type :=
| Returned (result : Result.t)
| Threw (message : option string) (durationMs : Z).

(** [r.status === 'failed'] *)
Definition isFailed (r : Result.t) : bool :=
  match Result.status r with ResFailed => true | _ => false end.

(** [Set.prototype.add] and [delete] on an insertion-ordered set. *)
Definition setAdd (x : string) (s : list string) : list string :=
  if existsb (String.eqb x) s then s else s ++ [x].
Definition setDelete (x : string) (s : list string) : list string :=
  List.filter (fun y => negb (String.eqb x y)) s.

(** [[...activeProperties].join(', ')] *)
Definition joinActive (s : list string) : string := String.concat ", " s.

(** The result that [syncProperty] pushes onto [job.results]. *)
Definition resultOf (prop : Property.t) (o : Outcome) : Result.t :=
  match o with
  | Returned result => result
  | Threw message durationMs =>
      {| Result.siteUrl := Property.siteUrl prop;
         Result.status := ResFailed;
         Result.rowsFetched := 0;
         Result.rowsInserted := 0;
         Result.durationMs := durationMs;
         Result.error := Some (default "Unknown error"%string message);
         Result.pruned := None |}
  end.

(** The code of [runJob] after [await runWithConcurrency(...)]. *)
Definition finalize (j : Job.t) : Job.t :=
  let j := Job.with_currentProperty None j in
  if Job.cancelled j then Job.with_status Cancelled j
  else
    let anyFailed := existsb isFailed (Job.results j) in
    let allFailed := (0 <? length (Job.results j))%nat && forallb isFailed (Job.results j) in
    let j := Job.with_status (if allFailed then Failed else Completed) j in
    if anyFailed && negb allFailed then
      let failCount := Z.of_nat (length (List.filter isFailed (Job.results j))) in
      Job.with_error
        (Some (pretty failCount ++ " of " ++ pretty (Job.totalProperties j)
               ++ " properties failed")%string) j
    else j.

(** What can happen to the manager.  Calls from outside: [startSync],
    [startSyncAll] (after the property list arrived) and [cancelJob].
    Progress of the [runJob] activation of the job object [ref]: a worker
    of [runWithConcurrency] takes the next property and enters
    [syncProperty]; the [k]-th property in flight settles; a page of rows
    arrives; a chunk is written; and, once every worker is done, the end
    of [runJob]. *)
Inductive Event : Type :=
| EvStartSync (id : string) (now : Z) (args : Property.t)
| EvStartSyncAll (id : string) (now : Z) (listed : list string) (args : Property.t)
| EvCancel (jobId : string)
| EvClaim (ref : nat)
| EvSettle (ref : nat) (k : nat) (o : Outcome)
| EvPage (ref : nat) (fullPage : bool)
| EvChunkRows (ref : nat) (n : Z)
| EvFinish (ref : nat).

(** A worker runs [const i = index++; await fn(items[i])]: [syncProperty]
    returns at once when the job is cancelled, and otherwise records the
    property as active and waits for [syncOneProperty]. *)
Definition claim (c : Cell) : option Cell :=
  let j := job c in
  let rs := run c in
  if negb (finished rs)
     && (length (inflight rs) <? Nat.min PROPERTY_CONCURRENCY (length (Job.properties j)))%nat
  then
    match Job.properties j !! index rs with
    | None => None
    | Some prop =>
        if Job.cancelled j then
          Some {| job := j;
                  run := {| activeProperties := activeProperties rs;
                            index := S (index rs);
                            inflight := inflight rs;
                            finished := false |} |}
        else
          let active := setAdd (Property.siteUrl prop) (activeProperties rs) in
          Some {| job := Job.with_currentProperty (Some (joinActive active)) j;
                  run := {| activeProperties := active;
                            index := S (index rs);
                            inflight := inflight rs ++ [prop];
                            finished := false |} |}
    end
  else None.

(** [syncProperty] after its [try]/[catch]. *)
Definition settle (k : nat) (o : Outcome) (c : Cell) : option Cell :=
  let j := job c in
  let rs := run c in
  match inflight rs !! k with
  | None => None
  | Some prop =>
      let j := Job.with_results (Job.results j ++ [resultOf prop o]) j in
      let j := Job.with_completedProperties (Job.completedProperties j + 1) j in
      let active := setDelete (Property.siteUrl prop) (activeProperties rs) in
      let j := Job.with_currentProperty
                 (if (0 <? length active)%nat then Some (joinActive active) else None) j in
      Some {| job := j;
              run := {| activeProperties := active;
                        index := index rs;
                        inflight := delete k (inflight rs);
                        finished := finished rs |} |}
  end.

(** The page callback of a chunk worker: [job.apiCallsMade++] and, for a
    page of 25000 rows, [estimatedTotalRows = (estimatedTotalRows || 0)
    + 25000]. *)
Definition page (fullPage : bool) (c : Cell) : option Cell :=
  match inflight (run c) with
  | [] => None
  | _ =>
      let j := job c in
      let j := Job.with_apiCallsMade (Job.apiCallsMade j + 1) j in
      let j := if fullPage
               then Job.with_estimatedTotalRows
                      (Some (default 0 (Job.estimatedTotalRows j) + 25000)) j
               else j in
      Some {| job := j; run := run c |}
  end.

(** A chunk worker after writing [n > 0] rows: [job.rowsFetched += n]. *)
Definition chunkRows (n : Z) (c : Cell) : option Cell :=
  match inflight (run c) with
  | [] => None
  | _ =>
      if 0 <? n
      then Some {| job := Job.with_rowsFetched (Job.rowsFetched (job c) + n) (job c);
                   run := run c |}
      else None
  end.

(** [await runWithConcurrency(...)] resumes when every worker has left
    its loop: no property is left to take and none is in flight. *)
Definition finish (c : Cell) : option Cell :=
  let rs := run c in
  if negb (finished rs)
     && (length (Job.properties (job c)) <=? index rs)%nat
     && (length (inflight rs) =? 0)%nat
  then Some {| job := finalize (job c);
               run := {| activeProperties := activeProperties rs;
                         index := index rs;
                         inflight := inflight rs;
                         finished := true |} |}
  else None.

(** An event of a [runJob] activation, on the cell of its job object. *)
Definition onCell (r : nat) (f : Cell -> option Cell) (m : Manager) : option Manager :=
  match heap m !! r with
  | None => None
  | Some c => match f c with Some c' => Some (updateCell r c' m) | None => None end
  end.

(** One event; [None] when the event cannot happen in this state. *)
Definition step (m : Manager) (e : Event) : option Manager :=
  match e with
  | EvStartSync id now args => Some (snd (startSync id now args m))
  | EvStartSyncAll id now listed args => Some (snd (startSyncAll id now listed args m))
  | EvCancel jobId => Some (snd (cancelJob jobId m))
  | EvClaim r => onCell r claim m
  | EvSettle r k o => onCell r (settle k o) m
  | EvPage r fullPage => onCell r (page fullPage) m
  | EvChunkRows r n => onCell r (chunkRows n) m
  | EvFinish r => onCell r finish m
  end.

(** A sequence of events, from left to right. *)
Fixpoint steps (m : Manager) (es : list Event) : option Manager :=
  match es with
  | [] => Some m
  | e :: es' => match step m e with Some m' => steps m' es' | None => None end
  end.

(** A state of the manager that some history of the process leads to. *)
Definition reachable (m : Manager) : Prop :=
  exists es, steps emptyManager es = Some m.

(** ** Vocabulary of the manager properties *)

(** The job object behind reference [r]. *)
Definition jobAt (m : Manager) (r : nat) : option Job.t := job <$> heap m !! r.

(** The jobs that the registry tracks and that are terminal, and those
    that are active. *)
Definition isTrackedTerminal (m : Manager) (jobId : string) : bool :=
  match getJob m jobId with
  | Some (_, c) => terminal (Job.status (job c))
  | None => false
  end.
Definition isTrackedActive (m : Manager) (jobId : string) : bool :=
  match getJob m jobId with
  | Some (_, c) => negb (terminal (Job.status (job c)))
  | None => false
  end.
Definition trackedTerminal (m : Manager) : nat :=
  length (List.filter (isTrackedTerminal m) (jobOrder m)).
Definition trackedActive (m : Manager) : nat :=
  length (List.filter (isTrackedActive m) (jobOrder m)).

(** Bookkeeping of a [runJob] activation: every property taken so far
    has produced a result, is in flight, or was skipped on cancellation;
    once the activation has finished, nothing is in flight and the status
    is terminal. *)
Definition cell_ok (c : Cell) : Prop :=
  (length (Job.results (job c)) + length (inflight (run c)) <= index (run c))%nat
  /\ (index (run c) <= length (Job.properties (job c)))%nat
  /\ (finished (run c) = true ->
      inflight (run c) = [] /\ terminal (Job.status (job c)) = true).

(** References are handed out in increasing order. *)
Definition manager_ok (m : Manager) : Prop :=
  forall r c, heap m !! r = Some c -> (r < nextRef m)%nat /\ cell_ok c.

(** What every event preserves of a job object: its properties, a
    cancellation flag that is set, the status [cancelled] once the flag
    is set, a finished activation, and the results pushed so far. *)
Definition evolves (c c' : Cell) : Prop :=
  Job.properties (job c') = Job.properties (job c)
  /\ (Job.cancelled (job c) = true -> Job.cancelled (job c') = true)
  /\ (Job.cancelled (job c) = true -> Job.status (job c) = Cancelled ->
      Job.status (job c') = Cancelled)
  /\ (finished (run c) = true -> c' = c)
  /\ (exists more, Job.results (job c') = Job.results (job c) ++ more).

(** ** The date range of one property ([syncOneProperty]) *)

(** The values that [defaultStartDate()] (three months before today) and
    [defaultEndDate()] (today) return when [syncOneProperty] calls them. *)
Record Clock : Type := {
  defaultStartDate : IsoDay;
  defaultEndDate : IsoDay;
}.

(** [syncOneProperty] up to the point where the chunk workers start:
    either it has returned a result already, or it has resolved the range
    [startDate .. endDate] and split it into [chunks].  The worker of a
    chunk calls [fetchSearchAnalytics] once, with [startDate: chunk.from]
    and [endDate: chunk.to], unless the job is cancelled by then; nothing
    else is requested from the API. *)
Inductive PropertyPlan : Type :=
| PlanReturn (result : Result.t)
| PlanFetch (startDate endDate : IsoDay) (chunks : list Chunk).

Definition skippedResult (siteUrl : string) : Result.t :=
  {| Result.siteUrl := siteUrl;
     Result.status := ResSkipped;
     Result.rowsFetched := 0;
     Result.rowsInserted := 0;
     Result.durationMs := 0;
     Result.error := None;
     Result.pruned := None |}.

Definition syncOneProperty_plan (tz : TimeZone) (clock : Clock) (prop : Property.t)
    (db : Database.Db) : PropertyPlan :=
  let siteUrl := Property.siteUrl prop in
  let endDate := default (defaultEndDate clock) (Property.endDate prop) in
  let resolved : IsoDay + Result.t :=
    match Property.startDate prop with
    | Some startDate => inl startDate
    | None =>
        (* [if (lastDate)]: null and the empty string are falsy *)
        match Database.getLastSyncDate db siteUrl with
        | Some (Day lastDate) =>
            let d := addDays tz (newDate lastDate) 1 in
            let nextDay := toISODate d in
            if nextDay <=? endDate then inl nextDay
            else inr (skippedResult siteUrl)
        | Some EmptyDate | None => inl (defaultStartDate clock)
        end
    end in
  match resolved with
  | inr result => PlanReturn result
  | inl startDate => PlanFetch startDate endDate (planChunks tz startDate endDate)
  end.

(** The date ranges requested from the API under a plan. *)
Definition fetchRanges (p : PropertyPlan) : list Chunk :=
  match p with
  | PlanReturn _ => []
  | PlanFetch _ _ chunks => chunks
  end.

End SyncManager.

(* ===================================================================== *)
(** * Vocabulary of the file names (tools/helpers.ts) *)
(* ===================================================================== *)

Module HelpersVocabulary.
Import Helpers.
(** The characters a file name made by [sanitizeSiteUrl] consists of:
    letters, digits, dot, hyphen and the underscore that replaces every
    other character. *)
Definition fileNameChar (c : ascii) : bool := safeChar c || Ascii.eqb c "_".

(** All characters of a string pass a test. *)
Fixpoint allChars (f : ascii -> bool) (s : string) : bool :=
  match s with
  | EmptyString => true
  | String c s' => f c && allChars f s'
  end.

(** The ASCII characters, and the strings written in them. *)
Definition asciiChar (c : ascii) : bool := (nat_of_ascii c <? 128)%nat.
Definition asciiOnly (s : string) : bool := allChars asciiChar s.

End HelpersVocabulary.

(* ===================================================================== *)
(** * Histories of the store *)
(* ===================================================================== *)

Module StoreHistory.
Import Dates Database DataRetention.

(** The statements that change the table [search_analytics]: the batch
    writer of the sync ([INSERT OR REPLACE]) and the two [DELETE]s of the
    retention pruner. *)
Inductive StoreOp : Type :=
| WriteBatch (now : Z) (rows : list SearchAnalyticsRow)
| Prune (tz : TimeZone) (now : Z) (policy : PartialPolicy).

Definition applyOp (db : Db) (op : StoreOp) : Db :=
  match op with
  | WriteBatch now rows => snd (insertSearchAnalyticsBatch now rows db)
  | Prune tz now policy => snd (prune tz now policy db)
  end.

(** The database file after a history of writes and prunes, starting
    from the empty table that the constructor creates. *)
Definition storeAfter (ops : list StoreOp) : Db := fold_left applyOp ops emptyDb.



(** [idx_sa_unique] holds: no two stored rows violate it. *)
Definition uniqueIndexHolds (rows : list StoredRow) : Prop :=
  forall (i j : nat) (a b : StoredRow),
    rows !! i = Some a -> rows !! j = Some b -> i <> j ->
    conflicts (data a) (data b) = false.

(** Ids between 1 and a bound, in increasing order. *)
Fixpoint idsBelow (bound : Z) (rows : list StoredRow) : Prop :=
  match rows with
  | [] => True
  | r :: rest => 0 < id r <= bound /\ Forall (fun s => id r < id s) rest /\ idsBelow bound rest
  end.


End StoreHistory.

(* ===================================================================== *)
(** * Bookkeeping of the jobs and of the registry *)
(* ===================================================================== *)

Module JobBookkeeping.
Import SyncManager.

(** The job ids that the start events of a history hand to [createJob],
    in order. *)
Definition startedIds (es : list Event) : list string :=
  flat_map (fun e => match e with
                     | EvStartSync id _ _ => [id]
                     | EvStartSyncAll id _ _ _ => [id]
                     | _ => []
                     end) es.

(** [activeProperties.size > 0 ? [...activeProperties].join(', ') : null] *)
Definition currentOf (active : list string) : option string :=
  if (0 <? length active)%nat then Some (joinActive active) else None.

(** The job object and its [runJob] activation as [startSync] and
    [startSyncAll] leave them when they return. *)
Definition startedCell (id : string) (now : Z) (properties : list Property.t) : Cell :=
  {| job := {| Job.id := id;
               Job.status := Syncing;
               Job.cancelled := false;
               Job.properties := properties;
               Job.totalProperties := Z.of_nat (length properties);
               Job.completedProperties := 0;
               Job.currentProperty := None;
               Job.rowsFetched := 0;
               Job.estimatedTotalRows := None;
               Job.apiCallsMade := 0;
               Job.startedAt := now;
               Job.results := [];
               Job.error := None |};
     run := {| activeProperties := []; index := 0; inflight := []; finished := false |} |}.

(** The job object after an accepted [cancelJob]. *)
Definition cancelledCell (c : Cell) : Cell :=
  {| job := Job.with_status Cancelled (Job.with_cancelled true (job c)); run := run c |}.

(** What the counters and the status of a job object say about its
    activation, at every moment. *)
Record cell_inv (c : Cell) : Prop := {
  inv_completed : Job.completedProperties (job c) = Z.of_nat (length (Job.results (job c)));
  inv_total : Job.totalProperties (job c) = Z.of_nat (length (Job.properties (job c)));
  inv_workers :
    (length (inflight (run c))
     <= Nat.min PROPERTY_CONCURRENCY (length (Job.properties (job c))))%nat;
  inv_active_nodup : NoDup (activeProperties (run c));
  inv_active_inflight :
    forall x, In x (activeProperties (run c)) ->
              exists p, In p (inflight (run c)) /\ Property.siteUrl p = x;
  inv_taken :
    (length (Job.results (job c)) + length (inflight (run c)) <= index (run c))%nat;
  inv_taken_all :
    Job.cancelled (job c) = false ->
    (length (Job.results (job c)) + length (inflight (run c)))%nat = index (run c);
  inv_index : (index (run c) <= length (Job.properties (job c)))%nat;
  inv_finished :
    finished (run c) = true ->
    inflight (run c) = [] /\ terminal (Job.status (job c)) = true
    /\ (length (Job.properties (job c)) <= index (run c))%nat;
  inv_not_queued : Job.status (job c) <> Queued;
  inv_done_finished :
    Job.status (job c) = Completed \/ Job.status (job c) = Failed -> finished (run c) = true;
  inv_cancelled : Job.cancelled (job c) = true <-> Job.status (job c) = Cancelled;
  inv_current : Job.currentProperty (job c) = currentOf (activeProperties (run c));
  inv_inflight : forall p, In p (inflight (run c)) -> In p (Job.properties (job c));
}.

End JobBookkeeping.

Module Registry.
Import SyncManager JobBookkeeping.

(** The registry agrees with the job objects: [created] are the ids
    handed to [createJob] so far. *)
Record registry_inv (created : list string) (m : Manager) : Prop := {
  reg_suffix : exists evicted, created = evicted ++ jobOrder m;
  reg_dom : forall id, In id (jobOrder m) <-> is_Some (jobs m !! id);
  reg_object :
    forall id r, jobs m !! id = Some r ->
                 exists c, heap m !! r = Some c /\ Job.id (job c) = id;
  reg_created : forall r c, heap m !! r = Some c -> In (Job.id (job c)) created;
  reg_active :
    forall r c, heap m !! r = Some c -> terminal (Job.status (job c)) = false ->
                jobs m !! Job.id (job c) = Some r;
}.

(** [createJob] before it calls [pruneHistory]. *)
Definition registered (id : string) (c : Cell) (m : Manager) : Manager :=
  {| jobs := <[id := nextRef m]> (jobs m);
     jobOrder := jobOrder m ++ [id];
     heap := <[nextRef m := c]> (heap m);
     nextRef := S (nextRef m) |}.

End Registry.


(* ===================================================================== *)
(** * The other tables and queries of the store (core/Database.ts) *)
(* ===================================================================== *)

(** ** The table [property_meta] *)

Module PropertyMeta.

(** A row of [property_meta]: [site_url TEXT UNIQUE NOT NULL],
    [permission_level TEXT], [last_synced_at TEXT] and [created_at TEXT
    DEFAULT (datetime('now'))].  The column [id], which no statement
    reads or sets, is left out.  A time stamp is a clock value. *)
Record Row : Type := {
  site_url : string;
  permission_level : option string;
  last_synced_at : option Z;
  created_at : Z;
}.

Definition Table : Type := list Row.

(** [WHERE site_url = ?] *)
Definition hasSite (siteUrl : string) (r : Row) : bool := String.eqb (site_url r) siteUrl.

(** [upsertPropertyMeta(siteUrl, permissionLevel)]:
    [INSERT INTO property_meta (site_url, permission_level) VALUES (?, ?)
     ON CONFLICT(site_url) DO UPDATE
       SET permission_level = excluded.permission_level] *)
Definition upsertPropertyMeta (now : Z) (siteUrl permissionLevel : string) (t : Table)
    : Table :=
  if existsb (hasSite siteUrl) t
  then map (fun r => if hasSite siteUrl r
                     then {| site_url := site_url r;
                             permission_level := Some permissionLevel;
                             last_synced_at := last_synced_at r;
                             created_at := created_at r |}
                     else r) t
  else t ++ [ {| site_url := siteUrl;
                 permission_level := Some permissionLevel;
                 last_synced_at := None;
                 created_at := now |} ].

(** [updateLastSynced(siteUrl)]:
    [UPDATE property_meta SET last_synced_at = datetime('now')
     WHERE site_url = ?] *)
Definition updateLastSynced (now : Z) (siteUrl : string) (t : Table) : Table :=
  map (fun r => if hasSite siteUrl r
                then {| site_url := site_url r;
                        permission_level := permission_level r;
                        last_synced_at := Some now;
                        created_at := created_at r |}
                else r) t.

(** The object that [getPropertyMeta] returns. *)
Record Meta : Type := {
  siteUrl : string;
  permissionLevel : option string;
  lastSyncedAt : option Z;
}.

(** [getPropertyMeta(siteUrl)]: the first row of
    [SELECT site_url, permission_level, last_synced_at FROM property_meta
     WHERE site_url = ?], or null. *)
Definition getPropertyMeta (siteUrl : string) (t : Table) : option Meta :=
  match List.find (hasSite siteUrl) t with
  | None => None
  | Some row => Some {| siteUrl := site_url row;
                        permissionLevel := permission_level row;
                        lastSyncedAt := last_synced_at row |}
  end.

(** The statements that change the table. *)
Inductive Op : Type :=
| Upsert (now : Z) (siteUrl permissionLevel : string)
| Touch (now : Z) (siteUrl : string).

Definition apply (t : Table) (op : Op) : Table :=
  match op with
  | Upsert now siteUrl permissionLevel => upsertPropertyMeta now siteUrl permissionLevel t
  | Touch now siteUrl => updateLastSynced now siteUrl t
  end.

(** The table of a new database file after a history of statements. *)
Definition tableAfter (ops : list Op) : Table := fold_left apply ops [].

End PropertyMeta.

(** ** The table [sync_log] *)

Module SyncLog.
Import Dates.

(** The argument of [createSyncLog]:
    [Omit<SyncLogEntry, 'id' | 'startedAt' | 'completedAt'>]. *)
Record Entry : Type := {
  syncType : string;
  dimensions : string;
  dateFrom : option IsoDay;
  dateTo : option IsoDay;
  rowsFetched : Z;
  rowsInserted : Z;
  status : string;
  errorMessage : option string;
}.

(** A row of [sync_log]. *)
Record Row : Type := {
  id : Z;
  entry : Entry;
  started_at : Z;
  completed_at : option Z;
}.

(** The table and its AUTOINCREMENT counter.  No statement deletes from
    the table or sets an id, so the counter is the largest id. *)
Record Table : Type := {
  rows : list Row;
  sequence : Z;
}.

Definition emptyTable : Table := {| rows := []; sequence := 0 |}.

(** [createSyncLog(entry)]: the [lastInsertRowid] and the table. *)
Definition createSyncLog (now : Z) (e : Entry) (t : Table) : Z * Table :=
  let newId := sequence t + 1 in
  (newId,
   {| rows := rows t ++ [ {| id := newId; entry := e; started_at := now;
                              completed_at := None |} ];
      sequence := newId |}).

(** The keys of [Partial<SyncLogEntry>] that [updateSyncLog] looks at; a
    key that is absent or [undefined] is [None]. *)
Record Updates : Type := {
  u_rowsFetched : option Z;
  u_rowsInserted : option Z;
  u_status : option string;
  u_errorMessage : option (option string);
}.

(** [updates.status === 'completed' || updates.status === 'error'] *)
Definition completes (u : Updates) : bool :=
  match u_status u with
  | Some s => String.eqb s "completed" || String.eqb s "error"
  | None => false
  end.

(** [fields.length === 0] *)
Definition noFields (u : Updates) : bool :=
  match u_rowsFetched u, u_rowsInserted u, u_status u, u_errorMessage u with
  | None, None, None, None => negb (completes u)
  | _, _, _, _ => false
  end.

(** The [SET] clause on one row. *)
Definition setFields (now : Z) (u : Updates) (r : Row) : Row :=
  let e := entry r in
  {| id := id r;
     entry := {| syncType := syncType e;
                 dimensions := dimensions e;
                 dateFrom := dateFrom e;
                 dateTo := dateTo e;
                 rowsFetched := default (rowsFetched e) (u_rowsFetched u);
                 rowsInserted := default (rowsInserted e) (u_rowsInserted u);
                 status := default (status e) (u_status u);
                 errorMessage := default (errorMessage e) (u_errorMessage u) |};
     started_at := started_at r;
     completed_at := if completes u then Some now else completed_at r |}.

(** [updateSyncLog(id, updates)]:
    [UPDATE sync_log SET ... WHERE id = ?], or nothing when no field is
    set. *)
Definition updateSyncLog (now : Z) (logId : Z) (u : Updates) (t : Table) : Table :=
  if noFields u then t
  else {| rows := map (fun r => if id r =? logId then setFields now u r else r) (rows t);
          sequence := sequence t |}.

Inductive Op : Type :=
| Create (now : Z) (e : Entry)
| Update (now : Z) (logId : Z) (u : Updates).

Definition apply (t : Table) (op : Op) : Table :=
  match op with
  | Create now e => snd (createSyncLog now e t)
  | Update now logId u => updateSyncLog now logId u t
  end.

Definition tableAfter (ops : list Op) : Table := fold_left apply ops emptyTable.

(** The update with which a sync closes its log row. *)
Definition finalUpdate (fetched inserted : Z) (finalStatus : string) : Updates :=
  {| u_rowsFetched := Some fetched; u_rowsInserted := Some inserted;
     u_status := Some finalStatus; u_errorMessage := None |}.

(** Ids are handed out in order: the rows have the ids 1, 2, ... *)
Definition idsCounted (t : Table) : Prop :=
  map id (rows t) = map Z.of_nat (List.seq 1 (length (rows t)))
  /\ sequence t = Z.of_nat (length (rows t)).

End SyncLog.

(** ** The date range of the stored rows *)

Module DateRange.
Import Dates Database.

Definition date_min (a b : DateText) : DateText := if date_ltb b a then b else a.

(** [getDateRange()]:
    [SELECT MIN(date) as min_date, MAX(date) as max_date FROM
     search_analytics], and null when there is no row or [min_date] is
    falsy, which the empty string is. *)
Definition getDateRange (db : Db) : option (DateText * DateText) :=
  match search_analytics db with
  | [] => None
  | r :: rest =>
      let min_date := fold_left (fun m s => date_min m (date (data s))) rest (date (data r)) in
      let max_date := fold_left (fun m s => date_max m (date (data s))) rest (date (data r)) in
      match min_date with
      | EmptyDate => None
      | Day _ => Some (min_date, max_date)
      end
  end.

End DateRange.


(* ===================================================================== *)
(** * The API client (core/GscClient.ts) *)
(* ===================================================================== *)

Module GscClient.
Import Dates Database SyncManager.

(** [ROW_LIMIT]: GSC API max per request. *)
Definition ROW_LIMIT : Z := 25000.
Definition DEFAULT_DIMENSIONS : list string :=
  ["query"; "page"; "date"; "device"; "country"]%string.
Definition MAX_RETRIES : Z := 3.
Definition RETRYABLE_STATUS_CODES : list Z := [429; 500; 502; 503].

(** The values that the properties [code], [response.status] and
    [status] of a thrown error hold: a number, a string, or nothing. *)
Inductive JsValue : Type :=
| JUndefined
| JNumber (n : Z)
| JString (s : string).

(** Truthiness, as [||] tests it. *)
Definition truthy (v : JsValue) : bool :=
  match v with
  | JUndefined => false
  | JNumber n => negb (n =? 0)
  | JString s => negb (String.eqb s "")
  end.

(** [a || b] *)
Definition jsOr (a b : JsValue) : JsValue := if truthy a then a else b.

(** What [fn] was rejected with. *)
Record ApiError : Type := {
  code : JsValue;
  response_status : JsValue;
  status : JsValue;
  message : string;
}.

(** How one call of the function given to [withRetry] ends. *)
Inductive Attempt (T : Type) : Type :=
| Ok (value : T)
| Fail (err : ApiError).
Arguments Ok {T} value.
Arguments Fail {T} err.

(** How [withRetry] ends: with the value of a call, with the error of a
    call, or with [new Error('Unreachable')]. *)
Inductive Settled (T : Type) : Type :=
| Resolved (value : T)
| Rejected (err : ApiError)
| RejectedUnreachable.
Arguments Resolved {T} value.
Arguments Rejected {T} err.
Arguments RejectedUnreachable {T}.

(** The end of [withRetry], the number of calls of [fn] it made, and the
    delays it slept, in milliseconds. *)
Record Retried (T : Type) : Type := {
  settled : Settled T;
  calls : nat;
  delays : list Z;
}.
Arguments settled {T} _.
Arguments calls {T} _.
Arguments delays {T} _.

(** [Math.min(1000 * Math.pow(2, attempt), 30000)] *)
Definition retryDelay (attempt : nat) : Z := Z.min (1000 * 2 ^ Z.of_nat attempt) 30000.

(** A row of an API response, and the object passed to [onPage]. *)
Record GscApiRow : Type := {
  keys : list string;
  clicks : Z;
  impressions : Z;
  ctr : Real;
  position : Real;
}.

Record PageResult : Type := {
  rows : list GscApiRow;
  totalSoFar : Z;
  startRow : Z;
}.

(** [FetchOptions]; an absent key is [None]. *)
Record FetchOptions : Type := {
  startDate : IsoDay;
  endDate : IsoDay;
  dimensions : option (list string);
  rowLimit : option Z;
  dataState : option string;
  searchType : option SearchType;
}.

(** The arguments of one [searchanalytics.query] call. *)
Record Request : Type := {
  req_siteUrl : string;
  req_startDate : IsoDay;
  req_endDate : IsoDay;
  req_dimensions : list string;
  req_rowLimit : Z;
  req_startRow : Z;
  req_dataState : string;
  req_type : option SearchType;
}.

(** [options.rowLimit || ROW_LIMIT] *)
Definition effectiveRowLimit (options : FetchOptions) : Z :=
  match rowLimit options with
  | Some n => if n =? 0 then ROW_LIMIT else n
  | None => ROW_LIMIT
  end.

(** [options.dataState || 'all'] *)
Definition effectiveDataState (options : FetchOptions) : string :=
  match dataState options with
  | Some s => if String.eqb s "" then "all"%string else s
  | None => "all"%string
  end.

Definition request (siteUrl : string) (options : FetchOptions) (startRow : Z) : Request :=
  {| req_siteUrl := siteUrl;
     req_startDate := startDate options;
     req_endDate := endDate options;
     req_dimensions := default DEFAULT_DIMENSIONS (dimensions options);
     req_rowLimit := effectiveRowLimit options;
     req_startRow := startRow;
     req_dataState := effectiveDataState options;
     req_type := searchType options |}.

(** How [fetchSearchAnalytics] ends, the pages it handed to [onPage] in
    order, the requests it sent (each once per attempt of [withRetry]
    counted in [httpCalls]), in order. *)
Record Fetched : Type := {
  result : Settled Z;
  pages : list PageResult;
  requests : list Request;
  httpCalls : nat;
}.

Section Runtime.

(** [Number(s)] of a string, where it is an integer; [None] stands for
    NaN and for every other number. *)
Variable StringToNumber : string -> option Z.

(** [Number(status)] *)
Definition toNumber (v : JsValue) : option Z :=
  match v with
  | JUndefined => None
  | JNumber n => Some n
  | JString s => StringToNumber s
  end.

(** [const status = err?.code || err?.response?.status || err?.status;
     const isRetryable = RETRYABLE_STATUS_CODES.includes(Number(status))] *)
Definition isRetryable (err : ApiError) : bool :=
  match toNumber (jsOr (jsOr (code err) (response_status err)) (status err)) with
  | Some n => existsb (Z.eqb n) RETRYABLE_STATUS_CODES
  | None => false
  end.

(** The [for] loop of [withRetry], from [attempt] on; [left] bounds the
    iterations that remain, [retries + 1 - attempt].  [fn k] is how the
    call number [k] of [fn] ends. *)
Fixpoint withRetry_loop {T : Type} (fn : nat -> Attempt T) (retries : Z)
    (left : nat) (attempt : nat) (slept : list Z) : Retried T :=
  match left with
  | O => {| settled := RejectedUnreachable; calls := attempt; delays := slept |}
  | S left' =>
      match fn attempt with
      | Ok value => {| settled := Resolved value; calls := S attempt; delays := slept |}
      | Fail err =>
          if negb (isRetryable err) || (Z.of_nat attempt =? retries)
          then {| settled := Rejected err; calls := S attempt; delays := slept |}
          else withRetry_loop fn retries left' (S attempt) (slept ++ [retryDelay attempt])
      end
  end.

(** [withRetry(fn, retries)] *)
Definition withRetry {T : Type} (fn : nat -> Attempt T) (retries : Z) : Retried T :=
  withRetry_loop fn retries (Z.to_nat (retries + 1)) 0 [].

(** The API as the client sees it: how the HTTP call number [k] of the
    process ends when it carries the request [req]; a response holds
    [data.rows] or not. *)
Definition Server : Type := nat -> Request -> Attempt (option (list GscApiRow)).

(** The [while (true)] loop of [fetchSearchAnalytics].  [aborted k] is
    the value of [signal?.aborted] when iteration [k] tests it.  The loop
    need not end; [None] when it runs for more than [fuel] iterations. *)
Fixpoint fetch_loop (server : Server) (aborted : nat -> bool)
    (siteUrl : string) (options : FetchOptions)
    (fuel : nat) (iteration : nat) (f : Fetched) (totalRows startRow : Z)
    : option Fetched :=
  match fuel with
  | O => None
  | S fuel' =>
      if aborted iteration
      then Some {| result := Resolved totalRows; pages := pages f;
                   requests := requests f; httpCalls := httpCalls f |}
      else
        let req := request siteUrl options startRow in
        let response := withRetry (fun k => server (httpCalls f + k)%nat req) MAX_RETRIES in
        let sent := {| result := result f; pages := pages f;
                       requests := requests f ++ [req];
                       httpCalls := (httpCalls f + calls response)%nat |} in
        match settled response with
        | Resolved data =>
            let rows := default [] data in
            let totalRows := totalRows + Z.of_nat (length rows) in
            let delivered :=
              if (0 <? Z.of_nat (length rows))
              then pages sent ++ [ {| rows := rows; totalSoFar := totalRows;
                                      startRow := startRow |} ]
              else pages sent in
            let f' := {| result := result sent; pages := delivered;
                         requests := requests sent; httpCalls := httpCalls sent |} in
            if Z.of_nat (length rows) <? effectiveRowLimit options
            then Some {| result := Resolved totalRows; pages := delivered;
                         requests := requests sent; httpCalls := httpCalls sent |}
            else fetch_loop server aborted siteUrl options fuel' (S iteration) f'
                   totalRows (startRow + Z.of_nat (length rows))
        | Rejected err =>
            Some {| result := Rejected err; pages := pages sent;
                    requests := requests sent; httpCalls := httpCalls sent |}
        | RejectedUnreachable =>
            Some {| result := RejectedUnreachable; pages := pages sent;
                    requests := requests sent; httpCalls := httpCalls sent |}
        end
  end.

(** [fetchSearchAnalytics(siteUrl, options, signal, onPage)] in a process
    that has made [httpCallsBefore] HTTP calls. *)
Definition fetchSearchAnalytics (server : Server) (aborted : nat -> bool)
    (httpCallsBefore : nat) (siteUrl : string) (options : FetchOptions) (fuel : nat)
    : option Fetched :=
  fetch_loop server aborted siteUrl options fuel 0
    {| result := Resolved 0; pages := []; requests := []; httpCalls := httpCallsBefore |}
    0 0.

End Runtime.

(** ** Vocabulary *)

(** An API that serves the rows [data] of a fixed result set: a request
    is answered with the rows from [startRow] on, [rowLimit] at most. *)
Definition slice (data : list GscApiRow) (req : Request) : list GscApiRow :=
  take (Z.to_nat (req_rowLimit req)) (drop (Z.to_nat (req_startRow req)) data).

Definition serves (server : Server) (data : list GscApiRow) : Prop :=
  forall k req, server k req = Ok (Some (slice data req)).

Definition neverAborted : nat -> bool := fun _ => false.

(** A [Number] for the digit strings of status codes. *)
Fixpoint digitsValue (acc : Z) (s : string) : option Z :=
  match s with
  | EmptyString => Some acc
  | String c s' =>
      let n := Z.of_nat (nat_of_ascii c) in
      if (48 <=? n) && (n <=? 57) then digitsValue (10 * acc + (n - 48)) s' else None
  end.
Definition decimalNumber (s : string) : option Z :=
  match s with
  | EmptyString => Some 0
  | _ => digitsValue 0 s
  end.

End GscClient.

Module GscClientVocabulary.
Import GscClient.

(** The bookkeeping of the pages handed to [onPage], the first of which
    starts at row [start]: the [startRow] of a page is the number of rows
    of the pages before it, and [totalSoFar] that number plus its own
    rows. *)
Fixpoint pagesFrom (start : Z) (ps : list PageResult) : Prop :=
  match ps with
  | [] => True
  | p :: rest =>
      startRow p = start
      /\ totalSoFar p = start + Z.of_nat (length (rows p))
      /\ rows p <> []
      /\ pagesFrom (totalSoFar p) rest
  end.

(** The rows of all pages. *)
Definition allRows (ps : list PageResult) : list GscApiRow := concat (map rows ps).

Definition sumZ (l : list Z) : Z := fold_right Z.add 0 l.

(** The state of the loop at the head of an iteration. *)
Definition loopHead (f : Fetched) (totalRows startRow : Z) : Prop :=
  pagesFrom 0 (pages f)
  /\ totalRows = Z.of_nat (length (allRows (pages f)))
  /\ startRow = totalRows.

End GscClientVocabulary.


(* ===================================================================== *)
(** * JavaScript dates *)
(* ===================================================================== *)

(** The part of the ECMAScript [Date] object that tools/helpers.ts uses,
    by the abstract operations of the language specification.  A time
    value is a number of milliseconds since the epoch; a [Date] holds a
    time value in the range of TimeClip, or NaN (an invalid date), which
    is [None] here. *)
Module JsDate.
Import Dates.

(** Day(t) and TimeWithinDay(t) *)
Definition Day (t : Z) : Z := t / MS_PER_DAY.
Definition TimeWithinDay (t : Z) : Z := t mod MS_PER_DAY.

(** DaysInYear(y) and DayFromYear(y) *)
Definition DaysInYear (y : Z) : Z :=
  if negb (y mod 4 =? 0) then 365
  else if negb (y mod 100 =? 0) then 366
  else if negb (y mod 400 =? 0) then 365
  else 366.
Definition DayFromYear (y : Z) : Z :=
  365 * (y - 1970) + (y - 1969) / 4 - (y - 1901) / 100 + (y - 1601) / 400.

(** The largest year [y] with [DayFromYear y <= day]: it is the year
    that the mean length of a year suggests, or a neighbour of it. *)
Definition YearFromDay (day : Z) : Z :=
  let guess := 1970 + (400 * day) / 146097 in
  if DayFromYear (guess + 1) <=? day then guess + 1
  else if DayFromYear guess <=? day then guess
  else guess - 1.

(** YearFromTime(t), InLeapYear(t) and DayWithinYear(t) *)
Definition YearFromTime (t : Z) : Z := YearFromDay (Day t).
Definition InLeapYear (t : Z) : Z := if DaysInYear (YearFromTime t) =? 366 then 1 else 0.
Definition DayWithinYear (t : Z) : Z := Day t - DayFromYear (YearFromTime t).

(** The day within the year on which month [m] (0 to 11) begins. *)
Definition monthStart (m leap : Z) : Z :=
  if m =? 0 then 0
  else if m =? 1 then 31
  else if m =? 2 then 59 + leap
  else if m =? 3 then 90 + leap
  else if m =? 4 then 120 + leap
  else if m =? 5 then 151 + leap
  else if m =? 6 then 181 + leap
  else if m =? 7 then 212 + leap
  else if m =? 8 then 243 + leap
  else if m =? 9 then 273 + leap
  else if m =? 10 then 304 + leap
  else 334 + leap.

(** MonthFromTime(t), 0 to 11, and DateFromTime(t) *)
Definition MonthFromTime (t : Z) : Z :=
  let d := DayWithinYear t in
  let leap := InLeapYear t in
  if d <? 31 then 0
  else if d <? 59 + leap then 1
  else if d <? 90 + leap then 2
  else if d <? 120 + leap then 3
  else if d <? 151 + leap then 4
  else if d <? 181 + leap then 5
  else if d <? 212 + leap then 6
  else if d <? 243 + leap then 7
  else if d <? 273 + leap then 8
  else if d <? 304 + leap then 9
  else if d <? 334 + leap then 10
  else 11.
Definition DateFromTime (t : Z) : Z :=
  DayWithinYear t - monthStart (MonthFromTime t) (InLeapYear t) + 1.

(** WeekDay(t): 0 is Sunday. *)
Definition WeekDay (t : Z) : Z := (Day t + 4) mod 7.

(** MakeDay(year, month, date) and MakeDate(day, time) *)
Definition MakeDay (year month date : Z) : Z :=
  let ym := year + month / 12 in
  let mn := month mod 12 in
  DayFromYear ym + monthStart mn (if DaysInYear ym =? 366 then 1 else 0) + date - 1.
Definition MakeDate (day time : Z) : Z := day * MS_PER_DAY + time.

(** TimeClip(t) *)
Definition MAX_TIME : Z := 8640000000000000.
Definition TimeClip (t : Z) : option Z :=
  if Z.abs t <=? MAX_TIME then Some t else None.

(** A [Date] object, by its time value. *)
Definition Date : Type := option Z.

(** [new Date(value)] for a number. *)
Definition ofTime (t : Z) : Date := TimeClip t.

(** [new Date(s)] for the date-only string of a day: midnight UTC. *)
Definition ofIsoDay (s : IsoDay) : Date := TimeClip (newDate s).

(** [new Date(year, month, date)]: local midnight; a year from 0 to 99
    stands for 1900 + year. *)
Definition ofLocal (tz : TimeZone) (year month date : Z) : Date :=
  let yr := if (0 <=? year) && (year <=? 99) then 1900 + year else year in
  TimeClip (UTC tz (MakeDate (MakeDay yr month date) 0)).

(** [getFullYear()], [getMonth()], [getDate()] and [getDay()] of a valid
    date. *)
Definition getFullYear (tz : TimeZone) (t : Z) : Z := YearFromTime (LocalTime tz t).
Definition getMonth (tz : TimeZone) (t : Z) : Z := MonthFromTime (LocalTime tz t).
Definition getDate (tz : TimeZone) (t : Z) : Z := DateFromTime (LocalTime tz t).
Definition getDay (tz : TimeZone) (t : Z) : Z := WeekDay (LocalTime tz t).

(** [d.setDate(date)], [d.setMonth(month)] and [d.setFullYear(year)]:
    the new time value of a valid date. *)
Definition setDate (tz : TimeZone) (t : Z) (date : Z) : Date :=
  let tl := LocalTime tz t in
  TimeClip (UTC tz (MakeDate (MakeDay (YearFromTime tl) (MonthFromTime tl) date)
                      (TimeWithinDay tl))).
Definition setMonth (tz : TimeZone) (t : Z) (month : Z) : Date :=
  let tl := LocalTime tz t in
  TimeClip (UTC tz (MakeDate (MakeDay (YearFromTime tl) month (DateFromTime tl))
                      (TimeWithinDay tl))).
Definition setFullYear (tz : TimeZone) (t : Z) (year : Z) : Date :=
  let tl := LocalTime tz t in
  TimeClip (UTC tz (MakeDate (MakeDay year (MonthFromTime tl) (DateFromTime tl))
                      (TimeWithinDay tl))).

(** The length of month [m] (0 to 11). *)
Definition monthLength (m leap : Z) : Z :=
  if m =? 1 then 28 + leap
  else if (m =? 3) || (m =? 5) || (m =? 8) || (m =? 10) then 30
  else 31.

(** [1] for a leap year, as InLeapYear. *)
Definition leapOf (y : Z) : Z := if DaysInYear y =? 366 then 1 else 0.

End JsDate.


(* ===================================================================== *)
(** * Date ranges (tools/helpers.ts) *)
(* ===================================================================== *)

Module DateHelpers.
Import Dates JsDate.

(** What the functions throw: the [Error] of [parseDateRange] for a
    range it does not know, and the [RangeError] of [toISOString] on an
    invalid date. *)
Inductive Thrown : Type :=
| InvalidDateRange (range : string)
| InvalidTimeValue.

Inductive Checked (A : Type) : Type :=
| Value (a : A)
| Throws (e : Thrown).
Arguments Value {A} a.
Arguments Throws {A} e.

Definition bind {A B : Type} (c : Checked A) (f : A -> Checked B) : Checked B :=
  match c with
  | Value a => f a
  | Throws e => Throws e
  end.

Local Notation "'checked' x ':=' c 'in' k" := (bind c (fun x => k))
  (at level 10, x name, c at level 100, k at level 200).

(** [formatDate(d)]: [d.toISOString().split('T')[0]] *)
Definition formatDate (d : Date) : Checked IsoDay :=
  match d with
  | Some t => Value (toISODate t)
  | None => Throws InvalidTimeValue
  end.

(** [{ startDate: string; endDate: string }] *)
Record DateRange : Type := {
  startDate : IsoDay;
  endDate : IsoDay;
}.

(** A method call on a [Date] that may be invalid. *)
Definition onDate (d : Date) (f : Z -> Date) : Date :=
  match d with
  | Some t => f t
  | None => None
  end.

(** ** [range.match(/^(\d+)(d|m)$/)] and [parseInt(match[1], 10)]

    The amount is the exact value of the digits.  JavaScript rounds an
    amount from 2^53 on; with such an amount the date that is computed
    next is out of range with and without the rounding. *)

Inductive RangeUnit : Type := UnitDays | UnitMonths.

Definition isDigit (c : ascii) : bool :=
  let n := nat_of_ascii c in ((48 <=? n) && (n <=? 57))%nat.
Definition digitValue (c : ascii) : Z := Z.of_nat (nat_of_ascii c) - 48.

Definition unitOf (c : ascii) : option RangeUnit :=
  if Ascii.eqb c "d" then Some UnitDays
  else if Ascii.eqb c "m" then Some UnitMonths
  else None.

(** The rest of the string after the digits read so far, whose value is
    [amount] ([None] when no digit was read). *)
Fixpoint matchNumeric (amount : option Z) (s : string) : option (Z * RangeUnit) :=
  match s with
  | EmptyString => None
  | String c rest =>
      if isDigit c then matchNumeric (Some (10 * default 0 amount + digitValue c)) rest
      else
        match amount, rest with
        | Some n, EmptyString => (fun u => (n, u)) <$> unitOf c
        | _, _ => None
        end
  end.

Definition numericRange (range : string) : option (Z * RangeUnit) :=
  matchNumeric None range.

(** ** [parseDateRange(range, referenceDate)]

    [now] is [referenceDate || new Date()]. *)
Definition parseDateRange (tz : TimeZone) (now : Date) (range : string)
    : Checked DateRange :=
  checked today := formatDate now in
  match now with
  | None => Throws InvalidTimeValue
  | Some t =>
      let year := getFullYear tz t in
      let month := getMonth tz t in
      if String.eqb range "lw" then
        let g := getDay tz t in
        let day := if g =? 0 then 7 else g in
        let d1 := setDate tz t (getDate tz t - day - 6) in
        checked start := formatDate d1 in
        let d2 := onDate d1 (fun t1 => setDate tz t1 (getDate tz t1 + 6)) in
        checked finish := formatDate d2 in
        Value {| startDate := start; endDate := finish |}
      else if String.eqb range "tm" then
        checked start := formatDate (ofLocal tz year month 1) in
        Value {| startDate := start; endDate := today |}
      else if String.eqb range "lm" then
        checked start := formatDate (ofLocal tz year (month - 1) 1) in
        checked finish := formatDate (ofLocal tz year month 0) in
        Value {| startDate := start; endDate := finish |}
      else if String.eqb range "tq" then
        checked start := formatDate (ofLocal tz year (month / 3 * 3) 1) in
        Value {| startDate := start; endDate := today |}
      else if String.eqb range "lq" then
        let qm := month / 3 * 3 in
        checked start := formatDate (ofLocal tz year (qm - 3) 1) in
        checked finish := formatDate (ofLocal tz year qm 0) in
        Value {| startDate := start; endDate := finish |}
      else if String.eqb range "ytd" then
        checked start := formatDate (ofLocal tz year 0 1) in
        Value {| startDate := start; endDate := today |}
      else
        match numericRange range with
        | None => Throws (InvalidDateRange range)
        | Some (amount, UnitDays) =>
            checked start := formatDate (setDate tz t (getDate tz t - amount)) in
            Value {| startDate := start; endDate := today |}
        | Some (amount, UnitMonths) =>
            checked start := formatDate (setMonth tz t (getMonth tz t - amount)) in
            Value {| startDate := start; endDate := today |}
        end
  end.

(** ** [getPeriodDates(range, referenceDate, comparisonMode,
       matchWeekdays)] *)

Inductive ComparisonMode : Type :=
| PreviousPeriod
| YearOverYear
| PreviousMonth
| Disabled.

Record PeriodDates : Type := {
  current : DateRange;
  prior : DateRange;
}.

(** [24 * 60 * 60 * 1000] *)
Definition DAY : Z := 24 * 60 * 60 * 1000.

Definition getPeriodDates (tz : TimeZone) (now : Date) (range : string)
    (comparisonMode : ComparisonMode) (matchWeekdays : bool) : Checked PeriodDates :=
  checked cur := parseDateRange tz now range in
  match comparisonMode with
  | Disabled =>
      Value {| current := cur;
               prior := {| startDate := startDate cur; endDate := startDate cur |} |}
  | _ =>
      let startMs := newDate (startDate cur) in
      let endMs := newDate (endDate cur) in
      let durationMs := endMs - startMs in
      let '(priorStart, priorEnd) :=
        match comparisonMode with
        | YearOverYear =>
            (setFullYear tz startMs (getFullYear tz startMs - 1),
             setFullYear tz endMs (getFullYear tz endMs - 1))
        | PreviousMonth =>
            (setMonth tz startMs (getMonth tz startMs - 1),
             setMonth tz endMs (getMonth tz endMs - 1))
        | _ =>
            let priorEnd := ofTime (startMs - DAY) in
            (onDate priorEnd (fun pe => ofTime (pe - durationMs)), priorEnd)
        end in
      let '(priorStart, priorEnd) :=
        if matchWeekdays then
          match priorStart with
          | Some ps =>
              let currentStartDay := getDay tz startMs in
              let priorStartDay := getDay tz ps in
              let diff := currentStartDay - priorStartDay in
              let diff := if 3 <? diff then diff - 7 else diff in
              let diff := if diff <? -3 then diff + 7 else diff in
              (ofTime (ps + diff * DAY),
               onDate priorEnd (fun pe => ofTime (pe + diff * DAY)))
          | None => (None, None)
          end
        else (priorStart, priorEnd) in
      checked start := formatDate priorStart in
      checked finish := formatDate priorEnd in
      Value {| current := cur; prior := {| startDate := start; endDate := finish |} |}
  end.

(** [defaultStartDate()] and [defaultEndDate()] at the clock value
    [now]. *)
Definition defaultStartDate (tz : TimeZone) (now : Z) : Checked IsoDay :=
  formatDate (setMonth tz now (getMonth tz now - 3)).

Definition defaultEndDate (now : Z) : Checked IsoDay :=
  formatDate (Some now).

(** ** Vocabulary *)

(** The digit strings and their value. *)
Fixpoint allDigits (s : string) : bool :=
  match s with
  | EmptyString => true
  | String c rest => isDigit c && allDigits rest
  end.

Fixpoint decimalValue (acc : Z) (s : string) : Z :=
  match s with
  | EmptyString => acc
  | String c rest => decimalValue (10 * acc + digitValue c) rest
  end.

Definition unitChar (u : RangeUnit) : string :=
  match u with UnitDays => "d" | UnitMonths => "m" end.

Definition presets : list string := ["lw"; "tm"; "lm"; "tq"; "lq"; "ytd"]%string.

(** A clock value that a [Date] can hold. *)
Definition validTime (t : Z) : Prop := Z.abs t <= MAX_TIME.

End DateHelpers.

(* ===================================================================== *)
(** * Concrete inputs used by the examples below *)
(* ===================================================================== *)

Module Examples.
Import Dates Database.

(** ** A time zone with summer time

    Central European Time as in 2024: one hour ahead of UTC, and two
    hours ahead from 31 March, 01:00 UTC (day 19813), to 27 October,
    01:00 UTC (day 20023).  A local time is read with the offset in force
    before a transition; the examples use instants of 2024. *)
Definition HOUR : Z := 1000 * 60 * 60.
Definition summerFrom : Z := 19813 * MS_PER_DAY + HOUR.
Definition summerTo : Z := 20023 * MS_PER_DAY + HOUR.

Definition cetOffsetAt (t : Z) : Z :=
  if (summerFrom <=? t) && (t <? summerTo) then 2 * HOUR else HOUR.
Definition cetOffsetOfLocal (tl : Z) : Z :=
  if (summerFrom + 2 * HOUR <=? tl) && (tl <? summerTo + 2 * HOUR) then 2 * HOUR else HOUR.

Lemma cet_spread (t tl : Z) : Z.abs (cetOffsetAt t - cetOffsetOfLocal tl) < HALF_DAY.
Proof.
  unfold cetOffsetAt, cetOffsetOfLocal.
  destruct (_ && _); destruct (_ && _); reflexivity.
Qed.

Definition europeBerlin2024 : TimeZone :=
  {| offsetAt := cetOffsetAt; offsetOfLocal := cetOffsetOfLocal; offset_spread := cet_spread |}.

Local Open Scope string_scope.

(** A record as [transformRow] builds it when the sync was requested with
    [dimensions: ['date', 'page']]: the other dimensions are [null]. *)
Definition pageOnlyRow : SearchAnalyticsRow :=
  {| date := Day 20000;
     query := None;
     page := Some "https://example.com/pricing";
     device := None;
     country := None;
     searchAppearance := None;
     clicks := 3;
     impressions := 40;
     ctr := (3, 40%positive);
     position := (7, 1%positive) |}.

(** A record of a sync with the default five dimensions. *)
Definition fullRow (d : IsoDay) (c : string) (nclicks nimpressions : Z) : SearchAnalyticsRow :=
  {| date := Day d;
     query := Some "rocq tutorial";
     page := Some "https://example.com/";
     device := Some "MOBILE";
     country := Some c;
     searchAppearance := None;
     clicks := nclicks;
     impressions := nimpressions;
     ctr := (nclicks, 1%positive);
     position := (4, 1%positive) |}.

Definition stored (i : Z) (r : SearchAnalyticsRow) : StoredRow :=
  {| id := i; data := r; created_at := 0 |}.

Definition dataDir : string := "/var/bsc/data".

(** The data directory after a sync of the property sc-domain:a.com. *)
Definition dbA : Db :=
  {| search_analytics := [stored 1 (fullRow 20000 "usa" 2 9)]; sqlite_sequence := 1 |}.
Definition fsA : FileSystem :=
  {[ Helpers.getDbPath dataDir "sc-domain:a.com" := dbA ]}.

(** A database whose latest date is 31 March 2024 (day 19813). *)
Definition dbMarch : Db :=
  {| search_analytics := [stored 1 (fullRow 19813 "deu" 2 9)]; sqlite_sequence := 1 |}.

(** A table for the retention examples; the clock stands at noon of day
    20100, so that with the default policy the cut-off is day 20010. *)
Definition noon20100 : Z := 20100 * MS_PER_DAY + MS_PER_DAY / 2.
Definition oldTargetLow : StoredRow := stored 1 (fullRow 19900 "usa" 0 3).
Definition oldTargetClicked : StoredRow := stored 2 (fullRow 19900 "usa" 1 3).
Definition oldNonTarget : StoredRow := stored 3 (fullRow 19900 "bra" 0 700).
Definition recentLow : StoredRow := stored 4 (fullRow 20050 "usa" 0 1).
Definition dbRetention : Db :=
  {| search_analytics := [oldTargetLow; oldTargetClicked; oldNonTarget; recentLow];
     sqlite_sequence := 4 |}.

(** ** Histories of the job manager *)

Import SyncManager.

Definition site (u : string) : Property.t :=
  {| Property.siteUrl := u;
     Property.startDate := None;
     Property.endDate := None;
     Property.dimensions := None;
     Property.searchType := None |}.

Definition synced (u : string) : Result.t :=
  {| Result.siteUrl := u;
     Result.status := ResCompleted;
     Result.rowsFetched := 1200;
     Result.rowsInserted := 1200;
     Result.durationMs := 900;
     Result.error := None;
     Result.pruned := None |}.

(** The id of the [n]-th job. *)
Definition jobName (n : nat) : string := "job-" ++ pretty n.

(** The [n]-th job, whose object has reference [n], from [startSync] to
    the end of its [runJob]. *)
Definition quickJob (n : nat) : list Event :=
  [ EvStartSync (jobName n) 0 (site "sc-domain:a.com");
    EvClaim n;
    EvSettle n 0 (Returned (synced "sc-domain:a.com"));
    EvFinish n ].

(** A long sync is started as job 0 and is still fetching while 52 short
    jobs are started and run to completion. *)
Definition blockedHistory : list Event :=
  [ EvStartSync (jobName 0) 0 (site "sc-domain:big.org"); EvClaim 0 ]
  ++ concat (map quickJob (List.seq 1 52)).

(** Job 0 is started and fetches its property; it is cancelled below. *)
Definition startOne : list Event :=
  [ EvStartSync (jobName 0) 0 (site "sc-domain:a.com"); EvClaim 0 ].
Definition startedOne : Manager :=
  default emptyManager (steps emptyManager startOne).

(** After the cancellation of job 0, which is still fetching, 50 more
    syncs are requested. *)
Definition fiftyMore : list Event :=
  map (fun n => EvStartSync (jobName n) 0 (site "sc-domain:b.org")) (List.seq 1 50).

(** A job whose two properties both fail, and one with no property. *)
Definition twoFailures : list Event :=
  [ EvClaim 0; EvClaim 0;
    EvSettle 0 1 (Threw (Some "quota exceeded") 40);
    EvSettle 0 0 (Threw None 55) ].
Definition startTwo : list Event :=
  [ EvStartSyncAll (jobName 0) 0 ["sc-domain:a.com"; "sc-domain:b.org"] (site "") ].
Definition startedTwo : Manager :=
  default emptyManager (steps emptyManager startTwo).

Definition ranTwo : Manager :=
  default emptyManager (steps startedTwo twoFailures).
Definition finishedTwo : Manager :=
  default emptyManager (steps ranTwo [EvFinish 0]).

(** A property synced up to day 20000, and the clock of day 20030. *)
Definition clock20030 : Clock :=
  {| defaultStartDate := 19940; defaultEndDate := 20030 |}.
Definition ends (d : IsoDay) : Property.t :=
  {| Property.siteUrl := "sc-domain:a.com";
     Property.startDate := None;
     Property.endDate := Some d;
     Property.dimensions := None;
     Property.searchType := None |}.

End Examples.

(* ===================================================================== *)
(** * More concrete inputs *)
(* ===================================================================== *)

Module StoreExamples.
Import Dates Database Examples.

(** A table for the retention examples in which no two rows share the
    key of [idx_sa_unique]; the clock stands at [noon20100]. *)
Definition dbKeyed : Db :=
  {| search_analytics :=
       [ stored 1 (fullRow 19900 "usa" 0 3);
         stored 2 (fullRow 19901 "usa" 1 3);
         oldNonTarget;
         recentLow ];
     sqlite_sequence := 4 |}.

End StoreExamples.

Module ManagerExamples.
Import SyncManager Examples.
(** Both properties of job 0 fail and the job finishes. *)
Definition failTwo : list Event := startTwo ++ twoFailures ++ [EvFinish 0%nat].
(** Both properties of job 0 are in flight. *)
Definition claimTwo : list Event := startTwo ++ [EvClaim 0%nat; EvClaim 0%nat].
Definition claimedTwo : Manager := default emptyManager (steps emptyManager claimTwo).
(** Job 0 is fetching while jobs 1 and 2 run to completion. *)
Definition busyHistory : list Event := startOne ++ quickJob 1 ++ quickJob 2.
(** Job 0 is cancelled while it is fetching, and 50 more jobs are started. *)
Definition crowdedHistory : list Event := startOne ++ EvCancel (jobName 0) :: fiftyMore.
End ManagerExamples.

Module GscClientExamples.
Import GscClient.

Definition apiRow (n : Z) : GscApiRow :=
  {| keys := []; clicks := n; impressions := 10 * n; ctr := (1, 10%positive);
     position := (3, 1%positive) |}.

(** A result set of five rows, served two rows at a time. *)
Definition fiveRows : list GscApiRow := map apiRow [1; 2; 3; 4; 5].
Definition bySlices : Server := fun _ req => Ok (Some (slice fiveRows req)).
Definition twoAtATime : FetchOptions :=
  {| startDate := 20000; endDate := 20010; dimensions := None; rowLimit := Some 2;
     dataState := None; searchType := None |}.

Definition tooManyRequests : ApiError :=
  {| code := JNumber 429; response_status := JUndefined; status := JUndefined;
     message := "quota" |}.
Definition notFound : ApiError :=
  {| code := JString "404"; response_status := JUndefined; status := JUndefined;
     message := "not found" |}.

(** A call that succeeds at the third attempt. *)
Definition thirdTime : nat -> Attempt Z :=
  fun k => if (k <? 2)%nat then Fail tooManyRequests else Ok 7.

(** The signal is aborted after the first page. *)
Definition abortedAfterFirst : nat -> bool := fun k => (0 <? k)%nat.

End GscClientExamples.

Module DateExamples.
Import Dates JsDate DateHelpers.

(** Brisbane: ten hours ahead of UTC the whole year. *)
Definition TEN_HOURS : Z := 10 * 60 * 60 * 1000.

Lemma brisbane_spread (t tl : Z) : Z.abs (TEN_HOURS - TEN_HOURS) < HALF_DAY.
Proof. reflexivity. Qed.

Definition brisbane : TimeZone :=
  {| offsetAt := fun _ => TEN_HOURS; offsetOfLocal := fun _ => TEN_HOURS;
     offset_spread := brisbane_spread |}.

(** Monday 2 November 2026 (day 20759), 08:00 in Brisbane: Sunday
    1 November, 22:00 UTC. *)
Definition mondayMorning : Z := 20758 * MS_PER_DAY + 22 * 60 * 60 * 1000.

(** The same Monday at noon UTC. *)
Definition mondayNoon : Z := 20759 * MS_PER_DAY + 12 * 60 * 60 * 1000.

End DateExamples.
(* ===================================================================== *)
(** * Properties of the chunk planner *)
(* ===================================================================== *)

Section ChunkPlannerFacts.
Import Dates ChunkPlanner.

Lemma toISODate_newDate (a : IsoDay) : toISODate (newDate a) = a.
Proof. unfold toISODate, newDate. apply Z.div_mul. discriminate. Qed.

Lemma ceil_div_spec (n w k : Z) :
  0 < w -> (ceil_div n w = k <-> w * (k - 1) < n <= w * k).
Proof.
  intros Hw. unfold ceil_div.
  pose proof (Z.div_mod (- n) w ltac:(lia)) as Hdm.
  pose proof (Z.mod_pos_bound (- n) w Hw) as Hmod.
  split; intros H; nia.
Qed.

Lemma daysBetween_exact (a b : IsoDay) : daysBetween a b = b - a.
Proof.
  unfold daysBetween, roundDiv, newDate.
  replace (2 * (b * MS_PER_DAY - a * MS_PER_DAY) + MS_PER_DAY)
    with (MS_PER_DAY + (b - a) * (2 * MS_PER_DAY)) by lia.
  rewrite Z.div_add by discriminate.
  rewrite Z.div_small by (unfold MS_PER_DAY; lia). lia.
Qed.

(** ** In a time zone whose offset does not change *)

Section FixedOffsetZone.
Variable tz : TimeZone.
Variable k : Z.
Hypothesis Hfixed : fixedOffset tz k.

(** [setDate(getDate() + n)] moves the time stamp by [n] days of 24
    hours. *)
Lemma addDays_fixed (t n : Z) : addDays tz t n = t + n * MS_PER_DAY.
Proof.
  unfold addDays, UTC, LocalTime.
  rewrite (proj1 (Hfixed t)), (proj2 (Hfixed (t + k + n * MS_PER_DAY))). lia.
Qed.

(** One iteration of the loop, read on day numbers. *)
Lemma buildChunks_loop_step (a b : IsoDay) :
  a <= b ->
  buildChunks_loop tz (newDate a) (newDate b)
  = {| from := a; to := Z.min (a + (CHUNK_DAYS - 1)) b |}
      :: buildChunks_loop tz (newDate (Z.min (a + (CHUNK_DAYS - 1)) b + 1)) (newDate b).
Proof.
  intros Hab. rewrite buildChunks_loop_equation_1.
  destruct (Z_le_gt_dec (newDate a) (newDate b)) as [Hle | Hgt]; simpl.
  - rewrite toISODate_newDate.
    assert (Hend : (if addDays tz (newDate a) (CHUNK_DAYS - 1) >? newDate b
                    then newDate b else addDays tz (newDate a) (CHUNK_DAYS - 1))
                   = newDate (Z.min (a + (CHUNK_DAYS - 1)) b)).
    { rewrite addDays_fixed. unfold newDate, MS_PER_DAY, CHUNK_DAYS.
      destruct (_ >? _) eqn:E; [rewrite Z.min_r | rewrite Z.min_l]; lia. }
    rewrite Hend, toISODate_newDate.
    replace (addDays tz (newDate (Z.min (a + (CHUNK_DAYS - 1)) b)) 1)
      with (newDate (Z.min (a + (CHUNK_DAYS - 1)) b + 1))
      by (rewrite addDays_fixed; unfold newDate; lia).
    reflexivity.
  - unfold newDate, MS_PER_DAY in Hgt. lia.
Qed.

Lemma buildChunks_loop_done (a b : IsoDay) :
  b < a -> buildChunks_loop tz (newDate a) (newDate b) = [].
Proof.
  intros Hab. rewrite buildChunks_loop_equation_1.
  destruct (Z_le_gt_dec (newDate a) (newDate b)) as [Hle | Hgt]; simpl.
  - unfold newDate, MS_PER_DAY in Hle. lia.
  - reflexivity.
Qed.

Lemma buildChunks_loop_plan (n : nat) :
  forall a b : IsoDay,
    a <= b + 1 -> (Z.to_nat (b + 1 - a) <= n)%nat ->
    plan b a (buildChunks_loop tz (newDate a) (newDate b)).
Proof.
  induction n as [| n IH]; intros a b Hab Hn.
  - assert (a = b + 1) as -> by lia.
    rewrite buildChunks_loop_done by lia. constructor.
  - destruct (Z_le_gt_dec a b) as [Hle | Hgt].
    + rewrite buildChunks_loop_step by assumption.
      constructor; [assumption |].
      apply IH; unfold CHUNK_DAYS; lia.
    + assert (a = b + 1) as -> by lia.
      rewrite buildChunks_loop_done by lia. constructor.
Qed.

Lemma buildChunks_plan (a b : IsoDay) :
  a <= b -> plan b a (buildChunks tz a b).
Proof.
  intros Hab. apply (buildChunks_loop_plan (Z.to_nat (b + 1 - a))); lia.
Qed.

End FixedOffsetZone.

(** Every chunk of a plan lies in [[a, b]], is non-empty and at most
    [CHUNK_DAYS] days wide. *)
Lemma plan_bounds (b a : IsoDay) (cs : list Chunk) :
  plan b a cs ->
  Forall (fun c => a <= from c /\ from c <= to c /\ to c <= b
                   /\ to c - from c < CHUNK_DAYS) cs.
Proof.
  induction 1 as [| a cs Hab Hplan IH]; constructor.
  - simpl. unfold CHUNK_DAYS. lia.
  - eapply Forall_impl; [exact IH |].
    simpl. intros c. unfold CHUNK_DAYS. lia.
Qed.

Lemma plan_head (b a : IsoDay) (c : Chunk) (cs : list Chunk) :
  plan b a (c :: cs) -> from c = a.
Proof. inversion 1; reflexivity. Qed.

Lemma plan_contiguous (b a : IsoDay) (cs : list Chunk) :
  plan b a cs -> contiguous cs.
Proof.
  induction 1 as [| a cs Hab Hplan IH]; [exact I |].
  destruct cs as [| c2 rest]; [exact I |].
  split; [| exact IH].
  apply plan_head in Hplan. simpl. exact Hplan.
Qed.

Lemma plan_union (b a : IsoDay) (cs : list Chunk) :
  plan b a cs -> union_is cs a b.
Proof.
  induction 1 as [| a cs Hab Hplan IH]; intros d.
  - split; [intros (c & [] & _) | lia].
  - split.
    + intros (c & [<- | Hin] & Hc); unfold covers in *; simpl in *.
      * lia.
      * assert (Hd : Z.min (a + (CHUNK_DAYS - 1)) b + 1 <= d <= b)
          by (apply IH; exists c; split; assumption).
        unfold CHUNK_DAYS in *. lia.
    + intros Hd.
      destruct (Z_le_gt_dec d (Z.min (a + (CHUNK_DAYS - 1)) b)) as [Hle | Hgt].
      * eexists; split; [left; reflexivity |]. unfold covers; simpl. lia.
      * destruct (proj2 (IH d) ltac:(lia)) as (c & Hin & Hc).
        exists c; split; [right; assumption | assumption].
Qed.

Lemma plan_length (b a : IsoDay) (cs : list Chunk) :
  plan b a cs ->
  Z.of_nat (length cs) = ceil_div (b - a + 1) CHUNK_DAYS.
Proof.
  induction 1 as [| a cs Hab Hplan IH].
  - symmetry. apply ceil_div_spec; simpl; unfold CHUNK_DAYS; lia.
  - symmetry. apply ceil_div_spec; [reflexivity |].
    symmetry in IH. apply ceil_div_spec in IH; [| reflexivity].
    simpl length. unfold CHUNK_DAYS in *. lia.
Qed.

Lemma plan_last (b a : IsoDay) (cs : list Chunk) (c : Chunk) :
  plan b a cs -> last cs = Some c -> to c = b.
Proof.
  induction 1 as [| a cs Hab Hplan IH]; intros Hlast; [discriminate |].
  destruct cs as [| c2 rest].
  - simpl in Hlast. injection Hlast as <-. simpl.
    inversion Hplan. unfold CHUNK_DAYS in *. lia.
  - apply IH. exact Hlast.
Qed.

Lemma plan_non_overlapping (b a : IsoDay) (cs : list Chunk) :
  plan b a cs -> non_overlapping cs.
Proof.
  induction 1 as [| a cs Hab Hplan IH]; intros i j ci cj d Hi Hj Hci Hcj.
  - rewrite lookup_nil in Hi. discriminate.
  - pose proof (plan_bounds _ _ _ Hplan) as Hb.
    rewrite Forall_forall in Hb.
    destruct i as [| i], j as [| j]; simpl in Hi, Hj.
    + reflexivity.
    + exfalso. injection Hi as <-.
      apply list_elem_of_lookup_2, Hb in Hj.
      unfold covers in *; simpl in *. lia.
    + exfalso. injection Hj as <-.
      apply list_elem_of_lookup_2, Hb in Hi.
      unfold covers in *; simpl in *. lia.
    + f_equal. eapply IH; eassumption.
Qed.


(** In a time zone whose offset does not change, and for dates with
    [dateFrom <= dateTo], the chunk list of [buildChunks] is contiguous
    (each chunk begins the day after the previous one ends),
    non-overlapping, its union is exactly the inclusive range from
    [dateFrom] to [dateTo], its last chunk ends at [dateTo], no chunk is
    wider than 90 days, and its length is ceil(totalDays / 90), where
    totalDays = dateTo - dateFrom + 1. *)
Lemma buildChunks_partitions_range_fixed_offset
    (tz : TimeZone) (k : Z) (dateFrom dateTo : IsoDay) :
  fixedOffset tz k ->
  dateFrom <= dateTo ->
  let cs := buildChunks tz dateFrom dateTo in
  contiguous cs
  /\ non_overlapping cs
  /\ union_is cs dateFrom dateTo
  /\ (exists c, last cs = Some c /\ to c = dateTo)
  /\ Forall (fun c => from c <= to c /\ to c - from c < CHUNK_DAYS) cs
  /\ Z.of_nat (length cs) = ceil_div (dateTo - dateFrom + 1) CHUNK_DAYS
  /\ DataSync_buildChunks tz dateFrom dateTo = cs.
Proof.
  intros Hfixed Hle cs.
  pose proof (buildChunks_plan tz k Hfixed dateFrom dateTo Hle) as Hplan.
  fold cs in Hplan.
  split; [eapply plan_contiguous; eassumption |].
  split; [eapply plan_non_overlapping; eassumption |].
  split; [apply (plan_union _ _ _ Hplan) |].
  split.
  { destruct (last cs) as [c |] eqn:Hlast.
    - exists c. split; [reflexivity |]. eapply plan_last; eassumption.
    - exfalso. apply last_None in Hlast.
      rewrite Hlast in Hplan. inversion Hplan. lia. }
  split.
  { eapply Forall_impl; [eapply plan_bounds; eassumption |].
    simpl. intros c. lia. }
  split; [eapply plan_length; eassumption | reflexivity].
Qed.

(** The list that [syncOneProperty] hands to its chunk workers covers
    the resolved range, whether it was split or not. *)
Lemma planChunks_covers (tz : TimeZone) (k : Z) (startDate endDate : IsoDay) :
  fixedOffset tz k ->
  startDate <= endDate ->
  let cs := planChunks tz startDate endDate in
  contiguous cs /\ non_overlapping cs /\ union_is cs startDate endDate
  /\ Forall (fun c => startDate <= from c /\ from c <= to c /\ to c <= endDate) cs.
Proof.
  intros Hfixed Hle. unfold planChunks.
  destruct (daysBetween startDate endDate >? CHUNK_DAYS).
  - pose proof (buildChunks_plan tz k Hfixed startDate endDate Hle) as Hplan.
    split; [eapply plan_contiguous; eassumption |].
    split; [eapply plan_non_overlapping; eassumption |].
    split; [apply (plan_union _ _ _ Hplan) |].
    eapply Forall_impl; [eapply plan_bounds; eassumption |].
    simpl. intros c. lia.
  - split; [exact I |].
    split.
    { intros i j ci cj d Hi Hj _ _.
      destruct i, j; simpl in *; try discriminate; reflexivity. }
    split.
    { intros d. split.
      - intros (c & [<- | []] & Hc). exact Hc.
      - intros Hd. eexists. split; [left; reflexivity | exact Hd]. }
    repeat constructor; simpl; lia.
Qed.

Lemma utc_fixed : fixedOffset utc 0.
Proof. intros t. split; reflexivity. Qed.

(** In a process that runs in UTC the planner partitions every range. *)
Corollary buildChunks_partitions_range_utc (dateFrom dateTo : IsoDay) :
  dateFrom <= dateTo ->
  let cs := buildChunks utc dateFrom dateTo in
  contiguous cs
  /\ non_overlapping cs
  /\ union_is cs dateFrom dateTo
  /\ (exists c, last cs = Some c /\ to c = dateTo)
  /\ Forall (fun c => from c <= to c /\ to c - from c < CHUNK_DAYS) cs
  /\ Z.of_nat (length cs) = ceil_div (dateTo - dateFrom + 1) CHUNK_DAYS
  /\ DataSync_buildChunks utc dateFrom dateTo = cs.
Proof. apply (buildChunks_partitions_range_fixed_offset utc 0). exact utc_fixed. Qed.

End ChunkPlannerFacts.

Section ChunkPlannerTheorems.
Import Dates ChunkPlanner Examples.

(** C4.  The chunk planner in a process whose time zone has summer time
    (Central European Time), for the range from 1 March 2024 (day 19783)
    to 27 August 2024 (day 19962): the first chunk ends on 28 May, one day
    short of 90 days, because the local day of the change to summer time
    has 23 hours and the chunk end is formatted in UTC; the second chunk
    ends on 26 August, and the loop stops there, because its cursor, at
    23:00 UTC of 27 August, is past midnight UTC of the end date.  The
    last day of the range is in no chunk, and the last chunk is not
    clipped to the end date.  In a time zone whose offset does not change
    the planner returns an exact partition of the range
    ([buildChunks_partitions_range_fixed_offset]). *)
Theorem buildChunks_summer_time_drops_last_day :
  let cs := buildChunks europeBerlin2024 19783 19962 in
  cs = [ {| from := 19783; to := 19871 |}; {| from := 19872; to := 19961 |} ]
  /\ ~ (exists c, In c cs /\ covers c 19962)
  /\ ~ union_is cs 19783 19962
  /\ DataSync_buildChunks europeBerlin2024 19783 19962 = cs.
Proof.
  assert (Hcs : buildChunks europeBerlin2024 19783 19962
                = [ {| from := 19783; to := 19871 |}; {| from := 19872; to := 19961 |} ])
    by (vm_compute; reflexivity).
  cbv zeta. rewrite Hcs.
  assert (Hout : ~ (exists c,
                      In c [ {| from := 19783; to := 19871 |};
                             {| from := 19872; to := 19961 |} ]
                      /\ covers c 19962)).
  { intros (c & [<- | [<- | []]] & Hc); unfold covers in Hc; simpl in Hc; lia. }
  split; [reflexivity |].
  split; [exact Hout |].
  split; [| exact Hcs].
  intros Huni. apply Hout. apply Huni. lia.
Qed.

(** The same range in UTC. *)
Example buildChunks_utc :
  buildChunks utc 19783 19962
  = [ {| from := 19783; to := 19872 |}; {| from := 19873; to := 19962 |} ].
Proof. vm_compute. reflexivity. Qed.

End ChunkPlannerTheorems.

(* ===================================================================== *)
(** * Properties of the store *)
(* ===================================================================== *)

Section DatabaseFacts.
Import Dates Database.

(** ** Order of the [date] column *)

Lemma date_leb_refl (a : DateText) : date_leb a a = true.
Proof. destruct a; unfold date_leb; simpl; [reflexivity |]. rewrite Z.ltb_irrefl. reflexivity. Qed.

Lemma date_leb_trans (a b c : DateText) :
  date_leb a b = true -> date_leb b c = true -> date_leb a c = true.
Proof.
  unfold date_leb.
  destruct a, b, c; simpl; try reflexivity; try discriminate.
  rewrite !negb_true_iff, !Z.ltb_ge. lia.
Qed.

Lemma date_max_ge_l (a b : DateText) : date_leb a (date_max a b) = true.
Proof.
  unfold date_max. destruct (date_ltb a b) eqn:E; [| apply date_leb_refl].
  unfold date_leb. destruct a, b; simpl in *; try reflexivity; try discriminate.
  rewrite negb_true_iff, Z.ltb_ge. apply Z.ltb_lt in E. lia.
Qed.

Lemma date_max_ge_r (a b : DateText) : date_leb b (date_max a b) = true.
Proof.
  unfold date_max. destruct (date_ltb a b) eqn:E; [apply date_leb_refl |].
  unfold date_leb. rewrite E. reflexivity.
Qed.

Lemma date_max_cases (a b : DateText) : date_max a b = a \/ date_max a b = b.
Proof. unfold date_max. destruct (date_ltb a b); auto. Qed.

(** ** [MAX(date)] *)

Lemma fold_max_spec (rest : list StoredRow) :
  forall m0 : DateText,
    let m := fold_left (fun m s => date_max m (date (data s))) rest m0 in
    date_leb m0 m = true
    /\ (forall s, In s rest -> date_leb (date (data s)) m = true)
    /\ (m = m0 \/ exists s, In s rest /\ date (data s) = m).
Proof.
  induction rest as [| r rest IH]; intros m0; simpl.
  - split; [apply date_leb_refl |]. split; [intros s [] | left; reflexivity].
  - destruct (IH (date_max m0 (date (data r)))) as (Hge & Hall & Hwit).
    split; [eapply date_leb_trans; [apply date_max_ge_l | exact Hge] |].
    split.
    + intros s [<- | Hin]; [| apply Hall; exact Hin].
      eapply date_leb_trans; [apply date_max_ge_r | exact Hge].
    + destruct Hwit as [Heq | (s & Hin & Hs)].
      * destruct (date_max_cases m0 (date (data r))) as [Hm | Hm].
        -- left. rewrite Heq. exact Hm.
        -- right. exists r. split; [left; reflexivity |]. rewrite Heq. symmetry. exact Hm.
      * right. exists s. split; [right; exact Hin | exact Hs].
Qed.

Lemma sqlMaxDate_latest (rows : list StoredRow) : isLatestDate rows (sqlMaxDate rows).
Proof.
  destruct rows as [| r rest]; simpl; [reflexivity |].
  destruct (fold_max_spec rest (date (data r))) as (Hge & Hall & Hwit).
  split.
  - destruct Hwit as [Heq | (s & Hin & Hs)].
    + exists r. split; [left; reflexivity | symmetry; exact Heq].
    + exists s. split; [right; exact Hin | exact Hs].
  - intros s [<- | Hin]; [exact Hge | apply Hall; exact Hin].
Qed.

(** ** The batch writer on the data columns *)

Lemma contents_insertOrReplace (now : Z) (r : SearchAnalyticsRow) (db : Db) :
  contents (insertOrReplace now r db) = upsert r (contents db).
Proof.
  unfold contents, insertOrReplace, upsert; simpl.
  rewrite map_app. simpl. f_equal.
  induction (search_analytics db) as [| s l IH]; simpl; [reflexivity |].
  destruct (conflicts (data s) r); simpl; [exact IH | f_equal; exact IH].
Qed.

Lemma insertRows_spec (now : Z) (rows : list SearchAnalyticsRow) :
  forall (db : Db) (n : Z),
    fst (insertRows now rows db n) = n + Z.of_nat (length rows)
    /\ contents (snd (insertRows now rows db n)) = upsertAll rows (contents db).
Proof.
  induction rows as [| r rows IH]; intros db n; simpl.
  - split; [lia | reflexivity].
  - destruct (IH (insertOrReplace now r db) (n + 1)) as [Hn Hc].
    split; [rewrite Hn; lia |].
    rewrite Hc, contents_insertOrReplace. reflexivity.
Qed.

Lemma filter_filter_same {A : Type} (f g : A -> bool) (l : list A) :
  List.filter f (List.filter g l) = List.filter (fun a => g a && f a) l.
Proof.
  induction l as [| a l IH]; simpl; [reflexivity |].
  destruct (g a); simpl; [destruct (f a); simpl; congruence | exact IH].
Qed.

Lemma filter_none {A : Type} (f : A -> bool) (l : list A) :
  (forall a, In a l -> f a = false) -> List.filter f l = [].
Proof.
  induction l as [| a l IH]; intros H; simpl; [reflexivity |].
  rewrite (H a) by (left; reflexivity). apply IH. intros b Hb. apply H. right. exact Hb.
Qed.

(** The table after a batch: the rows that the batch did not replace,
    followed by what the batch leaves on an empty table. *)
Lemma upsertAll_split (rows : list SearchAnalyticsRow) :
  forall l, upsertAll rows l = List.filter (untouched rows) l ++ upsertAll rows [].
Proof.
  induction rows as [| r rows IH]; intros l; simpl.
  - rewrite app_nil_r. induction l; simpl; congruence.
  - rewrite (IH (upsert r l)), (IH (upsert r [])).
    unfold upsert; simpl.
    rewrite List.filter_app, filter_filter_same, <- app_assoc. reflexivity.
Qed.

Lemma upsertAll_subset (rows : list SearchAnalyticsRow) :
  forall l a, In a (upsertAll rows l) -> In a l \/ In a rows.
Proof.
  induction rows as [| r rows IH]; intros l a Hin; simpl in *; [left; exact Hin |].
  apply IH in Hin. destruct Hin as [Hin | Hin]; [| right; right; exact Hin].
  unfold upsert in Hin. apply in_app_or in Hin.
  destruct Hin as [Hin | [<- | []]].
  - left. apply List.filter_In in Hin. apply Hin.
  - right. left. reflexivity.
Qed.

Lemma date_eqb_refl (a : DateText) : date_eqb a a = true.
Proof. destruct a; simpl; [reflexivity | apply Z.eqb_refl]. Qed.

(** A row whose five key columns all hold a value conflicts with itself. *)
Lemma conflicts_refl_keyed (r : SearchAnalyticsRow) :
  keyed r = true -> conflicts r r = true.
Proof.
  unfold keyed, conflicts.
  destruct (query r), (page r), (device r), (country r); try discriminate.
  intros _. simpl. rewrite date_eqb_refl, !String.eqb_refl. reflexivity.
Qed.

Lemma untouched_member (rows : list SearchAnalyticsRow) (a : SearchAnalyticsRow) :
  In a rows -> keyed a = true -> untouched rows a = false.
Proof.
  intros Hin Hk. unfold untouched.
  apply not_true_is_false. intros Hall.
  rewrite forallb_forall in Hall. specialize (Hall a Hin).
  rewrite conflicts_refl_keyed in Hall by exact Hk. discriminate.
Qed.

(** Writing a batch twice, when every record of the batch has a value in
    all five columns of the uniqueness tuple: the second write leaves the
    data columns of the table as the first write left them. *)
Lemma upsertAll_idempotent_keyed (rows l : list SearchAnalyticsRow) :
  forallb keyed rows = true ->
  upsertAll rows (upsertAll rows l) = upsertAll rows l.
Proof.
  intros Hk.
  rewrite (upsertAll_split rows (upsertAll rows l)).
  rewrite (upsertAll_split rows l) at 1.
  rewrite List.filter_app, filter_filter_same.
  rewrite (filter_none (untouched rows) (upsertAll rows [])).
  - rewrite app_nil_r. rewrite (upsertAll_split rows l). f_equal.
    apply List.filter_ext. intros a. destruct (untouched rows a); reflexivity.
  - intros a Hin. apply upsertAll_subset in Hin. destruct Hin as [[] | Hin].
    apply untouched_member; [exact Hin |].
    rewrite forallb_forall in Hk. apply Hk. exact Hin.
Qed.

Lemma insertSearchAnalyticsBatch_idempotent_keyed
    (now1 now2 : Z) (rows : list SearchAnalyticsRow) (db : Db) :
  forallb keyed rows = true ->
  let once := insertSearchAnalyticsBatch now1 rows db in
  let twice := insertSearchAnalyticsBatch now2 rows (snd once) in
  contents (snd twice) = contents (snd once)
  /\ getRowCount (snd twice) = getRowCount (snd once)
  /\ fst twice = Z.of_nat (length rows).
Proof.
  intros Hk once twice. subst twice once. unfold insertSearchAnalyticsBatch.
  destruct (insertRows_spec now1 rows db 0) as [_ Hc1].
  destruct (insertRows_spec now2 rows (snd (insertRows now1 rows db 0)) 0) as [Hn2 Hc2].
  assert (Hc : contents (snd (insertRows now2 rows (snd (insertRows now1 rows db 0)) 0))
               = contents (snd (insertRows now1 rows db 0))).
  { rewrite Hc2, Hc1. apply upsertAll_idempotent_keyed. exact Hk. }
  split; [exact Hc |]. split; [| rewrite Hn2; lia].
  unfold getRowCount. f_equal.
  apply (f_equal (@length _)) in Hc. unfold contents in Hc.
  rewrite !length_map in Hc. exact Hc.
Qed.

End DatabaseFacts.

Section DatabaseTheorems.
Import Dates Database Examples.
Local Open Scope string_scope.

(** C3.  The batch writer at a batch whose record has no value for some
    column of the uniqueness tuple (here a record of a sync with the
    dimensions date and page): the first write stores one row, the second
    write of the same batch stores a second row with the same data instead
    of replacing the first.  Batches whose records have a value in all
    five columns are written idempotently
    ([insertSearchAnalyticsBatch_idempotent_keyed]). *)
Theorem insertBatch_twice_duplicates_null_dimension :
  let once := snd (insertSearchAnalyticsBatch 1 [pageOnlyRow] emptyDb) in
  let twice := snd (insertSearchAnalyticsBatch 2 [pageOnlyRow] once) in
  contents once = [pageOnlyRow]
  /\ contents twice = [pageOnlyRow; pageOnlyRow]
  /\ getRowCount once = 1
  /\ getRowCount twice = 2.
Proof. vm_compute. repeat split. Qed.

(** C8, as stated, fails: on the database of sc-domain:a.com,
    [getLastSyncDate('sc-domain:b.org')] returns the latest date of
    a.com, although nothing is stored for b.org. *)
Lemma getLastSyncDate_other_property_counterexample :
  let db := openDatabase fsA (Helpers.getDbPath dataDir "sc-domain:a.com") in
  storedFor dataDir fsA "sc-domain:b.org" = []
  /\ getLastSyncDate db "sc-domain:b.org" = Some (Day 20000)
  /\ ~ isLatestDate (storedFor dataDir fsA "sc-domain:b.org")
         (getLastSyncDate db "sc-domain:b.org").
Proof.
  split; [vm_compute; reflexivity |].
  split; [vm_compute; reflexivity |].
  intros [[s [Hin _]] _].
  vm_compute in Hin. exact Hin.
Qed.

(** C8, amended.  [getLastSyncDate(propertyId)] returns the latest date
    stored in the database it is called on, or null when that database
    holds no row; the value is determined by the content of that database
    alone, whatever the argument.  On the database opened at
    [getDbPath(propertyId)], as [syncOneProperty] opens it, this is the
    latest date stored for that property. *)
Theorem getLastSyncDate_latest_of_database
    (db : Db) (propertyId : string) :
  isLatestDate (search_analytics db) (getLastSyncDate db propertyId)
  /\ (forall other : string, getLastSyncDate db other = getLastSyncDate db propertyId)
  /\ (forall (dir : string) (fs : FileSystem),
        isLatestDate (storedFor dir fs propertyId)
          (getLastSyncDate (openDatabase fs (Helpers.getDbPath dir propertyId)) propertyId)).
Proof.
  split; [apply sqlMaxDate_latest |].
  split; [reflexivity |].
  intros dir fs. apply sqlMaxDate_latest.
Qed.

(** Two properties of one site, a domain property and a URL-prefix
    property, are given the same database file. *)
Example getDbPath_shared :
  Helpers.getDbPath dataDir "sc-domain:example.com"
  = Helpers.getDbPath dataDir "https://example.com/".
Proof. reflexivity. Qed.

End DatabaseTheorems.

(* ===================================================================== *)
(** * Properties of the retention pruner *)
(* ===================================================================== *)

Section DataRetentionFacts.
Import Dates Database DataRetention Examples.

Lemma filter_length_split {A : Type} (w : A -> bool) (l : list A) :
  (length (List.filter w l) + length (List.filter (fun a => negb (w a)) l) = length l)%nat.
Proof.
  induction l as [| a l IH]; simpl; [reflexivity |].
  destruct (w a); simpl; lia.
Qed.

Lemma filter_after_disjoint {A : Type} (w1 w2 : A -> bool) (l : list A) :
  (forall a, w2 a = true -> w1 a = false) ->
  List.filter w2 (List.filter (fun a => negb (w1 a)) l) = List.filter w2 l.
Proof.
  intros Hdis. induction l as [| a l IH]; simpl; [reflexivity |].
  destruct (w1 a) eqn:E1; simpl.
  - destruct (w2 a) eqn:E2; [| exact IH].
    apply Hdis in E2. congruence.
  - rewrite IH. reflexivity.
Qed.

Lemma filter_all {A : Type} (w : A -> bool) (l : list A) :
  (forall a, w a = true) -> List.filter w l = l.
Proof.
  intros H. induction l as [| a l IH]; simpl; [reflexivity |].
  rewrite H, IH. reflexivity.
Qed.

(** A row cannot satisfy both WHERE clauses: [IN] and [NOT IN] are never
    both true. *)
Lemma where_disjoint (cutoff : DateText) (p : RetentionPolicy) (r : StoredRow) :
  nonTargetZeroClickWhere cutoff p r = true -> targetLowValueWhere cutoff p r = false.
Proof.
  unfold nonTargetZeroClickWhere, targetLowValueWhere, sqlLowerNotIn.
  destruct (sqlLowerIn (country (data r)) (lowerTargets p)) as [[|] |]; simpl;
    rewrite ?andb_false_r; intros H; try reflexivity; discriminate.
Qed.

Lemma targetLowValueWhere_old_zero (cutoff : DateText) (p : RetentionPolicy) (r : StoredRow) :
  targetLowValueWhere cutoff p r = true ->
  clicks (data r) = 0 /\ date_ltb (date (data r)) cutoff = true.
Proof.
  unfold targetLowValueWhere. rewrite !andb_true_iff.
  intros [[[Hd Hc] _] _]. split; [apply Z.eqb_eq; exact Hc | exact Hd].
Qed.

Lemma nonTargetZeroClickWhere_old_zero (cutoff : DateText) (p : RetentionPolicy) (r : StoredRow) :
  nonTargetZeroClickWhere cutoff p r = true ->
  clicks (data r) = 0 /\ date_ltb (date (data r)) cutoff = true.
Proof.
  unfold nonTargetZeroClickWhere. rewrite !andb_true_iff.
  intros [[Hd Hc] _]. split; [apply Z.eqb_eq; exact Hc | exact Hd].
Qed.

(** The rows left by [prune], and the count it reports. *)
Lemma prune_unfold (tz : TimeZone) (now : Z) (policy : PartialPolicy) (db : Db) :
  let p := mergePolicy policy in
  let cutoff := cutoffDate tz now p in
  let w1 := targetLowValueWhere cutoff p in
  let w2 := fun r => pruneNonTargetZeroClicks p && nonTargetZeroClickWhere cutoff p r in
  search_analytics (snd (prune tz now policy db))
  = List.filter (fun r => negb (w2 r)) (List.filter (fun r => negb (w1 r)) (search_analytics db))
  /\ rowsDeleted (fst (prune tz now policy db))
     = Z.of_nat (length (List.filter w1 (search_analytics db)))
       + Z.of_nat (length (List.filter w2 (search_analytics db)))
  /\ rowsAfter (fst (prune tz now policy db))
     = getRowCount db - rowsDeleted (fst (prune tz now policy db)).
Proof.
  cbv zeta. unfold prune. cbv zeta.
  generalize (mergePolicy policy). intros p.
  generalize (cutoffDate tz now p). intros cutoff.
  unfold sqlDelete.
  destruct (pruneNonTargetZeroClicks p);
    cbn [fst snd search_analytics rowsDeleted rowsAfter andb].
  - split; [reflexivity |]. split; [| reflexivity]. f_equal.
    rewrite filter_after_disjoint; [reflexivity |].
    intros a. apply where_disjoint.
  - split; [| split; [| reflexivity]].
    + symmetry. apply filter_all. reflexivity.
    + f_equal. symmetry.
      rewrite (filter_none (fun _ => false)); [reflexivity | reflexivity].
Qed.

Lemma in_filter_negb {A : Type} (w : A -> bool) (l : list A) (a : A) :
  In a l -> ~ In a (List.filter (fun x => negb (w x)) l) -> w a = true.
Proof.
  intros Hin Hout. destruct (w a) eqn:E; [reflexivity |].
  exfalso. apply Hout. apply List.filter_In. split; [exact Hin |]. rewrite E. reflexivity.
Qed.

(** C5.  For every store state and every retention policy (and every
    clock value and time zone of the process), a stored row
    that a prune run deletes has clicks = 0 and a date strictly before the
    cut-off date of [recentDays]; so a row with clicks > 0 is never
    deleted, and a row dated on or after the cut-off is never deleted,
    whatever its country and whatever the flags of the policy. *)
Theorem prune_deletes_only_old_zero_click
    (tz : TimeZone) (now : Z) (policy : PartialPolicy) (db : Db) (r : StoredRow) :
  In r (search_analytics db) ->
  let after := snd (prune tz now policy db) in
  let cutoff := cutoffDate tz now (mergePolicy policy) in
  (deletedBy db after r ->
     clicks (data r) = 0 /\ date_ltb (date (data r)) cutoff = true)
  /\ (0 < clicks (data r) -> In r (search_analytics after))
  /\ (date_ltb (date (data r)) cutoff = false -> In r (search_analytics after)).
Proof.
  intros Hin after cutoff.
  destruct (prune_unfold tz now policy db) as (Hrows & _ & _).
  fold after in Hrows. fold cutoff in Hrows.
  set (p := mergePolicy policy) in *.
  assert (Hdel : ~ In r (search_analytics after) ->
                 clicks (data r) = 0 /\ date_ltb (date (data r)) cutoff = true).
  { intros Hout. rewrite Hrows in Hout.
    destruct (targetLowValueWhere cutoff p r) eqn:E1.
    - apply targetLowValueWhere_old_zero in E1. exact E1.
    - assert (Hin1 : In r (List.filter (fun r => negb (targetLowValueWhere cutoff p r))
                             (search_analytics db)))
        by (apply List.filter_In; split; [exact Hin | rewrite E1; reflexivity]).
      pose proof (in_filter_negb _ _ _ Hin1 Hout) as E2.
      apply andb_true_iff in E2. destruct E2 as [_ E2].
      apply nonTargetZeroClickWhere_old_zero in E2. exact E2. }
  assert (Hdec : In r (search_analytics after) \/ ~ In r (search_analytics after)).
  { rewrite Hrows.
    destruct (negb (targetLowValueWhere cutoff p r)
              && negb (pruneNonTargetZeroClicks p && nonTargetZeroClickWhere cutoff p r)) eqn:E.
    - left. apply andb_true_iff in E. destruct E as [E1 E2].
      apply List.filter_In. split; [| exact E2].
      apply List.filter_In. split; [exact Hin | exact E1].
    - right. intros Hin2.
      apply List.filter_In in Hin2. destruct Hin2 as [Hin2 E2].
      apply List.filter_In in Hin2. destruct Hin2 as [_ E1].
      rewrite E1, E2 in E. discriminate. }
  split; [intros [_ Hout]; apply Hdel; exact Hout |].
  split.
  - intros Hpos. destruct Hdec as [H | H]; [exact H |].
    apply Hdel in H. lia.
  - intros Hrecent. destruct Hdec as [H | H]; [exact H |].
    apply Hdel in H. destruct H as [_ H]. congruence.
Qed.

Lemma prune_deletes_only_old_zero_click_witness :
  let after := snd (prune europeBerlin2024 noon20100 noPolicy dbRetention) in
  let cutoff := cutoffDate europeBerlin2024 noon20100 (mergePolicy noPolicy) in
  (deletedBy dbRetention after oldTargetLow ->
     clicks (data oldTargetLow) = 0 /\ date_ltb (date (data oldTargetLow)) cutoff = true)
  /\ (0 < clicks (data oldTargetLow) -> In oldTargetLow (search_analytics after))
  /\ (date_ltb (date (data oldTargetLow)) cutoff = false ->
        In oldTargetLow (search_analytics after)).
Proof.
  apply (prune_deletes_only_old_zero_click europeBerlin2024 noon20100 noPolicy
           dbRetention oldTargetLow).
  simpl. left. reflexivity.
Defined.

(** C6.  For every store state and every retention policy, preview
    leaves the store unchanged, and the would-delete count it reports is
    the number of rows that a prune run with the same policy on the same
    state (at the same clock value, in the same time zone) deletes: the count of low-value target
    rows plus, when [pruneNonTargetZeroClicks] is set, the count of
    non-target rows without clicks.  [wouldKeep] is the total number of
    rows minus [wouldDelete], which is the number of rows the prune run
    leaves. *)
Theorem preview_agrees_with_prune
    (tz : TimeZone) (now : Z) (policy : PartialPolicy) (db : Db) :
  let pv := fst (preview tz now policy db) in
  let pr := fst (prune tz now policy db) in
  let after := snd (prune tz now policy db) in
  snd (preview tz now policy db) = db
  /\ wouldDelete pv = rowsDeleted pr
  /\ wouldDelete pv = getRowCount db - getRowCount after
  /\ wouldDelete pv
     = targetLowValue pv
       + (if pruneNonTargetZeroClicks (mergePolicy policy) then nonTargetZeroClick pv else 0)
  /\ totalRows pv = getRowCount db
  /\ wouldKeep pv = totalRows pv - wouldDelete pv
  /\ wouldKeep pv = getRowCount after
  /\ wouldKeep pv = rowsAfter pr.
Proof.
  intros pv pr after.
  destruct (prune_unfold tz now policy db) as (Hrows & Hdel & Hra).
  fold after in Hrows. fold pr in Hdel, Hra.
  set (p := mergePolicy policy) in *.
  set (cutoff := cutoffDate tz now p) in *.
  set (w1 := targetLowValueWhere cutoff p) in *.
  set (w2 := fun r => pruneNonTargetZeroClicks p && nonTargetZeroClickWhere cutoff p r) in *.
  assert (Hwd : wouldDelete pv
                = Z.of_nat (length (List.filter w1 (search_analytics db)))
                  + Z.of_nat (length (List.filter w2 (search_analytics db)))).
  { subst pv w2 w1 cutoff. unfold preview. cbv zeta. fold p.
    generalize (cutoffDate tz now p). intros cutoff.
    cbn [fst wouldDelete]. unfold sqlCount. f_equal.
    destruct (pruneNonTargetZeroClicks p); cbn [andb]; [reflexivity |].
    rewrite (filter_none (fun _ => false)); reflexivity. }
  assert (Hafter : getRowCount after
                   = getRowCount db
                     - (Z.of_nat (length (List.filter w1 (search_analytics db)))
                        + Z.of_nat (length (List.filter w2 (search_analytics db))))).
  { unfold getRowCount. rewrite Hrows.
    pose proof (filter_length_split w1 (search_analytics db)) as H1.
    pose proof (filter_length_split w2
                  (List.filter (fun r => negb (w1 r)) (search_analytics db))) as H2.
    rewrite (filter_after_disjoint w1 w2) in H2.
    - subst w2. cbv beta in H2. lia.
    - intros a Ha. subst w2 w1. simpl in Ha.
      apply andb_true_iff in Ha. apply where_disjoint. apply Ha. }
  split; [reflexivity |].
  split; [rewrite Hwd, Hdel; reflexivity |].
  split; [rewrite Hwd, Hafter; lia |].
  split; [reflexivity |].
  split; [reflexivity |].
  split; [reflexivity |].
  split.
  - change (wouldKeep pv) with (getRowCount db - wouldDelete pv).
    rewrite Hwd, Hafter. reflexivity.
  - change (wouldKeep pv) with (getRowCount db - wouldDelete pv).
    rewrite Hra, Hwd, Hdel. reflexivity.
Qed.

(** The retention example of the specification: an old target-country
    row with no click and 3 impressions is marked and deleted, the same
    row with one click is kept. *)
Example retention_example :
  wouldDelete (fst (preview europeBerlin2024 noon20100 noPolicy dbRetention)) = 2
  /\ search_analytics (snd (prune europeBerlin2024 noon20100 noPolicy dbRetention))
     = [oldTargetClicked; recentLow].
Proof. vm_compute. split; reflexivity. Qed.

End DataRetentionFacts.

(* ===================================================================== *)
(** * Properties of the job manager *)
(* ===================================================================== *)

Section SyncManagerFacts.
Import Dates ChunkPlanner SyncManager.

(** ** Job objects under the events of their activation *)

Lemma evolves_refl (c : Cell) : evolves c c.
Proof.
  repeat split; try tauto. exists []. rewrite app_nil_r. reflexivity.
Qed.

Lemma evolves_trans (c1 c2 c3 : Cell) :
  evolves c1 c2 -> evolves c2 c3 -> evolves c1 c3.
Proof.
  intros (Hp & Hc & Hs & Hf & (more1 & Hr)) (Hp' & Hc' & Hs' & Hf' & (more2 & Hr')).
  split; [congruence |].
  split; [tauto |].
  split; [tauto |].
  split.
  - intros Hfin. specialize (Hf Hfin). subst c2. apply Hf'. exact Hfin.
  - exists (more1 ++ more2). rewrite Hr', Hr, app_assoc. reflexivity.
Qed.

(** The final block of [runJob]. *)
Lemma finalize_spec (j : Job.t) :
  Job.status (finalize j)
  = (if Job.cancelled j then Cancelled
     else if (0 <? length (Job.results j))%nat && forallb isFailed (Job.results j)
          then Failed else Completed)
  /\ Job.cancelled (finalize j) = Job.cancelled j
  /\ Job.results (finalize j) = Job.results j
  /\ Job.properties (finalize j) = Job.properties j.
Proof.
  destruct j as [i st ca pr tp cp cu rf et ac sa rs er].
  unfold finalize; simpl.
  destruct ca; simpl; [repeat split |].
  destruct ((0 <? length rs)%nat && forallb isFailed rs); simpl;
    destruct (existsb isFailed rs); simpl; repeat split.
Qed.


Lemma finalize_terminal (j : Job.t) : terminal (Job.status (finalize j)) = true.
Proof.
  destruct (finalize_spec j) as [-> _].
  destruct (Job.cancelled j); [reflexivity |].
  destruct (_ && _); reflexivity.
Qed.

Lemma with_status_results (v : SyncJobStatus) (j : Job.t) :
  Job.results (Job.with_status v j) = Job.results j.
Proof. destruct j; reflexivity. Qed.

Lemma with_status_properties (v : SyncJobStatus) (j : Job.t) :
  Job.properties (Job.with_status v j) = Job.properties j.
Proof. destruct j; reflexivity. Qed.

(** Unfolds an event of an activation on a cell given by its fields. *)
Ltac open_cell c :=
  let j := fresh "j" in
  let rs := fresh "rs" in
  destruct c as [j rs];
  destruct j as [jid jst jca jpr jtp jcp jcu jrf jet jac jsa jrs jer];
  destruct rs as [ract ridx rinf rfin];
  simpl in *.

Lemma claim_evolves (c c' : Cell) :
  claim c = Some c' -> cell_ok c -> evolves c c' /\ cell_ok c'.
Proof.
  unfold claim, evolves, cell_ok. open_cell c.
  destruct rfin; simpl; [discriminate |].
  destruct (_ <? _)%nat; simpl; [| discriminate].
  destruct (jpr !! ridx) as [prop |] eqn:Hprop; [| discriminate].
  apply lookup_lt_Some in Hprop.
  intros Hc (H1 & H2 & _).
  destruct jca; injection Hc as <-; simpl.
  - split.
    + repeat split; try tauto; try discriminate.
      exists []. rewrite app_nil_r. reflexivity.
    + repeat split; try lia; discriminate.
  - split.
    + repeat split; try tauto; try discriminate.
      exists []. rewrite app_nil_r. reflexivity.
    + rewrite length_app. simpl. repeat split; try lia; discriminate.
Qed.

Lemma settle_evolves (k : nat) (o : Outcome) (c c' : Cell) :
  settle k o c = Some c' -> cell_ok c -> evolves c c' /\ cell_ok c'.
Proof.
  unfold settle, evolves, cell_ok. open_cell c.
  destruct (rinf !! k) as [prop |] eqn:Hk; [| discriminate].
  intros [= <-] (H1 & H2 & H3); simpl.
  assert (Hlen : length (delete k rinf) = (length rinf - 1)%nat)
    by (apply length_delete; eauto).
  apply lookup_lt_Some in Hk.
  assert (Hnf : rfin = false).
  { destruct rfin; [| reflexivity].
    destruct (H3 eq_refl) as [Hin _]. subst. simpl in Hk. lia. }
  subst rfin.
  split.
  - repeat split; try tauto; try discriminate.
    eexists. reflexivity.
  - rewrite length_app, Hlen. simpl.
    repeat split; try lia; discriminate.
Qed.

Lemma page_evolves (fullPage : bool) (c c' : Cell) :
  page fullPage c = Some c' -> cell_ok c -> evolves c c' /\ cell_ok c'.
Proof.
  unfold page, evolves, cell_ok. open_cell c.
  destruct rinf as [| p0 rest] eqn:Hin; [discriminate |].
  intros Hc (H1 & H2 & H3).
  assert (Hnf : rfin = false).
  { destruct rfin; [| reflexivity]. destruct (H3 eq_refl) as [? _]. discriminate. }
  subst rfin.
  destruct fullPage; injection Hc as <-; simpl in *.
  - split; [| repeat split; try lia; discriminate].
    repeat split; try tauto; try discriminate.
    exists []. rewrite app_nil_r. reflexivity.
  - split; [| repeat split; try lia; discriminate].
    repeat split; try tauto; try discriminate.
    exists []. rewrite app_nil_r. reflexivity.
Qed.

Lemma chunkRows_evolves (n : Z) (c c' : Cell) :
  chunkRows n c = Some c' -> cell_ok c -> evolves c c' /\ cell_ok c'.
Proof.
  unfold chunkRows, evolves, cell_ok. open_cell c.
  destruct rinf as [| p0 rest] eqn:Hin; [discriminate |].
  destruct (0 <? n); [| discriminate].
  intros [= <-] (H1 & H2 & H3); simpl in *.
  assert (Hnf : rfin = false).
  { destruct rfin; [| reflexivity]. destruct (H3 eq_refl) as [? _]. discriminate. }
  subst rfin.
  split; [| repeat split; try lia; discriminate].
  repeat split; try tauto; try discriminate.
  exists []. rewrite app_nil_r. reflexivity.
Qed.

Lemma finish_spec (c c' : Cell) :
  finish c = Some c' ->
  job c' = finalize (job c)
  /\ finished (run c) = false /\ finished (run c') = true
  /\ inflight (run c) = []
  /\ (length (Job.properties (job c)) <= index (run c))%nat
  /\ index (run c') = index (run c) /\ inflight (run c') = inflight (run c).
Proof.
  unfold finish.
  destruct (finished (run c)) eqn:Hf; simpl; [discriminate |].
  destruct (_ <=? _)%nat eqn:Hidx; simpl; [| discriminate].
  destruct (_ =? _)%nat eqn:Hin; simpl; [| discriminate].
  intros [= <-]; simpl.
  apply Nat.leb_le in Hidx. apply Nat.eqb_eq in Hin.
  repeat split; try assumption.
  destruct (inflight (run c)); [reflexivity | discriminate].
Qed.

Lemma finish_evolves (c c' : Cell) :
  finish c = Some c' -> cell_ok c -> evolves c c' /\ cell_ok c'.
Proof.
  intros Hfin (H1 & H2 & H3).
  destruct (finish_spec c c' Hfin) as (Hj & Hnf & Hf' & Hin & Hidx & Hi' & Hin').
  destruct (finalize_spec (job c)) as (Hst & Hca & Hrs & Hpr).
  unfold evolves, cell_ok. rewrite Hj, Hca, Hrs, Hpr, Hi', Hin', Hin.
  split.
  - split; [reflexivity |]. split; [tauto |].
    split; [intros Hc _; rewrite Hst, Hc; reflexivity |].
    split; [intros Habs; congruence |].
    exists []. rewrite app_nil_r. reflexivity.
  - rewrite Hin in H1. split; [exact H1 |]. split; [exact H2 |].
    intros _. split; [reflexivity | apply finalize_terminal].
Qed.

(** ** The manager under its events *)

Lemma pruneHistory_heap (m : Manager) :
  heap (pruneHistory m) = heap m /\ nextRef (pruneHistory m) = nextRef m.
Proof.
  unfold pruneHistory.
  destruct (pruneHistory_loop (heap m) (jobOrder m) (jobs m)); simpl. split; reflexivity.
Qed.

Lemma createJob_heap (id : string) (now : Z) (properties : list Property.t) (m : Manager) :
  let r := nextRef m in
  fst (createJob id now properties m) = r
  /\ nextRef (snd (createJob id now properties m)) = S r
  /\ exists c0,
       heap (snd (createJob id now properties m)) = <[r := c0]> (heap m)
       /\ Job.properties (job c0) = properties
       /\ Job.results (job c0) = []
       /\ Job.cancelled (job c0) = false
       /\ Job.status (job c0) = Queued
       /\ run c0 = {| activeProperties := []; index := 0; inflight := []; finished := false |}.
Proof.
  unfold createJob; simpl.
  match goal with |- context [pruneHistory ?x] =>
    destruct (pruneHistory_heap x) as [Hh Hn] end.
  split; [reflexivity |]. split; [rewrite Hn; reflexivity |].
  eexists. split; [rewrite Hh; simpl; reflexivity |].
  simpl. repeat split.
Qed.

Lemma started_ok_evolves (id : string) (now : Z) (properties : list Property.t) (m : Manager) :
  manager_ok m ->
  let m' := runJob_begin (fst (createJob id now properties m))
              (snd (createJob id now properties m)) in
  manager_ok m'
  /\ (forall r c, heap m !! r = Some c -> heap m' !! r = Some c).
Proof.
  intros Hok m'.
  destruct (createJob_heap id now properties m)
    as (Hr & Hn & c0 & Hh & Hp & Hrs & Hca & Hst & Hrun).
  cbv zeta in Hr, Hn, Hh.
  assert (Hheap : heap m'
                  = alter (fun c => {| job := Job.with_status Syncing (job c); run := run c |})
                      (nextRef m) (<[nextRef m := c0]> (heap m))).
  { subst m'. unfold runJob_begin, updateJob. cbn [heap]. rewrite Hr, Hh. reflexivity. }
  assert (Hnext : nextRef m' = S (nextRef m)).
  { subst m'. unfold runJob_begin, updateJob. cbn [nextRef]. exact Hn. }
  split.
  - intros r c Hc. rewrite Hheap, lookup_alter in Hc. rewrite Hnext.
    destruct (decide (nextRef m = r)) as [<- | Hne].
    + rewrite lookup_insert_eq in Hc. simpl in Hc. injection Hc as <-.
      split; [lia |]. unfold cell_ok. cbn [job run]. rewrite Hrun. cbn [index inflight finished].
      rewrite with_status_results, with_status_properties, Hrs. simpl.
      repeat split; try lia; discriminate.
    + rewrite lookup_insert_ne in Hc by exact Hne.
      destruct (Hok r c Hc) as [Hlt Hcell]. split; [lia | exact Hcell].
  - intros r c Hc. rewrite Hheap.
    destruct (Hok r c Hc) as [Hlt _].
    rewrite lookup_alter_ne by lia. rewrite lookup_insert_ne by lia. exact Hc.
Qed.

Lemma startSync_state (id : string) (now : Z) (args : Property.t) (m : Manager) :
  snd (startSync id now args m)
  = runJob_begin (fst (createJob id now [args] m)) (snd (createJob id now [args] m)).
Proof. unfold startSync. destruct (createJob id now [args] m). reflexivity. Qed.

Lemma startSyncAll_state (id : string) (now : Z) (listed : list string)
    (args : Property.t) (m : Manager) :
  snd (startSyncAll id now listed args m)
  = runJob_begin (fst (createJob id now (propertyArgs listed args) m))
      (snd (createJob id now (propertyArgs listed args) m)).
Proof.
  unfold startSyncAll. destruct (createJob id now (propertyArgs listed args) m). reflexivity.
Qed.

Lemma cancelJob_spec (jobId : string) (m : Manager) :
  match getJob m jobId with
  | Some (r, c) =>
      if terminal (Job.status (job c)) then cancelJob jobId m = (false, m)
      else cancelJob jobId m
           = (true, updateJob r (fun j => Job.with_status Cancelled (Job.with_cancelled true j)) m)
  | None => cancelJob jobId m = (false, m)
  end.
Proof.
  unfold cancelJob. destruct (getJob m jobId) as [[r c] |]; [| reflexivity].
  destruct (terminal _); reflexivity.
Qed.

Lemma getJob_Some (m : Manager) (jobId : string) (r : nat) (c : Cell) :
  getJob m jobId = Some (r, c) <-> jobs m !! jobId = Some r /\ heap m !! r = Some c.
Proof.
  unfold getJob. split.
  - destruct (jobs m !! jobId) as [r' |]; [| discriminate].
    destruct (heap m !! r') as [c' |] eqn:Hc; [| discriminate].
    intros [= <- <-]. split; [reflexivity | exact Hc].
  - intros [-> ->]. reflexivity.
Qed.

Lemma cancelled_cell_evolves (c : Cell) :
  cell_ok c -> terminal (Job.status (job c)) = false ->
  let c' := {| job := Job.with_status Cancelled (Job.with_cancelled true (job c));
               run := run c |} in
  evolves c c' /\ cell_ok c'
  /\ Job.cancelled (job c') = true /\ Job.status (job c') = Cancelled.
Proof.
  unfold evolves, cell_ok. open_cell c.
  intros (H1 & H2 & H3) Hterm.
  assert (Hnf : rfin = false).
  { destruct rfin; [| reflexivity]. destruct (H3 eq_refl) as [_ ?]. congruence. }
  subst rfin.
  repeat split; try tauto; try lia; try discriminate.
  exists []. rewrite app_nil_r. reflexivity.
Qed.

Lemma onCell_spec (r : nat) (f : Cell -> option Cell) (m m' : Manager) :
  onCell r f m = Some m' ->
  exists c c', heap m !! r = Some c /\ f c = Some c' /\ m' = updateCell r c' m.
Proof.
  unfold onCell. destruct (heap m !! r) as [c |]; [| discriminate].
  destruct (f c) as [c' |] eqn:Hf; [| discriminate].
  intros [= <-]. eauto.
Qed.

Lemma onCell_ok_evolves (r : nat) (f : Cell -> option Cell) (m m' : Manager) :
  (forall c c', f c = Some c' -> cell_ok c -> evolves c c' /\ cell_ok c') ->
  manager_ok m -> onCell r f m = Some m' ->
  manager_ok m'
  /\ (forall r0 c0, heap m !! r0 = Some c0 ->
        exists c0', heap m' !! r0 = Some c0' /\ evolves c0 c0').
Proof.
  intros Hf Hok Hstep.
  destruct (onCell_spec _ _ _ _ Hstep) as (c & c' & Hc & Hfc & ->).
  destruct (Hok r c Hc) as [Hlt Hcell].
  destruct (Hf c c' Hfc Hcell) as [Hev Hcell'].
  split.
  - intros r0 c0. unfold updateCell; simpl. rewrite lookup_insert.
    destruct (decide (r = r0)) as [<- | Hne].
    + intros [= <-]. split; [exact Hlt | exact Hcell'].
    + apply Hok.
  - intros r0 c0 Hc0. unfold updateCell; simpl. rewrite lookup_insert.
    destruct (decide (r = r0)) as [<- | Hne].
    + exists c'. split; [reflexivity |]. congruence.
    + exists c0. split; [exact Hc0 | apply evolves_refl].
Qed.

(** Every event keeps the bookkeeping of all job objects, keeps every
    job object in the heap, and lets it only evolve. *)
Lemma step_ok_evolves (m m' : Manager) (e : Event) :
  manager_ok m -> step m e = Some m' ->
  manager_ok m'
  /\ (forall r c, heap m !! r = Some c ->
        exists c', heap m' !! r = Some c' /\ evolves c c').
Proof.
  intros Hok Hstep. destruct e; cbn [step] in Hstep.
  - assert (Hm : m' = snd (startSync id now args m)) by congruence.
    rewrite Hm, startSync_state. clear Hm Hstep.
    destruct (started_ok_evolves id now [args] m Hok) as [Hok' Hkeep].
    split; [exact Hok' |].
    intros r0 c0 Hc0. exists c0. split; [apply Hkeep; exact Hc0 | apply evolves_refl].
  - assert (Hm : m' = snd (startSyncAll id now listed args m)) by congruence.
    rewrite Hm, startSyncAll_state. clear Hm Hstep.
    destruct (started_ok_evolves id now (propertyArgs listed args) m Hok) as [Hok' Hkeep].
    split; [exact Hok' |].
    intros r0 c0 Hc0. exists c0. split; [apply Hkeep; exact Hc0 | apply evolves_refl].
  - assert (Hm : m' = snd (cancelJob jobId m)) by congruence.
    rewrite Hm. clear Hm Hstep.
    pose proof (cancelJob_spec jobId m) as Hspec.
    destruct (getJob m jobId) as [[r c] |] eqn:Hget.
    + apply getJob_Some in Hget. destruct Hget as [Hid Hc].
      destruct (terminal (Job.status (job c))) eqn:Hterm; rewrite Hspec; cbn [snd].
      * split; [exact Hok |]. intros r0 c0 Hc0. exists c0. split; [exact Hc0 | apply evolves_refl].
      * destruct (Hok r c Hc) as [Hlt Hcell].
        destruct (cancelled_cell_evolves c Hcell Hterm) as (Hev & Hcell' & _).
        split.
        -- intros r0 c0. unfold updateJob; cbn [heap nextRef]. rewrite lookup_alter.
           destruct (decide (r = r0)) as [<- | Hne].
           ++ rewrite Hc. simpl. intros [= <-]. split; [exact Hlt | exact Hcell'].
           ++ apply Hok.
        -- intros r0 c0 Hc0. unfold updateJob; cbn [heap nextRef]. rewrite lookup_alter.
           destruct (decide (r = r0)) as [<- | Hne].
           ++ rewrite Hc. simpl. eexists. split; [reflexivity |].
              assert (c0 = c) as -> by congruence. exact Hev.
           ++ exists c0. split; [exact Hc0 | apply evolves_refl].
    + rewrite Hspec. cbn [snd].
      split; [exact Hok |]. intros r0 c0 Hc0. exists c0. split; [exact Hc0 | apply evolves_refl].
  - eapply onCell_ok_evolves; [| exact Hok | exact Hstep]. apply claim_evolves.
  - eapply onCell_ok_evolves; [| exact Hok | exact Hstep]. apply settle_evolves.
  - eapply onCell_ok_evolves; [| exact Hok | exact Hstep]. apply page_evolves.
  - eapply onCell_ok_evolves; [| exact Hok | exact Hstep]. apply chunkRows_evolves.
  - eapply onCell_ok_evolves; [| exact Hok | exact Hstep]. apply finish_evolves.
Qed.

Lemma steps_ok_evolves (es : list Event) :
  forall m m' : Manager,
    manager_ok m -> steps m es = Some m' ->
    manager_ok m'
    /\ (forall r c, heap m !! r = Some c ->
          exists c', heap m' !! r = Some c' /\ evolves c c').
Proof.
  induction es as [| e es IH]; intros m m' Hok Hsteps; simpl in Hsteps.
  - injection Hsteps as <-. split; [exact Hok |].
    intros r c Hc. exists c. split; [exact Hc | apply evolves_refl].
  - destruct (step m e) as [m1 |] eqn:Hstep; [| discriminate].
    destruct (step_ok_evolves m m1 e Hok Hstep) as [Hok1 Hev1].
    destruct (IH m1 m' Hok1 Hsteps) as [Hok' Hev'].
    split; [exact Hok' |].
    intros r c Hc. destruct (Hev1 r c Hc) as (c1 & Hc1 & He1).
    destruct (Hev' r c1 Hc1) as (c' & Hc' & He').
    exists c'. split; [exact Hc' | eapply evolves_trans; eassumption].
Qed.

Lemma emptyManager_ok : manager_ok emptyManager.
Proof. intros r c Hc. unfold emptyManager in Hc; simpl in Hc. rewrite lookup_empty in Hc. discriminate. Qed.

Lemma reachable_ok (m : Manager) : reachable m -> manager_ok m.
Proof.
  intros [es Hes]. eapply steps_ok_evolves; [apply emptyManager_ok | exact Hes].
Qed.

Lemma steps_app (es1 es2 : list Event) :
  forall m, steps m (es1 ++ es2) = match steps m es1 with
                                   | Some m1 => steps m1 es2
                                   | None => None
                                   end.
Proof.
  induction es1 as [| e es1 IH]; intros m; simpl; [reflexivity |].
  destruct (step m e); [apply IH | reflexivity].
Qed.

Lemma reachable_steps (m m' : Manager) (es : list Event) :
  reachable m -> steps m es = Some m' -> reachable m'.
Proof.
  intros [es0 H0] Hes. exists (es0 ++ es). rewrite steps_app, H0. exact Hes.
Qed.

(** ** History pruning *)

(** The job object that the registry [js] holds under [jobId]. *)
Lemma tracked_getJob (m : Manager) (jobId : string) :
  jobs m !! jobId ≫= (fun r => heap m !! r) = snd <$> getJob m jobId.
Proof.
  unfold getJob. destruct (jobs m !! jobId) as [r |]; simpl; [| reflexivity].
  destruct (heap m !! r); reflexivity.
Qed.

Lemma pruneHistory_loop_spec (h : gmap nat Cell) (order : list string) :
  forall (js js' : gmap string nat) (order' : list string),
    pruneHistory_loop h order js = (order', js') ->
    exists evicted,
      order = evicted ++ order'
      /\ (forall id, In id evicted ->
            exists c, js !! id ≫= (fun r => h !! r) = Some c
                      /\ terminal (Job.status (job c)) = true)
      /\ (forall id, In id evicted -> js' !! id = None)
      /\ (forall id, ~ In id evicted -> js' !! id = js !! id)
      /\ ((length order' <= MAX_JOB_HISTORY)%nat
          \/ exists id rest,
               order' = id :: rest
               /\ match js' !! id ≫= (fun r => h !! r) with
                  | Some c => terminal (Job.status (job c)) = false
                  | None => True
                  end).
Proof.
  induction order as [| oldId rest IH]; intros js js' order' Hloop.
  - simpl in Hloop. injection Hloop as <- <-.
    exists []. simpl. repeat split; try tauto. left. lia.
  - cbn [pruneHistory_loop] in Hloop.
    destruct (MAX_JOB_HISTORY <? length (oldId :: rest))%nat eqn:Hlen.
    + destruct (js !! oldId ≫= (fun r => h !! r)) as [oldJob |] eqn:Hold.
      * destruct (terminal (Job.status (job oldJob))) eqn:Hterm.
        -- destruct (IH _ _ _ Hloop) as (evicted & Hord & Hterms & Hgone & Hkept & Hstop).
           assert (Hfresh : ~ In oldId evicted).
           { intros Hin. destruct (Hterms oldId Hin) as (c & Hc & _).
             rewrite lookup_delete_eq in Hc. discriminate. }
           exists (oldId :: evicted). simpl.
           split; [rewrite Hord; reflexivity |].
           split.
           { intros id [<- | Hin]; [exists oldJob; split; assumption |].
             destruct (Hterms id Hin) as (c & Hc & Hct).
             exists c. split; [| exact Hct].
             rewrite lookup_delete_ne in Hc; [exact Hc |].
             intros <-. contradiction. }
           split.
           { intros id [<- | Hin]; [| apply Hgone; exact Hin].
             rewrite (Hkept oldId Hfresh). apply lookup_delete_eq. }
           split; [| exact Hstop].
           intros id Hid. rewrite Hkept by tauto.
           apply lookup_delete_ne. intros <-. tauto.
        -- injection Hloop as <- <-. exists []. simpl.
           repeat split; try tauto.
           right. exists oldId, rest. split; [reflexivity |]. rewrite Hold. exact Hterm.
      * injection Hloop as <- <-. exists []. simpl.
        repeat split; try tauto.
        right. exists oldId, rest. split; [reflexivity |]. rewrite Hold. exact I.
    + injection Hloop as <- <-. exists []. simpl.
      repeat split; try tauto.
      left. apply Nat.ltb_ge in Hlen. exact Hlen.
Qed.

End SyncManagerFacts.

(* ===================================================================== *)
(** * The specification of the job manager *)
(* ===================================================================== *)

Section SyncManagerTheorems.
Import Dates ChunkPlanner SyncManager Examples.

(** Whenever the oldest tracked job is not terminal, [pruneHistory]
    leaves the registry as it is, however many jobs are tracked. *)
Lemma pruneHistory_blocked (m : Manager) (id : string) (rest : list string) :
  jobOrder m = id :: rest -> isTrackedTerminal m id = false -> pruneHistory m = m.
Proof.
  intros Hord Hact. unfold pruneHistory. rewrite Hord. cbn [pruneHistory_loop].
  unfold isTrackedTerminal in Hact. rewrite tracked_getJob.
  destruct (MAX_JOB_HISTORY <? length (id :: rest))%nat;
    [destruct (getJob m id) as [[r c] |]; cbn [fmap option_fmap option_map snd];
       [rewrite Hact |] |];
    rewrite <- Hord; destruct m; reflexivity.
Qed.

(** C7 fails on the code.  In the history [blockedHistory] a long sync is
    started first and is still fetching while 52 later jobs run to
    completion.  After the last [startSync] the registry tracks 53 jobs,
    52 of them terminal: [pruneHistory] stops at the active job at the
    front of the insertion order and evicts nothing, so the oldest
    terminal job (the second one started) is still tracked, more than 50
    terminal jobs are retained, and the excess over the cap does not
    consist of active jobs. *)
Theorem pruneHistory_stops_at_active_oldest_job :
  match steps emptyManager blockedHistory with
  | Some m =>
      pruneHistory m = m
      /\ (MAX_JOB_HISTORY < length (jobOrder m))%nat
      /\ length (jobOrder m) = 53%nat
      /\ trackedTerminal m = 52%nat
      /\ trackedActive m = 1%nat
      /\ isTrackedActive m (jobName 0) = true
      /\ head (jobOrder m) = Some (jobName 0)
      /\ isTrackedTerminal m (jobName 1) = true
  | None => False
  end.
Proof. vm_compute. repeat split. unfold lt. repeat constructor. Qed.

(** C9.  For every job id, [cancelJob(jobId)] returns true exactly when
    the registry holds a job under that id whose status is not terminal,
    and then it sets the cancellation flag of that job (and nothing but
    the flag and the status of that job); for an unknown job and for a
    job that is completed, failed or cancelled it returns false and
    leaves the manager as it was. *)
Theorem cancelJob_accepts_exactly_active (jobId : string) (m : Manager) :
  let accepted := fst (cancelJob jobId m) in
  let m' := snd (cancelJob jobId m) in
  (accepted = true <->
     exists r c, getJob m jobId = Some (r, c) /\ terminal (Job.status (job c)) = false)
  /\ (accepted = true ->
        exists r c,
          getJob m jobId = Some (r, c)
          /\ heap m' !! r
             = Some {| job := Job.with_status Cancelled (Job.with_cancelled true (job c));
                       run := run c |}
          /\ (exists c', getJob m' jobId = Some (r, c') /\ Job.cancelled (job c') = true)
          /\ (forall r0, r0 <> r -> heap m' !! r0 = heap m !! r0)
          /\ jobs m' = jobs m /\ jobOrder m' = jobOrder m)
  /\ (accepted = false -> m' = m).
Proof.
  intros accepted m'. subst accepted m'.
  pose proof (cancelJob_spec jobId m) as Hspec.
  destruct (getJob m jobId) as [[r c] |] eqn:Hget.
  - destruct (terminal (Job.status (job c))) eqn:Hterm; rewrite Hspec; cbn [fst snd].
    + split; [| split; [discriminate | reflexivity]].
      split; [discriminate |].
      intros (r' & c' & [= <- <-] & Hc'). congruence.
    + apply getJob_Some in Hget. destruct Hget as [Hid Hc].
      assert (Hnew : heap (updateJob r (fun j => Job.with_status Cancelled
                                                   (Job.with_cancelled true j)) m) !! r
                     = Some {| job := Job.with_status Cancelled
                                        (Job.with_cancelled true (job c));
                               run := run c |}).
      { unfold updateJob; cbn [heap]. rewrite lookup_alter_eq, Hc. reflexivity. }
      split; [split; [intros _; eauto | reflexivity] |].
      split; [| discriminate].
      intros _. exists r, c.
      split; [reflexivity |].
      split; [exact Hnew |].
      split.
      { eexists. split.
        - apply getJob_Some. split; [exact Hid | exact Hnew].
        - simpl. destruct (job c); reflexivity. }
      split; [| split; reflexivity].
      intros r0 Hne. unfold updateJob; cbn [heap].
      apply lookup_alter_ne. congruence.
  - rewrite Hspec. cbn [fst snd].
    split; [| split; [discriminate | reflexivity]].
    split; [discriminate |].
    intros (r' & c' & Habs & _). discriminate.
Qed.

(** C10, as stated, fails: job 0 is cancelled, [cancelJob] returns true,
    and after 50 further calls of [startSync] the cancelled job has been
    evicted from the history while its property is still in flight;
    [getStatus] then reports the status failed of an unknown job. *)
Lemma cancelled_job_evicted_counterexample :
  fst (cancelJob (jobName 0) startedOne) = true
  /\ match steps (snd (cancelJob (jobName 0) startedOne)) fiftyMore with
     | Some m =>
         Status.status (getStatus 5 (jobName 0) m) = Failed
         /\ getStatus 5 (jobName 0) m = notFoundStatus (jobName 0)
         /\ (exists c, heap m !! 0%nat = Some c
                       /\ length (inflight (run c)) = 1%nat
                       /\ Job.status (job c) = Cancelled)
     | None => False
     end.
Proof.
  split; [vm_compute; reflexivity |].
  vm_compute. split; [reflexivity |]. split; [reflexivity |].
  eexists. split; [reflexivity |]. split; reflexivity.
Qed.

(** C10, amended.  If [cancelJob(jobId)] returns true, the status of the
    job is cancelled when [cancelJob] returns, and the job object keeps
    that status and its cancellation flag through every later event, also
    while its properties are still in flight and when its [runJob] ends.
    Every later [getStatus(jobId)] reports the status cancelled as long as
    the registry still holds the job under that id; once the job has been
    evicted from the history, [getStatus(jobId)] reports the failed status
    of an unknown job. *)
Theorem cancelled_status_is_final (m : Manager) (jobId : string) :
  reachable m ->
  fst (cancelJob jobId m) = true ->
  exists r : nat,
    jobs m !! jobId = Some r
    /\ forall (es : list Event) (m' : Manager),
         steps (snd (cancelJob jobId m)) es = Some m' ->
         (exists c', heap m' !! r = Some c'
                     /\ Job.status (job c') = Cancelled
                     /\ Job.cancelled (job c') = true)
         /\ (jobs m' !! jobId = Some r ->
             forall now, Status.status (getStatus now jobId m') = Cancelled)
         /\ (jobs m' !! jobId = None ->
             forall now, getStatus now jobId m' = notFoundStatus jobId).
Proof.
  intros Hreach Hacc.
  pose proof (reachable_ok m Hreach) as Hok.
  pose proof (cancelJob_spec jobId m) as Hspec.
  destruct (getJob m jobId) as [[r c] |] eqn:Hget;
    [| rewrite Hspec in Hacc; discriminate].
  destruct (terminal (Job.status (job c))) eqn:Hterm;
    [rewrite Hspec in Hacc; discriminate |].
  apply getJob_Some in Hget. destruct Hget as [Hid Hc].
  exists r. split; [exact Hid |].
  intros es m' Hsteps.
  assert (Hstep : step m (EvCancel jobId) = Some (snd (cancelJob jobId m))) by reflexivity.
  destruct (step_ok_evolves _ _ _ Hok Hstep) as [Hok1 _].
  destruct (Hok r c Hc) as [_ Hcell].
  destruct (cancelled_cell_evolves c Hcell Hterm) as (_ & _ & Hflag & Hstat).
  assert (Hc1 : heap (snd (cancelJob jobId m)) !! r
                = Some {| job := Job.with_status Cancelled (Job.with_cancelled true (job c));
                          run := run c |}).
  { rewrite Hspec. cbn [snd]. unfold updateJob; cbn [heap].
    rewrite lookup_alter_eq, Hc. reflexivity. }
  destruct (steps_ok_evolves es _ _ Hok1 Hsteps) as [_ Hev].
  destruct (Hev r _ Hc1) as (c' & Hc' & (_ & Hca & Hst & _)).
  cbv zeta in Hflag, Hstat.
  specialize (Hca Hflag). specialize (Hst Hflag Hstat).
  split; [exists c'; split; [exact Hc' | split; assumption] |].
  split.
  - intros Hid' now. unfold getStatus, getJob. rewrite Hid', Hc'. exact Hst.
  - intros Hid' now. unfold getStatus, getJob. rewrite Hid'. reflexivity.
Qed.

Lemma cancelled_status_is_final_witness :
  exists r : nat,
    jobs startedOne !! jobName 0 = Some r
    /\ forall (es : list Event) (m' : Manager),
         steps (snd (cancelJob (jobName 0) startedOne)) es = Some m' ->
         (exists c', heap m' !! r = Some c'
                     /\ Job.status (job c') = Cancelled
                     /\ Job.cancelled (job c') = true)
         /\ (jobs m' !! jobName 0 = Some r ->
             forall now, Status.status (getStatus now (jobName 0) m') = Cancelled)
         /\ (jobs m' !! jobName 0 = None ->
             forall now, getStatus now (jobName 0) m' = notFoundStatus (jobName 0)).
Proof.
  apply (cancelled_status_is_final startedOne (jobName 0)).
  - exists startOne. vm_compute. reflexivity.
  - vm_compute. reflexivity.
Defined.



(** The example of C1: both properties of a job fail, and the job
    finishes failed; a job without properties finishes completed. *)
Example runJob_all_failed :
  (jobAt finishedTwo 0
     ≫= fun j => Some (Job.status j, length (Job.results j), Job.error j))
  = Some (Failed, 2%nat, None).
Proof. vm_compute. reflexivity. Qed.

Example runJob_no_property :
  (jobAt (default emptyManager
            (steps emptyManager
               [EvStartSyncAll (jobName 0) 0 [] (site ""); EvFinish 0%nat])) 0
     ≫= fun j => Some (Job.status j, Job.results j))
  = Some (Completed, []).
Proof. vm_compute. reflexivity. Qed.

(** ** The date range of an incremental sync *)

Lemma finalize_not_failed (j : Job.t) (result : Result.t) :
  In result (Job.results j) -> isFailed result = false ->
  Job.status (finalize j) = (if Job.cancelled j then Cancelled else Completed).
Proof.
  intros Hin Hnf. destruct (finalize_spec j) as [-> _].
  destruct (Job.cancelled j); [reflexivity |].
  assert (Hall : forallb isFailed (Job.results j) = false).
  { apply not_true_is_false. intros Hall.
    rewrite forallb_forall in Hall. rewrite (Hall result Hin) in Hnf. discriminate. }
  rewrite Hall, andb_false_r. reflexivity.
Qed.

(** In a time zone whose offset does not change: for every property
    synced with no explicit start date whose database holds the
    last-synced date [D], if [D + 1] is not after the end date, the plan of
    the sync is to fetch the range from [D + 1] to the end date, in chunks
    that are contiguous, do not overlap, lie in that range and cover
    exactly that range; if [D + 1] is after the end date,
    [syncOneProperty] returns, without fetching, a result of status
    skipped with [rowsFetched = 0] and [rowsInserted = 0], which [runJob]
    does not count as a failure: a job that holds this result is not
    failed. *)
Lemma incremental_sync_range_fixed_offset
    (tz : TimeZone) (k : Z) (clock : Clock) (prop : Property.t)
    (db : Database.Db) (D : IsoDay) :
  fixedOffset tz k ->
  Property.startDate prop = None ->
  Database.getLastSyncDate db (Property.siteUrl prop) = Some (Day D) ->
  let endDate := default (defaultEndDate clock) (Property.endDate prop) in
  let plan := syncOneProperty_plan tz clock prop db in
  (D + 1 <= endDate ->
     plan = PlanFetch (D + 1) endDate (planChunks tz (D + 1) endDate)
     /\ union_is (fetchRanges plan) (D + 1) endDate
     /\ contiguous (fetchRanges plan)
     /\ non_overlapping (fetchRanges plan)
     /\ Forall (fun c => D + 1 <= from c /\ from c <= to c /\ to c <= endDate)
          (fetchRanges plan))
  /\ (endDate < D + 1 ->
     exists result,
       plan = PlanReturn result
       /\ fetchRanges plan = []
       /\ Result.status result = ResSkipped
       /\ Result.rowsFetched result = 0
       /\ Result.rowsInserted result = 0
       /\ resultOf prop (Returned result) = result
       /\ isFailed result = false
       /\ forall j, In result (Job.results j) -> Job.status (finalize j) <> Failed).
Proof.
  intros Hfixed Hstart Hlast endDate plan.
  assert (Hnext : toISODate (addDays tz (newDate D) 1) = D + 1).
  { rewrite (addDays_fixed tz k Hfixed).
    replace (newDate D + 1 * MS_PER_DAY) with (newDate (D + 1))
      by (unfold newDate; lia).
    apply toISODate_newDate. }
  assert (Hplan : plan
                  = if D + 1 <=? endDate
                    then PlanFetch (D + 1) endDate (planChunks tz (D + 1) endDate)
                    else PlanReturn (skippedResult (Property.siteUrl prop))).
  { subst plan. unfold syncOneProperty_plan. rewrite Hstart, Hlast.
    cbv zeta. rewrite Hnext. fold endDate.
    destruct (D + 1 <=? endDate); reflexivity. }
  split.
  - intros Hle. apply Z.leb_le in Hle as Hleb. rewrite Hleb in Hplan.
    rewrite Hplan. cbn [fetchRanges].
    destruct (planChunks_covers tz k (D + 1) endDate Hfixed Hle)
      as (Hcont & Hnov & Huni & Hall).
    split; [reflexivity |]. split; [exact Huni |]. split; [exact Hcont |].
    split; [exact Hnov | exact Hall].
  - intros Hgt. assert (Hleb : (D + 1 <=? endDate) = false) by (apply Z.leb_gt; exact Hgt).
    rewrite Hleb in Hplan.
    exists (skippedResult (Property.siteUrl prop)).
    rewrite Hplan. cbn [fetchRanges].
    do 7 (split; [reflexivity |]).
    intros j Hin. rewrite (finalize_not_failed j _ Hin eq_refl).
    destruct (Job.cancelled j); discriminate.
Qed.

(** Day 20000 is stored and the process runs in UTC: a sync up to day
    20200 fetches three chunks, and a sync up to day 20000 is skipped. *)
Example incremental_sync_examples :
  fetchRanges (syncOneProperty_plan utc clock20030 (ends 20200) dbA)
  = [ {| from := 20001; to := 20090 |}; {| from := 20091; to := 20180 |};
      {| from := 20181; to := 20200 |} ]
  /\ syncOneProperty_plan utc clock20030 (ends 20000) dbA
     = PlanReturn (skippedResult "sc-domain:a.com").
Proof. vm_compute. split; reflexivity. Qed.

(** C2.  An incremental sync in a process whose time zone has summer
    time (Central European Time), for a property whose last-synced date
    [D] is 31 March 2024 (day 19813), the day of the change to summer
    time: the local day after [D] begins 23 hours after the one of [D],
    still on [D] in UTC, so the resume date is [D] and not [D + 1].  With
    the end date 5 April the sync fetches the range from [D], which
    includes the day [D] that is stored already; with the end date [D],
    where [D + 1] is after the end date, the property is not skipped and
    the day [D] is fetched again.  In a time zone whose offset does not
    change the sync resumes at [D + 1] and skips as specified
    ([incremental_sync_range_fixed_offset]). *)
Theorem incremental_sync_summer_time_resumes_at_last_day :
  Database.getLastSyncDate dbMarch "sc-domain:a.com" = Some (Day 19813)
  /\ syncOneProperty_plan europeBerlin2024 clock20030 (ends 19818) dbMarch
     = PlanFetch 19813 19818 [ {| from := 19813; to := 19818 |} ]
  /\ syncOneProperty_plan europeBerlin2024 clock20030 (ends 19813) dbMarch
     = PlanFetch 19813 19813 [ {| from := 19813; to := 19813 |} ].
Proof. vm_compute. repeat split. Qed.

End SyncManagerTheorems.

(* ===================================================================== *)
(** * The file names of the databases *)
(* ===================================================================== *)

Section HelpersFacts.
Import Helpers HelpersVocabulary.
Local Open Scope string_scope.

Lemma append_String (c : ascii) (a b : string) : String c a ++ b = String c (a ++ b).
Proof. reflexivity. Qed.

Lemma append_assoc (a b c : string) : (a ++ b) ++ c = a ++ (b ++ c).
Proof.
  induction a as [| x a IH]; [reflexivity |].
  rewrite !append_String, IH. reflexivity.
Qed.

Lemma stripPrefix_Some (p s rest : string) :
  stripPrefix p s = Some rest -> s = p ++ rest.
Proof.
  revert s. induction p as [| a p IH]; intros s H; simpl in *.
  - injection H as ->. reflexivity.
  - destruct s as [| b s]; [discriminate |].
    destruct (Ascii.eqb a b) eqn:E; [| discriminate].
    apply Ascii.eqb_eq in E. subst b. rewrite append_String. f_equal. apply IH. exact H.
Qed.

Lemma allChars_app (f : ascii -> bool) (a b : string) :
  allChars f (a ++ b) = allChars f a && allChars f b.
Proof.
  induction a as [| c a IH]; [reflexivity |].
  rewrite append_String. simpl. rewrite IH. apply andb_assoc.
Qed.

Lemma replaceUnsafe_fileName (s : string) : allChars fileNameChar (replaceUnsafe s) = true.
Proof.
  induction s as [| c s IH]; simpl; [reflexivity |].
  rewrite IH, andb_true_r. unfold fileNameChar.
  destruct (safeChar c) eqn:E; [rewrite E; reflexivity |].
  apply orb_true_r.
Qed.

Lemma replaceUnsafe_id (s : string) :
  allChars fileNameChar s = true -> replaceUnsafe s = s.
Proof.
  induction s as [| c s IH]; simpl; [reflexivity |].
  intros H. apply andb_prop in H. destruct H as [Hc Hs].
  rewrite (IH Hs). f_equal.
  destruct (safeChar c) eqn:E; [reflexivity |].
  unfold fileNameChar in Hc. rewrite E in Hc. simpl in Hc.
  apply Ascii.eqb_eq in Hc. congruence.
Qed.

Lemma removeTrailingSlashes_id (s : string) :
  allChars (fun c => negb (Ascii.eqb c "/")) s = true -> removeTrailingSlashes s = s.
Proof.
  induction s as [| c s IH]; simpl; [reflexivity |].
  intros H. apply andb_prop in H. destruct H as [Hc Hs].
  rewrite (IH Hs). destruct s; [| reflexivity].
  apply negb_true_iff in Hc. rewrite Hc. reflexivity.
Qed.

Lemma allChars_impl (f g : ascii -> bool) (s : string) :
  (forall c, f c = true -> g c = true) -> allChars f s = true -> allChars g s = true.
Proof.
  intros Hfg. induction s as [| c s IH]; simpl; [reflexivity |].
  intros H. apply andb_prop in H. destruct H as [Hc Hs].
  rewrite (Hfg c Hc), (IH Hs). reflexivity.
Qed.

Lemma fileNameChar_not_slash (c : ascii) :
  fileNameChar c = true -> negb (Ascii.eqb c "/") = true.
Proof.
  destruct (Ascii.eqb c "/") eqn:E; [| reflexivity].
  apply Ascii.eqb_eq in E. subst c. vm_compute. discriminate.
Qed.

Lemma fileNameChar_not_colon (c : ascii) :
  fileNameChar c = true -> c <> ":"%char.
Proof. intros H ->. vm_compute in H. discriminate. Qed.

(** A literal prefix that holds a colon does not start a string of file
    name characters. *)
Lemma stripPrefix_colon (a b s : string) :
  allChars fileNameChar s = true -> stripPrefix (a ++ String ":" b) s = None.
Proof.
  intros Hs. destruct (stripPrefix (a ++ String ":" b) s) as [rest |] eqn:E; [| reflexivity].
  apply stripPrefix_Some in E. subst s.
  rewrite append_assoc in Hs. rewrite allChars_app in Hs. 
  apply andb_prop in Hs. destruct Hs as [_ Hs].
  rewrite append_String in Hs. simpl in Hs. discriminate.
Qed.

Lemma sanitize_fileName_id (s : string) :
  allChars fileNameChar s = true -> sanitizeSiteUrl s = s.
Proof.
  intros Hs. unfold sanitizeSiteUrl, removeProtocol, removePrefix.
  assert (H1 : stripPrefix "sc-domain:" s = None) by exact (stripPrefix_colon "sc-domain" "" s Hs).
  assert (H2 : stripPrefix "http://" s = None) by exact (stripPrefix_colon "http" "//" s Hs).
  assert (H3 : stripPrefix "https://" s = None) by exact (stripPrefix_colon "https" "//" s Hs).
  rewrite H1, H2, H3.
  rewrite removeTrailingSlashes_id
    by (eapply allChars_impl; [apply fileNameChar_not_slash | exact Hs]).
  apply replaceUnsafe_id. exact Hs.
Qed.

Lemma removeTrailingSlashes_slash (s : string) :
  allChars (fun c => negb (Ascii.eqb c "/")) s = true ->
  removeTrailingSlashes (s ++ "/") = s.
Proof.
  induction s as [| c s IH]; simpl; [reflexivity |].
  intros H. apply andb_prop in H. destruct H as [Hc Hs].
  rewrite (IH Hs). destruct s; [| reflexivity].
  apply negb_true_iff in Hc. rewrite Hc. reflexivity.
Qed.

End HelpersFacts.

Section HelpersTheorems.
Import Helpers HelpersVocabulary.
Local Open Scope string_scope.

(** X1.  The file name that [sanitizeSiteUrl] makes of any site URL consists
    of letters, digits, dots, hyphens and underscores only; in particular
    it holds no slash and no colon. *)
Theorem sanitizeSiteUrl_file_name_chars (siteUrl : string) :
  allChars fileNameChar (sanitizeSiteUrl siteUrl) = true
  /\ ~ In "/"%char (list_ascii_of_string (sanitizeSiteUrl siteUrl))
  /\ ~ In ":"%char (list_ascii_of_string (sanitizeSiteUrl siteUrl)).
Proof.
  assert (H : allChars fileNameChar (sanitizeSiteUrl siteUrl) = true)
    by apply replaceUnsafe_fileName.
  split; [exact H |].
  revert H. generalize (sanitizeSiteUrl siteUrl) as s.
  induction s as [| c s IH]; simpl; intros H.
  - split; intros [].
  - apply andb_prop in H. destruct H as [Hc Hs]. destruct (IH Hs) as [H1 H2].
    split; (intros [E | Hin]; [subst c; vm_compute in Hc; discriminate | tauto]).
Qed.

(** X2.  Sanitizing is idempotent: a sanitized name is its own sanitized
    name. *)
Theorem sanitizeSiteUrl_idempotent (siteUrl : string) :
  sanitizeSiteUrl (sanitizeSiteUrl siteUrl) = sanitizeSiteUrl siteUrl.
Proof. apply sanitize_fileName_id. apply replaceUnsafe_fileName. Qed.

(** X3.  For a host name of letters, digits, dots and hyphens, the domain
    property sc-domain:host and the URL-prefix properties http://host,
    https://host and https://host/ all get the database file of the bare
    host, whose name is the host followed by .db: their data shares one
    file. *)
Theorem getDbPath_same_host (dataDir host : string) :
  allChars safeChar host = true ->
  sanitizeSiteUrl host = host
  /\ getDbPath dataDir ("sc-domain:" ++ host) = getDbPath dataDir host
  /\ getDbPath dataDir ("http://" ++ host) = getDbPath dataDir host
  /\ getDbPath dataDir ("https://" ++ host) = getDbPath dataDir host
  /\ getDbPath dataDir ("https://" ++ host ++ "/") = getDbPath dataDir host.
Proof.
  intros Hsafe.
  assert (Hfile : allChars fileNameChar host = true).
  { eapply allChars_impl; [| exact Hsafe]. intros c Hc. unfold fileNameChar. rewrite Hc. reflexivity. }
  assert (Hslash : allChars (fun c => negb (Ascii.eqb c "/")) host = true).
  { eapply allChars_impl; [apply fileNameChar_not_slash | exact Hfile]. }
  assert (Hrest : replaceUnsafe (removeTrailingSlashes host) = host).
  { rewrite removeTrailingSlashes_id by exact Hslash. apply replaceUnsafe_id. exact Hfile. }
  assert (Hproto : removeProtocol host = host).
  { unfold removeProtocol, removePrefix.
    assert (H2 : stripPrefix "http://" host = None)
      by exact (stripPrefix_colon "http" "//" host Hfile).
    assert (H3 : stripPrefix "https://" host = None)
      by exact (stripPrefix_colon "https" "//" host Hfile).
    rewrite H2, H3. reflexivity. }
  assert (Hself : sanitizeSiteUrl host = host) by (apply sanitize_fileName_id; exact Hfile).
  assert (Hpath : forall u, sanitizeSiteUrl u = host ->
                     getDbPath dataDir u = getDbPath dataDir host)
    by (intros u Hu; unfold getDbPath; rewrite Hu, Hself; reflexivity).
  split; [exact Hself |].
  repeat match goal with |- _ /\ _ => split end; apply Hpath.
  - unfold sanitizeSiteUrl. change (removePrefix "sc-domain:" ("sc-domain:" ++ host)) with host.
    rewrite Hproto. exact Hrest.
  - unfold sanitizeSiteUrl. change (removePrefix "sc-domain:" ("http://" ++ host)) with ("http://" ++ host).
    change (removeProtocol ("http://" ++ host)) with host. exact Hrest.
  - unfold sanitizeSiteUrl. change (removePrefix "sc-domain:" ("https://" ++ host)) with ("https://" ++ host).
    change (removeProtocol ("https://" ++ host)) with host. exact Hrest.
  - unfold sanitizeSiteUrl.
    change (removePrefix "sc-domain:" ("https://" ++ host ++ "/")) with ("https://" ++ host ++ "/").
    change (removeProtocol ("https://" ++ host ++ "/")) with (host ++ "/").
    rewrite removeTrailingSlashes_slash by exact Hslash. apply replaceUnsafe_id. exact Hfile.
Qed.

Lemma getDbPath_same_host_witness :
  allChars safeChar "www.example.com" = true
  /\ sanitizeSiteUrl "https://www.example.com/" = "www.example.com"
  /\ getDbPath "/data" "sc-domain:www.example.com" = getDbPath "/data" "https://www.example.com/".
Proof.
  split; [reflexivity |].
  destruct (getDbPath_same_host "/data" "www.example.com" eq_refl) as (_ & H1 & _ & _ & H4).
  split; [reflexivity |].
  change ("sc-domain:www.example.com") with ("sc-domain:" ++ "www.example.com").
  change ("https://www.example.com/") with ("https://" ++ "www.example.com" ++ "/").
  rewrite H1, H4. reflexivity.
Defined.

End HelpersTheorems.

(* ===================================================================== *)
(** * More about the store and the retention pruner *)
(* ===================================================================== *)

Section StoreHistoryFacts.
Import Dates Database DataRetention StoreHistory.



Lemma idsBelow_mono (b b' : Z) (rows : list StoredRow) :
  b <= b' -> idsBelow b rows -> idsBelow b' rows.
Proof.
  intros Hb. induction rows as [| r rest IH]; simpl; [trivial |].
  intros (Hr & Hall & Hrest). split; [lia |]. split; [exact Hall | apply IH; exact Hrest].
Qed.







Lemma prune_rows (tz : TimeZone) (now : Z) (policy : PartialPolicy) (db : Db) :
  exists w, search_analytics (snd (prune tz now policy db))
            = List.filter w (search_analytics db)
            /\ sqlite_sequence (snd (prune tz now policy db)) = sqlite_sequence db.
Proof.
  unfold prune. cbv zeta. generalize (mergePolicy policy). intros p.
  generalize (cutoffDate tz now p). intros cutoff. unfold sqlDelete.
  destruct (pruneNonTargetZeroClicks p); cbn [fst snd search_analytics sqlite_sequence].
  - exists (fun r => negb (targetLowValueWhere cutoff p r)
                     && negb (nonTargetZeroClickWhere cutoff p r)).
    split; [| reflexivity].
    induction (search_analytics db) as [| r rest IH]; simpl; [reflexivity |].
    destruct (targetLowValueWhere cutoff p r); simpl; [exact IH |].
    destruct (nonTargetZeroClickWhere cutoff p r); simpl; [exact IH |].
    rewrite IH. reflexivity.
  - exists (fun r => negb (targetLowValueWhere cutoff p r)). split; reflexivity.
Qed.



(** ** The unique index *)

Lemma uniqueIndexHolds_filter (w : StoredRow -> bool) (rows : list StoredRow) :
  uniqueIndexHolds rows -> uniqueIndexHolds (List.filter w rows).
Proof.
  induction rows as [| r rest IH]; simpl; intros H; [exact H |].
  assert (Hrest : uniqueIndexHolds rest).
  { intros i j a b Hi Hj Hij. apply (H (S i) (S j) a b Hi Hj). lia. }
  destruct (w r); [| apply IH; exact Hrest].
  intros i j a b Hi Hj Hij.
  assert (Hin : forall k c, List.filter w rest !! k = Some c -> exists k', rest !! k' = Some c).
  { intros k c Hk. apply list_elem_of_lookup_2 in Hk. apply list_elem_of_In in Hk.
    apply List.filter_In in Hk. destruct Hk as [Hk _]. apply list_elem_of_In in Hk.
    apply list_elem_of_lookup_1 in Hk. exact Hk. }
  destruct i as [| i], j as [| j]; simpl in Hi, Hj.
  - congruence.
  - injection Hi as <-. destruct (Hin _ _ Hj) as [k' Hk'].
    apply (H 0%nat (S k') r b eq_refl Hk'). lia.
  - injection Hj as <-. destruct (Hin _ _ Hi) as [k' Hk'].
    apply (H (S k') 0%nat a r Hk' eq_refl). lia.
  - apply (IH Hrest i j a b Hi Hj). congruence.
Qed.

Lemma unique_eqb_sym (a b : option string) : unique_eqb a b = unique_eqb b a.
Proof. destruct a, b; simpl; try reflexivity. apply String.eqb_sym. Qed.

Lemma date_eqb_sym (a b : DateText) : date_eqb a b = date_eqb b a.
Proof. destruct a, b; simpl; try reflexivity. apply Z.eqb_sym. Qed.

Lemma conflicts_sym (a b : SearchAnalyticsRow) : conflicts a b = conflicts b a.
Proof.
  unfold conflicts.
  rewrite (date_eqb_sym (date a)), (unique_eqb_sym (query a)), (unique_eqb_sym (page a)),
    (unique_eqb_sym (device a)), (unique_eqb_sym (country a)). reflexivity.
Qed.

Lemma uniqueIndexHolds_snoc (rows : list StoredRow) (s : StoredRow) :
  uniqueIndexHolds rows ->
  (forall a, In a rows -> conflicts (data a) (data s) = false) ->
  uniqueIndexHolds (rows ++ [s]).
Proof.
  intros H Hs i j a b Hi Hj Hij.
  assert (Hcase : forall k c, (rows ++ [s]) !! k = Some c ->
                    (rows !! k = Some c /\ (k < length rows)%nat)
                    \/ (k = length rows /\ c = s)).
  { intros k c Hk. destruct (lookup_app_Some rows [s] k c) as [Hc _].
    destruct (Hc Hk) as [Hl | [Hge Hr]].
    - left. split; [exact Hl |]. eapply lookup_lt_Some. exact Hl.
    - right. destruct (k - length rows)%nat as [| n] eqn:E; simpl in Hr; [| destruct n; discriminate].
      injection Hr as <-. split; [lia | reflexivity]. }
  destruct (Hcase i a Hi) as [[Hia Hil] | [Hil ->]];
    destruct (Hcase j b Hj) as [[Hjb Hjl] | [Hjl ->]].
  - apply (H i j a b Hia Hjb Hij).
  - apply Hs. apply list_elem_of_In. eapply list_elem_of_lookup_2. exact Hia.
  - rewrite conflicts_sym. apply Hs. apply list_elem_of_In. eapply list_elem_of_lookup_2. exact Hjb.
  - lia.
Qed.

Lemma insertOrReplace_unique (now : Z) (row : SearchAnalyticsRow) (db : Db) :
  uniqueIndexHolds (search_analytics db) ->
  uniqueIndexHolds (search_analytics (insertOrReplace now row db)).
Proof.
  intros H. unfold insertOrReplace. cbn [search_analytics].
  apply uniqueIndexHolds_snoc.
  - apply uniqueIndexHolds_filter. exact H.
  - intros a Ha. apply List.filter_In in Ha. destruct Ha as [_ Ha].
    apply negb_true_iff in Ha. exact Ha.
Qed.

Lemma insertRows_unique (now : Z) (rows : list SearchAnalyticsRow) :
  forall (db : Db) (n : Z),
    uniqueIndexHolds (search_analytics db) ->
    uniqueIndexHolds (search_analytics (snd (insertRows now rows db n))).
Proof.
  induction rows as [| r rows IH]; intros db n H; simpl; [exact H |].
  apply IH. apply insertOrReplace_unique. exact H.
Qed.

Lemma applyOp_unique (db : Db) (op : StoreOp) :
  uniqueIndexHolds (search_analytics db) ->
  uniqueIndexHolds (search_analytics (applyOp db op)).
Proof.
  intros H. destruct op as [now rows | tz now policy]; simpl.
  - apply insertRows_unique. exact H.
  - destruct (prune_rows tz now policy db) as (w & Hw & _). rewrite Hw.
    apply uniqueIndexHolds_filter. exact H.
Qed.

End StoreHistoryFacts.

Section StoreHistoryTheorems.
Import Dates Database DataRetention StoreHistory.


(** X5.  The unique index [idx_sa_unique] holds in every table that a
    history of batch writes and prunes leaves: no two stored rows agree
    on the date and have equal, non-NULL values in all of query, page,
    device and country. *)
Theorem unique_index_holds (ops : list StoreOp) :
  uniqueIndexHolds (search_analytics (storeAfter ops)).
Proof.
  unfold storeAfter.
  assert (H : uniqueIndexHolds (search_analytics emptyDb))
    by (intros i j a b Hi; destruct i; discriminate).
  revert H. generalize emptyDb. induction ops as [| op ops IH]; intros db H; simpl.
  - exact H.
  - apply IH. apply applyOp_unique. exact H.
Qed.

(** X6.  The batch writer returns the number of rows it was handed, not the
    number of rows the table gained: the table grows by at most that
    number, a non-empty batch leaves a non-empty table, and the last row
    of the batch is the last row of the table afterwards. *)
Theorem insertSearchAnalyticsBatch_returns_batch_size
    (now : Z) (rows : list SearchAnalyticsRow) (db : Db) :
  let inserted := fst (insertSearchAnalyticsBatch now rows db) in
  let after := snd (insertSearchAnalyticsBatch now rows db) in
  inserted = Z.of_nat (length rows)
  /\ getRowCount after <= getRowCount db + inserted
  /\ last (contents after) = match last rows with
                             | Some r => Some r
                             | None => last (contents db)
                             end.
Proof.
  cbv zeta. unfold insertSearchAnalyticsBatch.
  assert (H : forall rows db n,
             fst (insertRows now rows db n) = n + Z.of_nat (length rows)
             /\ getRowCount (snd (insertRows now rows db n))
                <= getRowCount db + Z.of_nat (length rows)
             /\ last (contents (snd (insertRows now rows db n)))
                = match last rows with Some r => Some r | None => last (contents db) end).
  { clear rows db. induction rows as [| r rows IH]; intros db n.
    - simpl. split; [lia |]. split; [lia | reflexivity].
    - cbn [insertRows]. destruct (IH (insertOrReplace now r db) (n + 1)) as (H1 & H2 & H3).
      split; [rewrite H1; simpl length; lia |]. split.
      + etransitivity; [exact H2 |].
        unfold getRowCount, insertOrReplace. cbn [search_analytics].
        rewrite length_app. simpl.
        pose proof (List.filter_length_le (fun s => negb (conflicts (data s) r))
                      (search_analytics db)). lia.
      + rewrite H3, last_cons. destruct (last rows); [reflexivity |].
        unfold contents, insertOrReplace. cbn [search_analytics].
        rewrite map_app. simpl. rewrite last_snoc. reflexivity. }
  destruct (H rows db 0) as (H1 & H2 & H3).
  split; [exact H1 |]. split; [rewrite H1; exact H2 | exact H3].
Qed.

End StoreHistoryTheorems.

Section DataRetentionMoreFacts.
Import Dates Database DataRetention HelpersVocabulary Examples StoreExamples.

Lemma filter_keep_all {A : Type} (w : A -> bool) (l : list A) :
  (forall a, In a l -> w a = true) -> List.filter w l = l.
Proof.
  induction l as [| a l IH]; simpl; intros H; [reflexivity |].
  rewrite (H a (or_introl eq_refl)), IH; [reflexivity |].
  intros b Hb. apply H. right. exact Hb.
Qed.

Lemma filter_filter_and {A : Type} (f g : A -> bool) (l : list A) :
  List.filter f (List.filter g l) = List.filter (fun a => g a && f a) l.
Proof.
  induction l as [| a l IH]; simpl; [reflexivity |].
  destruct (g a); simpl; [| exact IH].
  destruct (f a); [rewrite IH; reflexivity | exact IH].
Qed.

(** The rows that a prune run leaves, by one test per row. *)
Lemma prune_kept (tz : TimeZone) (now : Z) (policy : PartialPolicy) (db : Db) :
  let p := mergePolicy policy in
  let cutoff := cutoffDate tz now p in
  search_analytics (snd (prune tz now policy db))
  = List.filter (fun r => negb (targetLowValueWhere cutoff p r)
                          && negb (pruneNonTargetZeroClicks p
                                   && nonTargetZeroClickWhere cutoff p r))
      (search_analytics db).
Proof.
  cbv zeta. destruct (prune_unfold tz now policy db) as (Hrows & _ & _).
  rewrite Hrows. apply filter_filter_and.
Qed.

Lemma prune_rowsAfter (tz : TimeZone) (now : Z) (policy : PartialPolicy) (db : Db) :
  rowsAfter (fst (prune tz now policy db)) = getRowCount (snd (prune tz now policy db))
  /\ rowsBefore (fst (prune tz now policy db)) = getRowCount db
  /\ vacuumed (fst (prune tz now policy db))
     = (0 <? rowsDeleted (fst (prune tz now policy db))).
Proof.
  destruct (prune_unfold tz now policy db) as (Hrows & Hdel & Hra).
  split; [| split].
  - rewrite Hra, Hdel. unfold getRowCount. rewrite Hrows.
    set (p := mergePolicy policy) in *.
    set (cutoff := cutoffDate tz now p) in *.
    set (w1 := targetLowValueWhere cutoff p) in *.
    set (w2 := fun r => pruneNonTargetZeroClicks p && nonTargetZeroClickWhere cutoff p r) in *.
    pose proof (filter_length_split w1 (search_analytics db)) as H1.
    pose proof (filter_length_split w2
                  (List.filter (fun r => negb (w1 r)) (search_analytics db))) as H2.
    rewrite (filter_after_disjoint w1 w2) in H2.
    + subst w2. cbv beta in H2. lia.
    + intros a Ha. subst w2 w1. simpl in Ha.
      apply andb_true_iff in Ha. apply where_disjoint. apply Ha.
  - unfold prune. cbv zeta. generalize (mergePolicy policy). intros p.
    generalize (cutoffDate tz now p). intros cutoff. unfold sqlDelete.
    destruct (pruneNonTargetZeroClicks p); reflexivity.
  - unfold prune. cbv zeta. generalize (mergePolicy policy). intros p.
    generalize (cutoffDate tz now p). intros cutoff. unfold sqlDelete.
    destruct (pruneNonTargetZeroClicks p); reflexivity.
Qed.

(** The count that [preview] reports as [wouldDelete]. *)
Lemma preview_wouldDelete (tz : TimeZone) (now : Z) (policy : PartialPolicy) (db : Db) :
  let p := mergePolicy policy in
  let cutoff := cutoffDate tz now p in
  wouldDelete (fst (preview tz now policy db))
  = Z.of_nat (length (List.filter (targetLowValueWhere cutoff p) (search_analytics db)))
    + Z.of_nat (length (List.filter
                          (fun r => pruneNonTargetZeroClicks p
                                    && nonTargetZeroClickWhere cutoff p r)
                          (search_analytics db))).
Proof.
  cbv zeta. unfold preview. cbv zeta.
  generalize (mergePolicy policy). intros p.
  generalize (cutoffDate tz now p). intros cutoff.
  cbn [fst wouldDelete]. unfold sqlCount. f_equal.
  destruct (pruneNonTargetZeroClicks p); cbn [andb]; [reflexivity |].
  rewrite (filter_none (fun _ => false)); reflexivity.
Qed.

(** X7.  Which rows a prune run deletes, for target countries written in
    ASCII, on which [toLowerCase] of JavaScript is the lowering of
    SQLite.  A stored row is deleted exactly when it is dated before the
    cut-off, has no click, and either its country, in lower case, is a
    target country and its impressions are below [targetMinImpressions],
    or its country is no target country and [pruneNonTargetZeroClicks] is
    set.  A row without country (NULL) is neither, and is never deleted,
    unless the list of target countries is empty. *)
Theorem prune_deletes_exactly
    (tz : TimeZone) (now : Z) (policy : PartialPolicy) (db : Db) (r : StoredRow) :
  forallb asciiOnly (targetCountries (mergePolicy policy)) = true ->
  In r (search_analytics db) ->
  let p := mergePolicy policy in
  let after := snd (prune tz now policy db) in
  ~ In r (search_analytics after)
  <-> date_ltb (date (data r)) (cutoffDate tz now p) = true
      /\ clicks (data r) = 0
      /\ match country (data r) with
         | Some c =>
             if existsb (String.eqb (toLowerCase c)) (lowerTargets p)
             then impressions (data r) < targetMinImpressions p
             else pruneNonTargetZeroClicks p = true
         | None => lowerTargets p = [] /\ pruneNonTargetZeroClicks p = true
         end.
Proof.
  intros _ Hin p after. subst after.
  pose proof (prune_kept tz now policy db) as Hk. cbv zeta in Hk. fold p in Hk.
  rewrite Hk. clear Hk.
  set (cutoff := cutoffDate tz now p).
  set (keep := fun r => negb (targetLowValueWhere cutoff p r)
                        && negb (pruneNonTargetZeroClicks p
                                 && nonTargetZeroClickWhere cutoff p r)).
  assert (Hout : ~ In r (List.filter keep (search_analytics db)) <-> keep r = false).
  { rewrite List.filter_In. split.
    - intros H. destruct (keep r); [exfalso; apply H; split; [exact Hin | reflexivity] | reflexivity].
    - intros H [_ H']. congruence. }
  rewrite Hout. clear Hout. subst keep. cbv beta.
  clearbody cutoff. clearbody p.
  unfold targetLowValueWhere, nonTargetZeroClickWhere, sqlLowerNotIn, sqlLowerIn.
  generalize (lowerTargets p). intros targets.
  destruct (date_ltb (date (data r)) cutoff);
    destruct (Z.eqb_spec (clicks (data r)) 0) as [Hc | Hc];
    destruct (Z.ltb_spec (impressions (data r)) (targetMinImpressions p)) as [Hi | Hi];
    destruct (pruneNonTargetZeroClicks p);
    destruct targets as [| t ts];
    destruct (country (data r)) as [c |]; cbv iota beta;
    try destruct (existsb (String.eqb (toLowerCase c)) (t :: ts)); simpl;
    intuition (try discriminate; try lia; try congruence).
Qed.

Lemma prune_deletes_exactly_witness :
  forallb asciiOnly (targetCountries (mergePolicy noPolicy)) = true
  /\ In oldNonTarget (search_analytics dbKeyed)
  /\ ~ In oldNonTarget
         (search_analytics (snd (prune europeBerlin2024 noon20100 noPolicy dbKeyed))).
Proof.
  assert (Hin : In oldNonTarget (search_analytics dbKeyed))
    by (simpl; right; right; left; reflexivity).
  split; [reflexivity |]. split; [exact Hin |].
  apply (prune_deletes_exactly europeBerlin2024 noon20100 noPolicy dbKeyed oldNonTarget
           eq_refl Hin).
  vm_compute. repeat split.
Defined.

(** X8.  Pruning is idempotent.  A second prune with the same policy at the
    same clock value deletes nothing, skips VACUUM and leaves the table
    as the first run left it; it counts as rows before what the first
    run reported as rows after; and a preview in between reports nothing
    left to delete. *)
Theorem prune_twice_deletes_nothing
    (tz : TimeZone) (now : Z) (policy : PartialPolicy) (db : Db) :
  let first := prune tz now policy db in
  let second := prune tz now policy (snd first) in
  snd second = snd first
  /\ rowsDeleted (fst second) = 0
  /\ vacuumed (fst second) = false
  /\ rowsBefore (fst second) = rowsAfter (fst first)
  /\ rowsAfter (fst second) = rowsAfter (fst first)
  /\ wouldDelete (fst (preview tz now policy (snd first))) = 0.
Proof.
  intros first second. subst second first.
  set (db1 := snd (prune tz now policy db)).
  pose proof (prune_kept tz now policy db) as Hk1. cbv zeta in Hk1. fold db1 in Hk1.
  pose proof (prune_kept tz now policy db1) as Hk2. cbv zeta in Hk2.
  set (p := mergePolicy policy) in *.
  set (cutoff := cutoffDate tz now p) in *.
  set (keep := fun r => negb (targetLowValueWhere cutoff p r)
                        && negb (pruneNonTargetZeroClicks p
                                 && nonTargetZeroClickWhere cutoff p r)) in *.
  assert (Hkept : forall a, In a (search_analytics db1) -> keep a = true).
  { intros a Ha. rewrite Hk1 in Ha. apply List.filter_In in Ha. apply Ha. }
  assert (Hrows : search_analytics (snd (prune tz now policy db1)) = search_analytics db1).
  { rewrite Hk2. apply filter_keep_all. exact Hkept. }
  assert (Hseq : forall d, sqlite_sequence (snd (prune tz now policy d)) = sqlite_sequence d).
  { intros d. unfold prune. cbv zeta. generalize (mergePolicy policy). intros q.
    generalize (cutoffDate tz now q). intros c. unfold sqlDelete.
    destruct (pruneNonTargetZeroClicks q); reflexivity. }
  assert (Hsame : snd (prune tz now policy db1) = db1).
  { specialize (Hseq db1). destruct (snd (prune tz now policy db1)), db1.
    simpl in *. congruence. }
  destruct (prune_rowsAfter tz now policy db) as (Ha1 & _ & _).
  destruct (prune_rowsAfter tz now policy db1) as (Ha2 & Hb2 & Hv2).
  destruct (prune_unfold tz now policy db1) as (_ & _ & Hra2).
  fold db1 in Ha1.
  assert (Hdel : rowsDeleted (fst (prune tz now policy db1)) = 0).
  { rewrite Hra2, Hsame in Ha2. lia. }
  split; [exact Hsame |].
  split; [exact Hdel |].
  split; [rewrite Hv2, Hdel; reflexivity |].
  split; [rewrite Hb2, Ha1; reflexivity |].
  split; [rewrite Ha2, Hsame, Ha1; reflexivity |].
  destruct (prune_unfold tz now policy db1) as (_ & Hd2 & _).
  rewrite (preview_wouldDelete tz now policy db1), <- Hd2. exact Hdel.
Qed.

End DataRetentionMoreFacts.

(* ===================================================================== *)
(** * More about the job manager *)
(* ===================================================================== *)

Section JobBookkeepingFacts.
Import SyncManager JobBookkeeping.

Ltac job_simpl :=
  cbn [job run activeProperties index inflight finished
       Job.id Job.status Job.cancelled Job.properties Job.totalProperties
       Job.completedProperties Job.currentProperty Job.rowsFetched
       Job.estimatedTotalRows Job.apiCallsMade Job.startedAt Job.results Job.error
       Job.with_status Job.with_cancelled Job.with_completedProperties
       Job.with_currentProperty Job.with_rowsFetched Job.with_estimatedTotalRows
       Job.with_apiCallsMade Job.with_results Job.with_error
       negb andb orb length app] in *.

Ltac open_job c :=
  let j := fresh "j" in
  let rs := fresh "rs" in
  destruct c as [j rs];
  destruct j as [jid jst jca jpr jtp jcp jcu jrf jet jac jsa jrs jer];
  destruct rs as [ract ridx rinf rfin];
  job_simpl.

Lemma setAdd_spec (x : string) (s : list string) :
  NoDup s -> NoDup (setAdd x s)
  /\ (forall y, In y (setAdd x s) <-> y = x \/ In y s)
  /\ (0 < length (setAdd x s))%nat.
Proof.
  intros Hnd. unfold setAdd.
  destruct (existsb (String.eqb x) s) eqn:E.
  - apply existsb_exists in E. destruct E as (y & Hy & Hxy).
    apply String.eqb_eq in Hxy. subst y.
    split; [exact Hnd |]. split.
    + intros y. split; [tauto | intros [-> | H]; assumption].
    + destruct s; [destruct Hy | simpl; lia].
  - split; [| split].
    + apply NoDup_app. split; [exact Hnd |]. split; [| apply NoDup_singleton].
      intros y Hy Hyx. apply list_elem_of_In in Hy.
      apply list_elem_of_singleton in Hyx. subst y.
      assert (Hex : existsb (String.eqb x) s = true).
      { apply existsb_exists. exists x. split; [exact Hy | apply String.eqb_refl]. }
      congruence.
    + intros y. rewrite in_app_iff. simpl. intuition.
    + rewrite length_app. simpl. lia.
Qed.

Lemma setDelete_spec (x : string) (s : list string) :
  NoDup s -> NoDup (setDelete x s)
  /\ (forall y, In y (setDelete x s) <-> y <> x /\ In y s).
Proof.
  intros Hnd. unfold setDelete. split.
  - apply NoDup_ListNoDup. apply List.NoDup_filter. apply NoDup_ListNoDup. exact Hnd.
  - intros y. rewrite List.filter_In, negb_true_iff, String.eqb_neq. intuition.
Qed.

Lemma finalize_fields (j : Job.t) :
  Job.id (finalize j) = Job.id j
  /\ Job.completedProperties (finalize j) = Job.completedProperties j
  /\ Job.totalProperties (finalize j) = Job.totalProperties j
  /\ Job.currentProperty (finalize j) = None
  /\ Job.results (finalize j) = Job.results j
  /\ Job.properties (finalize j) = Job.properties j
  /\ Job.cancelled (finalize j) = Job.cancelled j
  /\ (Job.status (finalize j) = Cancelled <-> Job.cancelled j = true)
  /\ terminal (Job.status (finalize j)) = true.
Proof.
  destruct j as [i st ca pr tp cp cu rf et ac sa rs er].
  unfold finalize; simpl.
  destruct ca; simpl; [repeat split; auto |].
  destruct ((0 <? length rs)%nat && forallb isFailed rs); simpl;
    destruct (existsb isFailed rs); simpl; repeat split; auto; discriminate.
Qed.

Lemma startedCell_inv (id : string) (now : Z) (properties : list Property.t) :
  cell_inv (startedCell id now properties).
Proof.
  constructor; simpl; try reflexivity; try lia; try discriminate.
  - constructor.
  - intros [H | H]; discriminate.
  - split; discriminate.
Qed.

Lemma claim_inv (c c' : Cell) : claim c = Some c' -> cell_inv c -> cell_inv c'.
Proof.
  intros Hc [I1 I2 I3 I4 I5 I6 I7 I8 I9 I10 I11 I12 I13 I14].
  unfold claim in Hc. open_job c.
  set (w := Nat.min PROPERTY_CONCURRENCY (length jpr)) in *.
  destruct rfin; job_simpl; [discriminate |].
  destruct (_ <? _)%nat eqn:Hw; job_simpl; [| discriminate].
  apply Nat.ltb_lt in Hw.
  destruct (jpr !! ridx) as [prop |] eqn:Hprop0; [| discriminate].
  pose proof (lookup_lt_Some _ _ _ Hprop0) as Hprop.
  destruct jca; injection Hc as <-.
  - constructor; job_simpl; try assumption; try lia; try discriminate.
  - destruct (setAdd_spec (Property.siteUrl prop) ract I4) as (Hnd & Hin & Hlen).
    constructor; job_simpl; try assumption; try discriminate.
    + rewrite length_app. job_simpl. fold w. lia.
    + intros x Hx. apply Hin in Hx. destruct Hx as [-> | Hx].
      * exists prop. split; [apply in_or_app; right; left; reflexivity | reflexivity].
      * destruct (I5 x Hx) as (p & Hp & Hpx). exists p.
        split; [apply in_or_app; left; exact Hp | exact Hpx].
    + rewrite length_app. job_simpl. fold w. lia.
    + intros _. rewrite length_app. job_simpl. specialize (I7 eq_refl). lia.
    + unfold currentOf. apply Nat.ltb_lt in Hlen. rewrite Hlen. reflexivity.
    + intros p Hp. apply in_app_or in Hp. destruct Hp as [Hp | [<- | []]]; [auto |].
      apply list_elem_of_In. eapply list_elem_of_lookup_2. exact Hprop0.
Qed.

Lemma settle_inv (k : nat) (o : Outcome) (c c' : Cell) :
  settle k o c = Some c' -> cell_inv c -> cell_inv c'.
Proof.
  intros Hc [I1 I2 I3 I4 I5 I6 I7 I8 I9 I10 I11 I12 I13 I14].
  unfold settle in Hc. open_job c.
  set (w := Nat.min PROPERTY_CONCURRENCY (length jpr)) in *.
  destruct (rinf !! k) as [prop |] eqn:Hk; [| discriminate].
  injection Hc as <-.
  assert (Hlen : length (delete k rinf) = (length rinf - 1)%nat)
    by (apply length_delete; eauto).
  pose proof (lookup_lt_Some _ _ _ Hk) as Hlt.
  assert (Hnf : rfin = false).
  { destruct rfin; [| reflexivity]. destruct (I9 eq_refl) as [Hin _]. subst. simpl in Hlt. lia. }
  subst rfin.
  destruct (setDelete_spec (Property.siteUrl prop) ract I4) as (Hnd & Hin).
  constructor; job_simpl; try assumption; try discriminate.
  - rewrite length_app. job_simpl. fold w. lia.
  - rewrite Hlen. fold w. lia.
  - intros x Hx. apply Hin in Hx. destruct Hx as [Hne Hx].
    destruct (I5 x Hx) as (p & Hp & Hpx). exists p. split; [| exact Hpx].
    apply list_elem_of_In in Hp. apply list_elem_of_lookup_1 in Hp. destruct Hp as [i Hi].
    assert (Hik : i <> k) by (intros ->; congruence).
    apply list_elem_of_In.
    destruct (decide (i < k)%nat) as [Hlt' | Hge].
    + eapply list_elem_of_lookup_2. rewrite list_lookup_delete_lt by exact Hlt'. exact Hi.
    + destruct i as [| i]; [lia |].
      apply (list_elem_of_lookup_2 _ i). rewrite list_lookup_delete_ge by lia. exact Hi.
  - rewrite length_app, Hlen. job_simpl. fold w. lia.
  - intros Hca. rewrite length_app, Hlen. job_simpl. specialize (I7 Hca). lia.
  - reflexivity.
  - intros p Hp. apply I14. apply list_elem_of_In. apply list_elem_of_In in Hp.
    eapply list_elem_of_delete_inv. exact Hp.
Qed.

Lemma page_inv (fullPage : bool) (c c' : Cell) :
  page fullPage c = Some c' -> cell_inv c -> cell_inv c'.
Proof.
  intros Hc [I1 I2 I3 I4 I5 I6 I7 I8 I9 I10 I11 I12 I13 I14].
  unfold page in Hc. open_job c.
  destruct rinf as [| p0 rest] eqn:Hin; [discriminate |].
  destruct fullPage; injection Hc as <-; constructor; job_simpl; assumption.
Qed.

Lemma chunkRows_inv (n : Z) (c c' : Cell) :
  chunkRows n c = Some c' -> cell_inv c -> cell_inv c'.
Proof.
  intros Hc [I1 I2 I3 I4 I5 I6 I7 I8 I9 I10 I11 I12 I13 I14].
  unfold chunkRows in Hc. open_job c.
  destruct rinf as [| p0 rest] eqn:Hin; [discriminate |].
  destruct (0 <? n); [| discriminate].
  injection Hc as <-; constructor; job_simpl; assumption.
Qed.

Lemma finish_inv (c c' : Cell) : finish c = Some c' -> cell_inv c -> cell_inv c'.
Proof.
  intros Hfin [I1 I2 I3 I4 I5 I6 I7 I8 I9 I10 I11 I12 I13 I14].
  destruct (finish_spec c c' Hfin) as (Hj & Hnf & Hf' & Hin & Hidx & Hi' & Hin').
  destruct (finalize_fields (job c)) as (F0 & F1 & F2 & F3 & F4 & F5 & F6 & F7 & F8).
  assert (Hact : activeProperties (run c') = activeProperties (run c)).
  { unfold finish in Hfin. destruct (_ && _); [| discriminate].
    injection Hfin as <-. reflexivity. }
  assert (Hempty : activeProperties (run c) = []).
  { destruct (activeProperties (run c)) as [| x l] eqn:E; [reflexivity |].
    destruct (I5 x (or_introl eq_refl)) as (p & Hp & _). rewrite Hin in Hp. destruct Hp. }
  constructor; rewrite ?Hj, ?F1, ?F2, ?F3, ?F4, ?F5, ?F6, ?Hi', ?Hin', ?Hact; try assumption.
  - intros _. rewrite Hin. split; [reflexivity |]. split; [exact F8 | exact Hidx].
  - intros Hq. rewrite Hq in F8. discriminate.
  - intros _. exact Hf'.
  - symmetry. exact F7.
  - rewrite Hempty. reflexivity.
Qed.

Lemma cancelledCell_inv (c : Cell) :
  cell_inv c -> terminal (Job.status (job c)) = false -> cell_inv (cancelledCell c).
Proof.
  intros [I1 I2 I3 I4 I5 I6 I7 I8 I9 I10 I11 I12 I13 I14] Hterm.
  unfold cancelledCell. open_job c.
  assert (Hnf : rfin = false).
  { destruct rfin; [| reflexivity]. destruct (I9 eq_refl) as (_ & ? & _). congruence. }
  subst rfin.
  constructor; job_simpl; try assumption; try discriminate; try tauto.
  intros [H | H]; discriminate.
Qed.

(** The heap after [startSync] or [startSyncAll]. *)
Lemma started_heap (id : string) (now : Z) (properties : list Property.t) (m : Manager) :
  let m' := runJob_begin (fst (createJob id now properties m))
              (snd (createJob id now properties m)) in
  heap m' = <[nextRef m := startedCell id now properties]> (heap m)
  /\ nextRef m' = S (nextRef m).
Proof.
  cbv zeta. unfold createJob. cbn [fst snd].
  match goal with |- context [pruneHistory ?x] =>
    destruct (pruneHistory_heap x) as [Hh Hn] end.
  unfold runJob_begin, updateJob. cbn [heap nextRef]. rewrite Hh, Hn. cbn [heap nextRef].
  split; [| reflexivity].
  rewrite alter_insert_eq. reflexivity.
Qed.

(** A property of job objects that every event keeps holds of every job
    object that a history creates. *)
Lemma step_cells (P : Cell -> Prop) (m m' : Manager) (e : Event) :
  (forall id now properties, P (startedCell id now properties)) ->
  (forall c, cell_inv c -> P c -> terminal (Job.status (job c)) = false ->
             P (cancelledCell c)) ->
  (forall c c', cell_inv c -> P c ->
     (claim c = Some c' \/ (exists k o, settle k o c = Some c')
      \/ (exists b, page b c = Some c') \/ (exists n, chunkRows n c = Some c')
      \/ finish c = Some c') -> P c') ->
  (forall r c, heap m !! r = Some c -> cell_inv c /\ P c) ->
  step m e = Some m' ->
  forall r c, heap m' !! r = Some c -> cell_inv c /\ P c.
Proof.
  intros Hstart Hcancel Hop Hm Hstep.
  assert (Hcell : forall r0 f,
            (forall c c', f c = Some c' -> cell_inv c -> cell_inv c') ->
            (forall c c', f c = Some c' -> cell_inv c -> P c -> P c') ->
            onCell r0 f m = Some m' ->
            forall r c, heap m' !! r = Some c -> cell_inv c /\ P c).
  { intros r0 f Hf HfP Hon r c Hc.
    destruct (onCell_spec _ _ _ _ Hon) as (c0 & c0' & Hc0 & Hfc & ->).
    unfold updateCell in Hc. cbn [heap] in Hc. rewrite lookup_insert in Hc.
    destruct (decide (r0 = r)) as [<- | Hne].
    - injection Hc as <-. destruct (Hm r0 c0 Hc0) as [Hi Hp].
      split; [eapply Hf; eassumption | eapply HfP; eassumption].
    - apply (Hm r c Hc). }
  assert (Hstarted : forall id now properties,
            m' = runJob_begin (fst (createJob id now properties m))
                   (snd (createJob id now properties m)) ->
            forall r c, heap m' !! r = Some c -> cell_inv c /\ P c).
  { intros id now properties -> r c Hc.
    destruct (started_heap id now properties m) as [Hh _]. cbv zeta in Hh.
    rewrite Hh, lookup_insert in Hc.
    destruct (decide (nextRef m = r)) as [<- | Hne].
    - injection Hc as <-. split; [apply startedCell_inv | apply Hstart].
    - apply (Hm r c Hc). }
  destruct e; cbn [step] in Hstep.
  - apply (Hstarted id now [args]). rewrite <- startSync_state. congruence.
  - apply (Hstarted id now (propertyArgs listed args)). rewrite <- startSyncAll_state. congruence.
  - assert (Hm' : m' = snd (cancelJob jobId m)) by congruence.
    pose proof (cancelJob_spec jobId m) as Hspec.
    destruct (getJob m jobId) as [[r0 c0] |] eqn:Hget.
    + apply getJob_Some in Hget. destruct Hget as [_ Hc0].
      destruct (terminal (Job.status (job c0))) eqn:Hterm; rewrite Hspec in Hm'; cbn [snd] in Hm'.
      * subst m'. exact Hm.
      * subst m'. intros r c Hc. unfold updateJob in Hc. cbn [heap] in Hc.
        rewrite lookup_alter in Hc.
        destruct (decide (r0 = r)) as [<- | Hne].
        -- rewrite Hc0 in Hc. simpl in Hc. injection Hc as <-.
           destruct (Hm r0 c0 Hc0) as [Hi Hp].
           split; [apply cancelledCell_inv; assumption | apply Hcancel; assumption].
        -- apply (Hm r c Hc).
    + rewrite Hspec in Hm'. cbn [snd] in Hm'. subst m'. exact Hm.
  - apply (Hcell ref claim); [apply claim_inv | | exact Hstep].
    intros c c' Hc Hi Hp. apply (Hop c c' Hi Hp). left. exact Hc.
  - apply (Hcell ref (settle k o)); [apply settle_inv | | exact Hstep].
    intros c c' Hc Hi Hp. apply (Hop c c' Hi Hp). right. left. eauto.
  - apply (Hcell ref (page fullPage)); [apply page_inv | | exact Hstep].
    intros c c' Hc Hi Hp. apply (Hop c c' Hi Hp). right. right. left. eauto.
  - apply (Hcell ref (chunkRows n)); [apply chunkRows_inv | | exact Hstep].
    intros c c' Hc Hi Hp. apply (Hop c c' Hi Hp). right. right. right. left. eauto.
  - apply (Hcell ref finish); [apply finish_inv | | exact Hstep].
    intros c c' Hc Hi Hp. apply (Hop c c' Hi Hp). right. right. right. right. exact Hc.
Qed.

Lemma steps_cells_inv (es : list Event) :
  forall m m' : Manager,
    (forall r c, heap m !! r = Some c -> cell_inv c) ->
    steps m es = Some m' ->
    forall r c, heap m' !! r = Some c -> cell_inv c.
Proof.
  induction es as [| e es IH]; intros m m' Hm Hsteps; simpl in Hsteps.
  - injection Hsteps as <-. exact Hm.
  - destruct (step m e) as [m1 |] eqn:Hstep; [| discriminate].
    apply (IH m1 m'); [| exact Hsteps].
    intros r c Hc.
    apply (step_cells (fun _ => True) m m1 e) with (r := r); auto.
    intros r0 c0 Hc0. split; [eapply Hm; exact Hc0 | exact I].
Qed.

Lemma reachable_cell_inv (m : Manager) (r : nat) (c : Cell) :
  reachable m -> heap m !! r = Some c -> cell_inv c.
Proof.
  intros [es Hes]. apply (steps_cells_inv es emptyManager m); [| exact Hes].
  intros r0 c0 Hc0. unfold emptyManager in Hc0. simpl in Hc0.
  rewrite lookup_empty in Hc0. discriminate.
Qed.

End JobBookkeepingFacts.

Section RegistryFacts.
Import SyncManager JobBookkeeping Registry.

Lemma NoDup_suffix (evicted order : list string) :
  NoDup (evicted ++ order) -> NoDup order /\ forall id, In id order -> ~ In id evicted.
Proof.
  intros H. apply NoDup_app in H. destruct H as (_ & Hdis & Hnd).
  split; [exact Hnd |].
  intros id Hin Hev. apply (Hdis id); apply list_elem_of_In; assumption.
Qed.

Lemma registered_inv (created : list string) (id : string) (c : Cell) (m : Manager) :
  manager_ok m -> registry_inv created m -> ~ In id created -> Job.id (job c) = id ->
  registry_inv (created ++ [id]) (registered id c m).
Proof.
  intros Hok [(evicted & Hsuf) Hdom Hobj Hcre Hact] Hfresh Hid.
  constructor; unfold registered; cbn [jobs jobOrder heap nextRef].
  - exists evicted. rewrite Hsuf, app_assoc. reflexivity.
  - intros id'. rewrite in_app_iff. simpl.
    destruct (decide (id = id')) as [<- | Hne].
    + rewrite lookup_insert_eq. split; [eauto | tauto].
    + rewrite lookup_insert_ne by exact Hne. rewrite Hdom. intuition.
  - intros id' r. destruct (decide (id = id')) as [<- | Hne].
    + rewrite lookup_insert_eq. intros [= <-]. exists c. rewrite lookup_insert_eq. auto.
    + rewrite lookup_insert_ne by exact Hne. intros Hr.
      destruct (Hobj id' r Hr) as (c' & Hc' & Hid').
      exists c'. split; [| exact Hid'].
      destruct (Hok r c' Hc') as [Hlt _]. rewrite lookup_insert_ne by lia. exact Hc'.
  - intros r c'. rewrite lookup_insert.
    destruct (decide (nextRef m = r)) as [<- | Hne].
    + intros Heq. injection Heq as Heq. rewrite <- Heq, Hid.
      apply in_or_app. right. left. reflexivity.
    + intros Hc'. apply in_or_app. left. eapply Hcre. exact Hc'.
  - intros r c'. rewrite lookup_insert.
    destruct (decide (nextRef m = r)) as [<- | Hne].
    + intros Heq _. injection Heq as Heq. rewrite <- Heq, Hid. apply lookup_insert_eq.
    + intros Hc' Hterm. rewrite lookup_insert_ne; [apply (Hact r c' Hc' Hterm) |].
      intros Heq. apply Hfresh. rewrite Heq. eapply Hcre. exact Hc'.
Qed.

Lemma pruneHistory_inv (created : list string) (m : Manager) :
  NoDup created -> registry_inv created m -> registry_inv created (pruneHistory m).
Proof.
  intros Hnd [(ev0 & Hsuf) Hdom Hobj Hcre Hact].
  unfold pruneHistory.
  destruct (pruneHistory_loop (heap m) (jobOrder m) (jobs m)) as [order' js'] eqn:Hloop.
  destruct (pruneHistory_loop_spec _ _ _ _ _ Hloop)
    as (evicted & Hord & Hterms & Hgone & Hkept & _).
  assert (Hnd' : NoDup (evicted ++ order')).
  { rewrite Hsuf, Hord in Hnd. apply NoDup_app in Hnd. apply Hnd. }
  destruct (NoDup_suffix _ _ Hnd') as [_ Hout].
  constructor; cbn [jobs jobOrder heap nextRef].
  - exists (ev0 ++ evicted). rewrite Hsuf, Hord, app_assoc. reflexivity.
  - intros id. split.
    + intros Hin. rewrite (Hkept id (Hout id Hin)). apply Hdom.
      rewrite Hord. apply in_or_app. right. exact Hin.
    + intros Hsome.
      assert (Hne : ~ In id evicted).
      { intros Hev. rewrite (Hgone id Hev) in Hsome. destruct Hsome; discriminate. }
      rewrite (Hkept id Hne) in Hsome. apply Hdom in Hsome.
      rewrite Hord in Hsome. apply in_app_or in Hsome. tauto.
  - intros id r Hr.
    assert (Hne : ~ In id evicted).
    { intros Hev. rewrite (Hgone id Hev) in Hr. discriminate. }
    rewrite (Hkept id Hne) in Hr. apply (Hobj id r Hr).
  - exact Hcre.
  - intros r c Hc Hterm.
    assert (Hne : ~ In (Job.id (job c)) evicted).
    { intros Hev. destruct (Hterms _ Hev) as (c1 & Hc1 & Ht1).
      rewrite (Hact r c Hc Hterm) in Hc1. simpl in Hc1. rewrite Hc in Hc1.
      injection Hc1 as <-. congruence. }
    rewrite (Hkept _ Hne). apply (Hact r c Hc Hterm).
Qed.

(** A change of one job object that keeps its id and does not make a
    terminal status active again. *)
Lemma updateCell_inv (created : list string) (r : nat) (c c' : Cell) (m : Manager) :
  registry_inv created m -> heap m !! r = Some c ->
  Job.id (job c') = Job.id (job c) ->
  (terminal (Job.status (job c')) = false -> terminal (Job.status (job c)) = false) ->
  registry_inv created (updateCell r c' m).
Proof.
  intros [Hsuf Hdom Hobj Hcre Hact] Hc Hid Hterm.
  constructor; unfold updateCell; cbn [jobs jobOrder heap nextRef].
  - exact Hsuf.
  - exact Hdom.
  - intros id r0 Hr0. destruct (Hobj id r0 Hr0) as (c0 & Hc0 & Hid0).
    rewrite lookup_insert. destruct (decide (r = r0)) as [<- | Hne].
    + exists c'. split; [reflexivity |]. congruence.
    + exists c0. auto.
  - intros r0 c0. rewrite lookup_insert. destruct (decide (r = r0)) as [<- | Hne].
    + intros [= <-]. rewrite Hid. eapply Hcre. exact Hc.
    + apply Hcre.
  - intros r0 c0. rewrite lookup_insert. destruct (decide (r = r0)) as [<- | Hne].
    + intros [= <-] Ht. rewrite Hid. apply (Hact r c Hc). apply Hterm. exact Ht.
    + apply Hact.
Qed.

Lemma updateJob_updateCell (r : nat) (f : Job.t -> Job.t) (c : Cell) (m : Manager) :
  heap m !! r = Some c ->
  updateJob r f m = updateCell r {| job := f (job c); run := run c |} m.
Proof.
  intros Hc. unfold updateJob, updateCell. f_equal.
  apply map_eq. intros i. rewrite lookup_alter, lookup_insert.
  destruct (decide (r = i)) as [<- | Hne]; [rewrite Hc; reflexivity | reflexivity].
Qed.

Lemma op_keeps_id (c c' : Cell) :
  (claim c = Some c' \/ (exists k o, settle k o c = Some c')
   \/ (exists b, page b c = Some c') \/ (exists n, chunkRows n c = Some c')
   \/ finish c = Some c') ->
  Job.id (job c') = Job.id (job c)
  /\ (terminal (Job.status (job c')) = false -> terminal (Job.status (job c)) = false).
Proof.
  intros [H | [(k & o & H) | [(b & H) | [(n & H) | H]]]].
  - unfold claim in H. destruct (_ && _); [| discriminate].
    destruct (_ !! _); [| discriminate].
    destruct (Job.cancelled (job c)); injection H as <-; destruct c as [[] []]; simpl; auto.
  - unfold settle in H. destruct (_ !! _); [| discriminate].
    injection H as <-. destruct c as [[] []]; simpl; auto.
  - unfold page in H. destruct (inflight (run c)); [discriminate |].
    destruct b; injection H as <-; destruct c as [[] []]; simpl; auto.
  - unfold chunkRows in H. destruct (inflight (run c)); [discriminate |].
    destruct (0 <? n); [| discriminate].
    injection H as <-. destruct c as [[] []]; simpl; auto.
  - destruct (finish_spec c c' H) as (Hj & _).
    destruct (finalize_fields (job c)) as (F0 & _ & _ & _ & _ & _ & _ & _ & F8).
    rewrite Hj, F0, F8. split; [reflexivity | discriminate].
Qed.

Lemma step_registry (created : list string) (m m' : Manager) (e : Event) :
  manager_ok m -> registry_inv created m ->
  NoDup (created ++ startedIds [e]) ->
  step m e = Some m' ->
  registry_inv (created ++ startedIds [e]) m'.
Proof.
  intros Hok Hreg Hnd Hstep.
  assert (Hon : forall r f,
            (forall c c', f c = Some c' ->
               Job.id (job c') = Job.id (job c)
               /\ (terminal (Job.status (job c')) = false ->
                   terminal (Job.status (job c)) = false)) ->
            onCell r f m = Some m' -> registry_inv created m').
  { intros r f Hf Hcell.
    destruct (onCell_spec _ _ _ _ Hcell) as (c & c' & Hc & Hfc & ->).
    destruct (Hf c c' Hfc) as [Hid Ht].
    eapply updateCell_inv; eassumption. }
  assert (Hstart : forall id now properties,
            startedIds [e] = [id] ->
            m' = runJob_begin (fst (createJob id now properties m))
                   (snd (createJob id now properties m)) ->
            registry_inv (created ++ startedIds [e]) m').
  { intros id now properties He ->. rewrite He in *.
    assert (Hfresh : ~ In id created).
    { apply NoDup_app in Hnd. destruct Hnd as (_ & Hdis & _).
      intros Hin. apply (Hdis id); [apply list_elem_of_In; exact Hin | left]. }
    unfold createJob. cbn [fst snd].
    match goal with |- context [<[nextRef m := ?x]> (heap m)] => set (c0 := x) in * end.
    match goal with |- context [pruneHistory ?x] => set (m0 := x) end.
    assert (H0 : registry_inv (created ++ [id]) m0)
      by (apply (registered_inv created id c0 m Hok Hreg Hfresh); reflexivity).
    apply (pruneHistory_inv _ _ Hnd) in H0.
    assert (Hc0 : heap (pruneHistory m0) !! nextRef m = Some c0).
    { destruct (pruneHistory_heap m0) as [-> _]. subst m0. cbn [heap].
      apply lookup_insert_eq. }
    unfold runJob_begin. rewrite (updateJob_updateCell _ _ c0) by exact Hc0.
    eapply updateCell_inv; [exact H0 | exact Hc0 | reflexivity | reflexivity]. }
  destruct e; cbn [step] in Hstep; cbn [startedIds flat_map app] in *;
    rewrite ?app_nil_r in *.
  - apply (Hstart id now [args]); [reflexivity |]. rewrite <- startSync_state. congruence.
  - apply (Hstart id now (propertyArgs listed args)); [reflexivity |].
    rewrite <- startSyncAll_state. congruence.
  - assert (Hm' : m' = snd (cancelJob jobId m)) by congruence.
    pose proof (cancelJob_spec jobId m) as Hspec.
    destruct (getJob m jobId) as [[r0 c0] |] eqn:Hget.
    + apply getJob_Some in Hget. destruct Hget as [_ Hc0].
      destruct (terminal (Job.status (job c0))) eqn:Hterm; rewrite Hspec in Hm'; cbn [snd] in Hm'.
      * subst m'. exact Hreg.
      * subst m'. rewrite (updateJob_updateCell _ _ c0) by exact Hc0.
        eapply updateCell_inv; [exact Hreg | exact Hc0 | | ].
        -- destruct c0 as [[] []]; reflexivity.
        -- destruct c0 as [[] []]; simpl; discriminate.
    + rewrite Hspec in Hm'. cbn [snd] in Hm'. subst m'. exact Hreg.
  - apply (Hon ref claim); [| exact Hstep]. intros c c' H. apply op_keeps_id. auto.
  - apply (Hon ref (settle k o)); [| exact Hstep]. intros c c' H. apply op_keeps_id. eauto 6.
  - apply (Hon ref (page fullPage)); [| exact Hstep]. intros c c' H. apply op_keeps_id. eauto 6.
  - apply (Hon ref (chunkRows n)); [| exact Hstep]. intros c c' H. apply op_keeps_id. eauto 8.
  - apply (Hon ref finish); [| exact Hstep]. intros c c' H. apply op_keeps_id. auto 6.
Qed.

Lemma startedIds_app (es1 es2 : list Event) :
  startedIds (es1 ++ es2) = startedIds es1 ++ startedIds es2.
Proof. unfold startedIds. apply flat_map_app. Qed.

Lemma steps_registry (es : list Event) :
  forall (created : list string) (m m' : Manager),
    manager_ok m -> registry_inv created m ->
    NoDup (created ++ startedIds es) ->
    steps m es = Some m' ->
    registry_inv (created ++ startedIds es) m'.
Proof.
  induction es as [| e es IH]; intros created m m' Hok Hreg Hnd Hsteps; simpl in Hsteps.
  - injection Hsteps as <-. change (startedIds []) with (@nil string).
    rewrite app_nil_r. exact Hreg.
  - destruct (step m e) as [m1 |] eqn:Hstep; [| discriminate].
    change (e :: es) with ([e] ++ es) in *.
    rewrite startedIds_app, app_assoc in *.
    destruct (step_ok_evolves m m1 e Hok Hstep) as [Hok1 _].
    apply (IH _ m1 m' Hok1); [| exact Hnd | exact Hsteps].
    apply (step_registry created m m1 e Hok Hreg); [| exact Hstep].
    apply NoDup_app in Hnd. apply Hnd.
Qed.

Lemma reachable_registry (es : list Event) (m : Manager) :
  steps emptyManager es = Some m -> NoDup (startedIds es) ->
  registry_inv (startedIds es) m.
Proof.
  intros Hsteps Hnd.
  apply (steps_registry es [] emptyManager m emptyManager_ok); [| exact Hnd | exact Hsteps].
  constructor; unfold emptyManager; cbn [jobs jobOrder heap nextRef].
  - exists []. reflexivity.
  - intros id. rewrite lookup_empty. split; [intros [] | intros [x Hx]; discriminate].
  - intros id r. rewrite lookup_empty. discriminate.
  - intros r c. rewrite lookup_empty. discriminate.
  - intros r c. rewrite lookup_empty. discriminate.
Qed.

End RegistryFacts.

Section HistoryPruningFacts.
Import Dates ChunkPlanner SyncManager.

(** The loop does not go below the cap, and does nothing at or below
    it. *)
Lemma pruneHistory_loop_floor (h : gmap nat Cell) (order : list string) :
  forall (js js' : gmap string nat) (order' : list string),
    pruneHistory_loop h order js = (order', js') ->
    (Nat.min MAX_JOB_HISTORY (length order) <= length order')%nat
    /\ ((length order <= MAX_JOB_HISTORY)%nat -> order' = order /\ js' = js).
Proof.
  induction order as [| oldId rest IH]; intros js js' order' Hloop.
  - cbn in Hloop. injection Hloop as <- <-. cbn. split; [lia | auto].
  - cbn [pruneHistory_loop] in Hloop.
    destruct (Nat.ltb_spec MAX_JOB_HISTORY (length (oldId :: rest))) as [Hlt | Hge].
    + destruct (js !! oldId ≫= (fun r => h !! r)) as [oldJob |].
      * destruct (terminal (Job.status (job oldJob))).
        -- destruct (IH _ _ _ Hloop) as [Hmin _]. cbn [length] in *. split; lia.
        -- injection Hloop as <- <-. split; [lia | auto].
      * injection Hloop as <- <-. split; [lia | auto].
    + injection Hloop as <- <-. split; [lia | auto].
Qed.

(** X9.  What [pruneHistory] evicts.  One call evicts a run of jobs
    from the front of the insertion order, each of them terminal, and
    removes them from the map; every other entry and every job object
    stays as it was.  It never leaves fewer than 50 jobs tracked and
    evicts nothing when at most 50 are tracked; it stops short of the cap
    only at a front entry that is not a terminal job. *)
Theorem pruneHistory_evicts_oldest_terminal_jobs (m : Manager) :
  exists evicted : list string,
    jobOrder m = evicted ++ jobOrder (pruneHistory m)
    /\ (forall id, In id evicted ->
          isTrackedTerminal m id = true /\ jobs (pruneHistory m) !! id = None)
    /\ (forall id, ~ In id evicted -> jobs (pruneHistory m) !! id = jobs m !! id)
    /\ heap (pruneHistory m) = heap m
    /\ (length evicted <= length (jobOrder m) - MAX_JOB_HISTORY)%nat
    /\ ((length evicted = length (jobOrder m) - MAX_JOB_HISTORY)%nat
        \/ exists id rest,
             jobOrder (pruneHistory m) = id :: rest
             /\ isTrackedTerminal (pruneHistory m) id = false).
Proof.
  unfold pruneHistory.
  destruct (pruneHistory_loop (heap m) (jobOrder m) (jobs m)) as [order' js'] eqn:Hloop.
  destruct (pruneHistory_loop_spec _ _ _ _ _ Hloop)
    as (evicted & Hord & Hterms & Hgone & Hkept & Hstop).
  destruct (pruneHistory_loop_floor _ _ _ _ _ Hloop) as [Hfloor Hsame].
  exists evicted. cbn [jobOrder jobs heap].
  assert (Hlen : length (jobOrder m) = (length evicted + length order')%nat)
    by (rewrite Hord at 1; apply length_app).
  split; [exact Hord |].
  split.
  { intros id Hin. split; [| apply Hgone; exact Hin].
    destruct (Hterms id Hin) as (c & Hc & Hct).
    rewrite tracked_getJob in Hc. unfold isTrackedTerminal.
    destruct (getJob m id) as [[r c0] |]; simpl in Hc; [| discriminate].
    injection Hc as ->. exact Hct. }
  split; [exact Hkept |].
  split; [reflexivity |].
  split; [lia |].
  destruct Hstop as [Hle | (id & rest & -> & Hhead)]; [left; lia |].
  right. exists id, rest. split; [reflexivity |].
  unfold isTrackedTerminal, getJob. cbn [jobs heap].
  destruct (js' !! id) as [r |]; simpl in *; [| reflexivity].
  destruct (heap m !! r) as [c |]; simpl in *; [exact Hhead | reflexivity].
Qed.

End HistoryPruningFacts.

Section JobBookkeepingTheorems.
Import SyncManager JobBookkeeping Registry Examples ManagerExamples.

(** X10.  Progress counters.  In every status that [getStatus(jobId)] reports
    after any history of the manager, [completedProperties] is the number
    of results, it lies between 0 and [totalProperties], and the status
    is never queued: [startSync] and [startSyncAll] set the status to
    syncing before they return the job id. *)
Theorem getStatus_counters_are_consistent
    (es : list Event) (m : Manager) (now : Z) (jobId : string) :
  steps emptyManager es = Some m ->
  let s := getStatus now jobId m in
  Status.completedProperties s = Z.of_nat (length (Status.results s))
  /\ 0 <= Status.completedProperties s <= Status.totalProperties s
  /\ Status.status s <> Queued.
Proof.
  intros Hsteps s. subst s. unfold getStatus.
  destruct (getJob m jobId) as [[r c] |] eqn:Hget.
  - apply getJob_Some in Hget. destruct Hget as [_ Hc].
    assert (Hinv : cell_inv c) by (eapply reachable_cell_inv; [exists es |]; eassumption).
    destruct Hinv as [I1 I2 _ _ _ I6 _ I8 _ I10 _ _ _ _].
    unfold jobToStatus. cbn [Status.completedProperties Status.results
                             Status.totalProperties Status.status].
    split; [exact I1 |]. split; [rewrite I1, I2; lia | exact I10].
  - simpl. split; [reflexivity |]. split; [lia | discriminate].
Qed.

Lemma getStatus_counters_are_consistent_witness :
  steps emptyManager startTwo = Some startedTwo
  /\ Status.completedProperties (getStatus 7 (jobName 0) startedTwo)
     = Z.of_nat (length (Status.results (getStatus 7 (jobName 0) startedTwo)))
  /\ Status.status (getStatus 7 (jobName 0) startedTwo) <> Queued.
Proof.
  assert (H : steps emptyManager startTwo = Some startedTwo) by (vm_compute; reflexivity).
  split; [exact H |].
  destruct (getStatus_counters_are_consistent startTwo startedTwo 7 (jobName 0) H)
    as (H1 & _ & H3).
  split; [exact H1 | exact H3].
Defined.

(** X11.  A job that finished completed or failed has synced all its
    properties: its status reports one result per property,
    [completedProperties = totalProperties], and no current property.
    (A cancelled job may report fewer results than properties.) *)
Theorem finished_job_has_one_result_per_property
    (es : list Event) (m : Manager) (r : nat) (c : Cell) :
  steps emptyManager es = Some m ->
  heap m !! r = Some c ->
  Job.status (job c) = Completed \/ Job.status (job c) = Failed ->
  length (Job.results (job c)) = length (Job.properties (job c))
  /\ Job.completedProperties (job c) = Job.totalProperties (job c)
  /\ Job.currentProperty (job c) = None
  /\ Job.cancelled (job c) = false.
Proof.
  intros Hsteps Hc Hdone.
  assert (Hinv : cell_inv c) by (eapply reachable_cell_inv; [exists es |]; eassumption).
  destruct Hinv as [I1 I2 I3 I4 I5 I6 I7 I8 I9 I10 I11 I12 I13 I14].
  assert (Hca : Job.cancelled (job c) = false).
  { destruct (Job.cancelled (job c)); [| reflexivity].
    destruct I12 as [I12 _]. specialize (I12 eq_refl). destruct Hdone; congruence. }
  destruct (I9 (I11 Hdone)) as (Hin & _ & Hidx).
  specialize (I7 Hca). rewrite Hin in *. simpl in I7.
  assert (Hlen : length (Job.results (job c)) = length (Job.properties (job c))) by lia.
  split; [exact Hlen |]. split; [rewrite I1, I2, Hlen; reflexivity |].
  split; [| exact Hca].
  rewrite I13.
  destruct (activeProperties (run c)) as [| x l]; [reflexivity |].
  destruct (I5 x (or_introl eq_refl)) as (p & [] & _).
Qed.

Lemma finished_job_has_one_result_per_property_witness :
  exists c,
    steps emptyManager failTwo = Some finishedTwo
    /\ heap finishedTwo !! 0%nat = Some c
    /\ Job.status (job c) = Failed
    /\ length (Job.results (job c)) = length (Job.properties (job c))
    /\ Job.completedProperties (job c) = 2.
Proof.
  destruct (heap finishedTwo !! 0%nat) as [c |] eqn:Hc; [| vm_compute in Hc; discriminate].
  assert (Hs : steps emptyManager failTwo = Some finishedTwo) by (vm_compute; reflexivity).
  assert (Hf : Job.status (job c) = Failed)
    by (vm_compute in Hc; injection Hc as <-; reflexivity).
  destruct (finished_job_has_one_result_per_property failTwo finishedTwo 0%nat c Hs Hc
              (or_intror Hf)) as (H1 & H2 & _).
  exists c. split; [exact Hs |]. split; [reflexivity |]. split; [exact Hf |].
  split; [exact H1 |]. rewrite H2. vm_compute in Hc. injection Hc as <-. reflexivity.
Defined.

(** X12.  Property concurrency.  At every moment of every job, at most
    [PROPERTY_CONCURRENCY] = 2 calls of [syncOneProperty] are in flight,
    the set [activeProperties] holds at most two site URLs, each the site
    of a call in flight, and [currentProperty] is that set joined, or
    null when the set is empty. *)
Theorem at_most_two_properties_in_flight
    (es : list Event) (m : Manager) (r : nat) (c : Cell) :
  steps emptyManager es = Some m ->
  heap m !! r = Some c ->
  (length (inflight (run c)) <= PROPERTY_CONCURRENCY)%nat
  /\ (length (activeProperties (run c)) <= length (inflight (run c)))%nat
  /\ (forall x, In x (activeProperties (run c)) ->
        exists p, In p (inflight (run c)) /\ In p (Job.properties (job c))
                  /\ Property.siteUrl p = x)
  /\ Job.currentProperty (job c)
     = (if (0 <? length (activeProperties (run c)))%nat
        then Some (joinActive (activeProperties (run c))) else None).
Proof.
  intros Hsteps Hc.
  assert (Hinv : cell_inv c) by (eapply reachable_cell_inv; [exists es |]; eassumption).
  destruct Hinv as [I1 I2 I3 I4 I5 I6 I7 I8 I9 I10 I11 I12 I13 I14].
  split; [etransitivity; [exact I3 | apply Nat.le_min_l] |].
  split.
  - rewrite <- (length_map Property.siteUrl (inflight (run c))).
    apply submseteq_length. apply NoDup_submseteq; [exact I4 |].
    intros x Hx. apply list_elem_of_In in Hx. destruct (I5 x Hx) as (p & Hp & <-).
    apply list_elem_of_In. apply in_map. exact Hp.
  - split; [| exact I13].
    intros x Hx. destruct (I5 x Hx) as (p & Hp & Hpx).
    exists p. split; [exact Hp |]. split; [apply I14; exact Hp | exact Hpx].
Qed.

Lemma at_most_two_properties_in_flight_witness :
  exists c,
    steps emptyManager claimTwo = Some claimedTwo
    /\ heap claimedTwo !! 0%nat = Some c
    /\ length (inflight (run c)) = 2%nat
    /\ (length (activeProperties (run c)) <= length (inflight (run c)))%nat
    /\ Job.currentProperty (job c) = Some "sc-domain:a.com, sc-domain:b.org"%string.
Proof.
  destruct (heap claimedTwo !! 0%nat) as [c |] eqn:Hc; [| vm_compute in Hc; discriminate].
  assert (Hs : steps emptyManager claimTwo = Some claimedTwo) by (vm_compute; reflexivity).
  destruct (at_most_two_properties_in_flight claimTwo claimedTwo 0%nat c Hs Hc)
    as (_ & H2 & _ & _).
  exists c. split; [exact Hs |]. split; [reflexivity |].
  split; [vm_compute in Hc; injection Hc as <-; reflexivity |].
  split; [exact H2 |].
  vm_compute in Hc. injection Hc as <-. reflexivity.
Defined.

(** X13.  No active job is lost.  When the job ids of a history are pairwise
    distinct, every job that has been started and has not reached a
    terminal status is still in the registry under its id, whatever has
    been evicted from the history since: [getStatus(id)] reports the
    status of that job object, not the reply for an unknown job, and
    [cancelJob(id)] accepts. *)
Theorem active_job_is_never_evicted
    (es : list Event) (m : Manager) (r : nat) (c : Cell) :
  steps emptyManager es = Some m ->
  NoDup (startedIds es) ->
  heap m !! r = Some c ->
  terminal (Job.status (job c)) = false ->
  getJob m (Job.id (job c)) = Some (r, c)
  /\ In (Job.id (job c)) (jobOrder m)
  /\ (forall now, getStatus now (Job.id (job c)) m = jobToStatus now (job c))
  /\ fst (cancelJob (Job.id (job c)) m) = true.
Proof.
  intros Hsteps Hnd Hc Hterm.
  destruct (reachable_registry es m Hsteps Hnd) as [_ Hdom _ _ Hact].
  pose proof (Hact r c Hc Hterm) as Hid.
  assert (Hget : getJob m (Job.id (job c)) = Some (r, c))
    by (apply getJob_Some; split; assumption).
  split; [exact Hget |].
  split; [apply Hdom; rewrite Hid; eauto |].
  split.
  - intros now. unfold getStatus. rewrite Hget. reflexivity.
  - unfold cancelJob. rewrite Hget, Hterm. reflexivity.
Qed.

Lemma active_job_is_never_evicted_witness :
  exists (m : Manager) (c : Cell),
    steps emptyManager busyHistory = Some m
    /\ NoDup (startedIds busyHistory)
    /\ heap m !! 0%nat = Some c
    /\ Job.status (job c) = Syncing
    /\ getJob m (Job.id (job c)) = Some (0%nat, c)
    /\ fst (cancelJob (Job.id (job c)) m) = true.
Proof.
  destruct (steps emptyManager busyHistory) as [m |] eqn:Hm;
    [| vm_compute in Hm; discriminate].
  assert (Hnd : NoDup (startedIds busyHistory))
    by (refine (bool_decide_unpack _ _); vm_compute; exact I).
  assert (Hj : (fun m => (fun c => Job.status (job c)) <$> heap m !! 0%nat)
                 <$> steps emptyManager busyHistory = Some (Some Syncing))
    by (vm_compute; reflexivity).
  rewrite Hm in Hj. simpl in Hj. injection Hj as Hj.
  destruct (heap m !! 0%nat) as [c |] eqn:Hc; [| discriminate].
  simpl in Hj. injection Hj as Hst.
  assert (Hterm : terminal (Job.status (job c)) = false) by (rewrite Hst; reflexivity).
  destruct (active_job_is_never_evicted busyHistory m 0%nat c Hm Hnd Hc Hterm)
    as (H1 & _ & _ & H4).
  exists m, c. repeat split; assumption.
Defined.

(** X14.  [getStatus()] without a job id.  When the job ids of a history are
    pairwise distinct, the call does not throw; it reports one status per
    tracked job, in the order in which the jobs were started, and the
    tracked jobs are the most recently started ones: the ids started so
    far are those evicted followed by those tracked.  The ids of
    [jobOrder] and the keys of [jobs] are the same. *)
Theorem getStatus_lists_tracked_jobs_in_start_order
    (es : list Event) (m : Manager) (now : Z) :
  steps emptyManager es = Some m ->
  NoDup (startedIds es) ->
  exists (evicted : list string) (statuses : list Status.t),
    getStatusAll now m = Some statuses
    /\ map Status.jobId statuses = jobOrder m
    /\ startedIds es = evicted ++ jobOrder m
    /\ (forall id, In id (jobOrder m) <-> is_Some (jobs m !! id))
    /\ (forall id, In id evicted -> getStatus now id m = notFoundStatus id).
Proof.
  intros Hsteps Hnd.
  destruct (reachable_registry es m Hsteps Hnd) as [(evicted & Hsuf) Hdom Hobj _ _].
  assert (Hall : forall order,
            (forall id, In id order -> In id (jobOrder m)) ->
            exists statuses,
              mapM (fun id => (fun rc => jobToStatus now (job (snd rc))) <$> getJob m id) order
              = Some statuses
              /\ map Status.jobId statuses = order).
  { induction order as [| id order IH]; intros Hsub.
    - exists []. split; reflexivity.
    - destruct IH as (l & Hl & Hids); [intros id' H'; apply Hsub; right; exact H' |].
      assert (Hin : In id (jobOrder m)) by (apply Hsub; left; reflexivity).
      apply Hdom in Hin. destruct Hin as [r Hr].
      destruct (Hobj id r Hr) as (c & Hc & Hid).
      exists (jobToStatus now (job c) :: l).
      split.
      + assert (Hget : getJob m id = Some (r, c))
          by (apply getJob_Some; split; assumption).
        cbn [mapM]. rewrite Hget. simpl. rewrite Hl. reflexivity.
      + simpl. rewrite Hids, Hid. reflexivity. }
  destruct (Hall (jobOrder m) (fun id H => H)) as (statuses & Hst & Hids).
  exists evicted, statuses.
  split; [exact Hst |]. split; [exact Hids |]. split; [exact Hsuf |].
  split; [exact Hdom |].
  intros id Hev. unfold getStatus, getJob.
  destruct (jobs m !! id) as [r |] eqn:Hr; [| reflexivity].
  exfalso. assert (Hin : In id (jobOrder m)) by (apply Hdom; eauto).
  rewrite Hsuf in Hnd. destruct (NoDup_suffix _ _ Hnd) as [_ Hout].
  apply (Hout id Hin Hev).
Qed.

Lemma getStatus_lists_tracked_jobs_in_start_order_witness :
  exists (m : Manager) (statuses : list Status.t),
    steps emptyManager crowdedHistory = Some m
    /\ NoDup (startedIds crowdedHistory)
    /\ getStatusAll 3 m = Some statuses
    /\ length statuses = 50%nat
    /\ getStatus 3 (jobName 0) m = notFoundStatus (jobName 0).
Proof.
  destruct (steps emptyManager crowdedHistory) as [m |] eqn:Hm;
    [| vm_compute in Hm; discriminate].
  assert (Hnd : NoDup (startedIds crowdedHistory))
    by (refine (bool_decide_unpack _ _); vm_compute; exact I).
  destruct (getStatus_lists_tracked_jobs_in_start_order crowdedHistory m 3 Hm Hnd)
    as (evicted & statuses & H1 & H2 & H3 & _ & H5).
  assert (Hord : jobOrder <$> steps emptyManager crowdedHistory
                 = Some (List.tl (startedIds crowdedHistory)))
    by (vm_compute; reflexivity).
  rewrite Hm in Hord. simpl in Hord. injection Hord as Hord.
  exists m, statuses. split; [reflexivity |]. split; [exact Hnd |]. split; [exact H1 |].
  split; [rewrite <- (length_map Status.jobId), H2, Hord; reflexivity |].
  apply H5.
  assert (Hev : evicted = [jobName 0]).
  { rewrite Hord in H3.
    change (startedIds crowdedHistory)
      with ([jobName 0] ++ List.tl (startedIds crowdedHistory)) in H3 at 1.
    apply app_inv_tail in H3. symmetry. exact H3. }
  rewrite Hev. left. reflexivity.
Defined.

End JobBookkeepingTheorems.

(* ===================================================================== *)
(** * The tables of properties and of syncs *)
(* ===================================================================== *)

Section PropertyMetaFacts.
Import PropertyMeta.

Lemma hasSite_other (s s' : string) (r : Row) :
  s' <> s -> hasSite s r = true -> hasSite s' r = false.
Proof.
  unfold hasSite. intros Hne Hs. apply String.eqb_eq in Hs. apply String.eqb_neq. congruence.
Qed.

(** The first row for [s'] of a table in which the rows for [s] were
    rewritten by [f], which keeps [site_url]. *)
Lemma find_rewritten (s s' : string) (f : Row -> Row) (t : Table) :
  (forall r, site_url (f r) = site_url r) ->
  List.find (hasSite s') (map (fun r => if hasSite s r then f r else r) t)
  = (fun r => if hasSite s r then f r else r) <$> List.find (hasSite s') t.
Proof.
  intros Hf. induction t as [| r t IH]; simpl; [reflexivity |].
  assert (Hsame : hasSite s' (if hasSite s r then f r else r) = hasSite s' r).
  { destruct (hasSite s r); [| reflexivity]. unfold hasSite. rewrite Hf. reflexivity. }
  rewrite Hsame. destruct (hasSite s' r); [reflexivity | exact IH].
Qed.

Lemma find_hasSite (s : string) (t : Table) (r : Row) :
  List.find (hasSite s) t = Some r -> hasSite s r = true /\ site_url r = s.
Proof.
  intros H. apply List.find_some in H. destruct H as [_ H].
  split; [exact H |]. apply String.eqb_eq. exact H.
Qed.

Lemma find_app_none (s : string) (t : Table) (r : Row) :
  existsb (hasSite s) t = false ->
  forall s', List.find (hasSite s') (t ++ [r])
             = match List.find (hasSite s') t with
               | Some x => Some x
               | None => if hasSite s' r then Some r else None
               end.
Proof.
  intros _ s'. induction t as [| x t IH]; simpl; [reflexivity |].
  destruct (hasSite s' x); [reflexivity | exact IH].
Qed.

Lemma existsb_find_none (s : string) (t : Table) :
  existsb (hasSite s) t = false -> List.find (hasSite s) t = None.
Proof.
  induction t as [| x t IH]; simpl; [reflexivity |].
  destruct (hasSite s x); simpl; [discriminate | exact IH].
Qed.

Lemma existsb_find_some (s : string) (t : Table) :
  existsb (hasSite s) t = true -> exists r, List.find (hasSite s) t = Some r.
Proof.
  induction t as [| x t IH]; simpl; [discriminate |].
  destruct (hasSite s x); simpl; [eauto | exact IH].
Qed.

Lemma upsert_sites (now : Z) (s p : string) (t : Table) :
  map site_url (upsertPropertyMeta now s p t)
  = if existsb (hasSite s) t then map site_url t else map site_url t ++ [s].
Proof.
  unfold upsertPropertyMeta. destruct (existsb (hasSite s) t).
  - rewrite map_map. apply map_ext. intros r. destruct (hasSite s r); reflexivity.
  - rewrite map_app. reflexivity.
Qed.

Lemma touch_sites (now : Z) (s : string) (t : Table) :
  map site_url (updateLastSynced now s t) = map site_url t.
Proof.
  unfold updateLastSynced. rewrite map_map. apply map_ext.
  intros r. destruct (hasSite s r); reflexivity.
Qed.

End PropertyMetaFacts.

Section PropertyMetaTheorems.
Import PropertyMeta.

(** What [getPropertyMeta] reads of a site after an upsert for it. *)
Lemma getPropertyMeta_upsert_same (now : Z) (s p : string) (t : Table) :
  getPropertyMeta s (upsertPropertyMeta now s p t)
  = Some {| siteUrl := s; permissionLevel := Some p;
            lastSyncedAt := getPropertyMeta s t ≫= lastSyncedAt |}.
Proof.
  unfold upsertPropertyMeta, getPropertyMeta.
  destruct (existsb (hasSite s) t) eqn:E.
  - destruct (existsb_find_some s t E) as [r Hr].
    rewrite find_rewritten by reflexivity. rewrite Hr. simpl.
    destruct (find_hasSite s t r Hr) as [Hs Hu]. rewrite Hs. simpl. rewrite Hu. reflexivity.
  - pose proof (existsb_find_none s t E) as Hn.
    rewrite (find_app_none s t _ E), Hn. simpl.
    unfold hasSite at 1. simpl. rewrite String.eqb_refl. reflexivity.
Qed.

(** X15.  [upsertPropertyMeta] and [getPropertyMeta].  After an upsert for a
    site, [getPropertyMeta] of that site returns the permission level
    just written, and the [lastSyncedAt] that it returned before (null
    for a site that had no row): an upsert does not reset the time of the
    last sync.  The answer for every other site is as before, and the
    table gains a row only when the site had none. *)
Theorem getPropertyMeta_after_upsert (now : Z) (s p : string) (t : Table) :
  let t' := upsertPropertyMeta now s p t in
  getPropertyMeta s t'
  = Some {| siteUrl := s; permissionLevel := Some p;
            lastSyncedAt := getPropertyMeta s t ≫= lastSyncedAt |}
  /\ (forall s', s' <> s -> getPropertyMeta s' t' = getPropertyMeta s' t)
  /\ length t' = match getPropertyMeta s t with
                 | Some _ => length t
                 | None => S (length t)
                 end.
Proof.
  intros t'. subst t'. split; [apply getPropertyMeta_upsert_same |].
  unfold upsertPropertyMeta, getPropertyMeta.
  destruct (existsb (hasSite s) t) eqn:E.
  - destruct (existsb_find_some s t E) as [r Hr].
    split.
    + intros s' Hne. rewrite find_rewritten by reflexivity.
      destruct (List.find (hasSite s') t) as [x |] eqn:Hx; simpl; [| reflexivity].
      destruct (find_hasSite s' t x Hx) as [Hs' _].
      destruct (hasSite s x) eqn:Hsx; [| reflexivity].
      rewrite (hasSite_other s' s x) in Hsx; [discriminate | congruence | exact Hs'].
    + rewrite Hr, length_map. reflexivity.
  - pose proof (existsb_find_none s t E) as Hn.
    split.
    + intros s' Hne. rewrite (find_app_none s t _ E).
      destruct (List.find (hasSite s') t); [reflexivity |].
      unfold hasSite at 1. simpl.
      destruct (String.eqb_spec s s'); [congruence | reflexivity].
    + rewrite Hn, length_app. simpl. lia.
Qed.

(** X16.  [updateLastSynced] sets the time of the last sync of a site that has
    a row and does nothing for a site that has none: it creates no row,
    and [getPropertyMeta] still returns null.  No other site is
    touched.  After [upsertPropertyMeta] and then [updateLastSynced] for
    one site, as a sync that stored rows calls them, the site reads the
    permission level of the upsert and the time of the update. *)
Theorem updateLastSynced_sets_time_of_known_site (now : Z) (s : string) (t : Table) :
  let t' := updateLastSynced now s t in
  getPropertyMeta s t'
  = (fun m => {| siteUrl := siteUrl m; permissionLevel := permissionLevel m;
                 lastSyncedAt := Some now |}) <$> getPropertyMeta s t
  /\ (getPropertyMeta s t = None -> t' = t)
  /\ (forall s', s' <> s -> getPropertyMeta s' t' = getPropertyMeta s' t)
  /\ length t' = length t
  /\ (forall now0 p,
        getPropertyMeta s (updateLastSynced now s (upsertPropertyMeta now0 s p t))
        = Some {| siteUrl := s; permissionLevel := Some p; lastSyncedAt := Some now |}).
Proof.
  intros t'. subst t'.
  assert (Hget : forall t0,
            getPropertyMeta s (updateLastSynced now s t0)
            = (fun m => {| siteUrl := siteUrl m; permissionLevel := permissionLevel m;
                           lastSyncedAt := Some now |}) <$> getPropertyMeta s t0).
  { intros t0. unfold updateLastSynced, getPropertyMeta.
    rewrite find_rewritten by reflexivity.
    destruct (List.find (hasSite s) t0) as [r |] eqn:Hr; simpl; [| reflexivity].
    destruct (find_hasSite s t0 r Hr) as [Hs _]. rewrite Hs. reflexivity. }
  split; [apply Hget |]. split; [| split; [| split]].
  - unfold getPropertyMeta, updateLastSynced.
    destruct (List.find (hasSite s) t) as [r |] eqn:Hr; [discriminate |]. intros _.
    induction t as [| x t IH]; simpl in *; [reflexivity |].
    destruct (hasSite s x); [discriminate |]. rewrite (IH Hr). reflexivity.
  - intros s' Hne. unfold updateLastSynced, getPropertyMeta.
    rewrite find_rewritten by reflexivity.
    destruct (List.find (hasSite s') t) as [x |] eqn:Hx; simpl; [| reflexivity].
    destruct (find_hasSite s' t x Hx) as [Hs' _].
    destruct (hasSite s x) eqn:Hsx; [| reflexivity].
    rewrite (hasSite_other s' s x) in Hsx; [discriminate | congruence | exact Hs'].
  - unfold updateLastSynced. apply length_map.
  - intros now0 p. rewrite Hget.
    rewrite getPropertyMeta_upsert_same. reflexivity.
Qed.

(** X17.  The column [site_url] stays unique: in the table that any history of
    [upsertPropertyMeta] and [updateLastSynced] leaves, no two rows have
    the same site. *)
Theorem property_meta_has_one_row_per_site (ops : list Op) :
  NoDup (map site_url (tableAfter ops)).
Proof.
  unfold tableAfter.
  assert (H : NoDup (map site_url (@nil Row))) by constructor.
  revert H. generalize (@nil Row). induction ops as [| op ops IH]; intros t H; simpl.
  - exact H.
  - apply IH. destruct op as [now s p | now s]; simpl.
    + rewrite upsert_sites. destruct (existsb (hasSite s) t) eqn:E; [exact H |].
      apply NoDup_app. split; [exact H |]. split; [| apply NoDup_singleton].
      intros x Hx Hxs. apply list_elem_of_singleton in Hxs. subst x.
      apply list_elem_of_In, in_map_iff in Hx. destruct Hx as (r & Hr & Hin).
      assert (Hex : existsb (hasSite s) t = true).
      { apply existsb_exists. exists r. split; [exact Hin |].
        unfold hasSite. rewrite Hr. apply String.eqb_refl. }
      congruence.
    + rewrite touch_sites. exact H.
Qed.

End PropertyMetaTheorems.

Section SyncLogFacts.
Import Dates SyncLog.


Lemma apply_idsCounted (t : Table) (op : Op) : idsCounted t -> idsCounted (apply t op).
Proof.
  intros [Hids Hseq]. destruct op as [now e | now logId u]; simpl.
  - unfold idsCounted. simpl. rewrite length_app. simpl.
    rewrite Nat.add_1_r. rewrite seq_S, !map_app. simpl. rewrite Hids, Hseq.
    split; [f_equal; f_equal; lia | lia].
  - unfold updateSyncLog. destruct (noFields u); [split; assumption |].
    unfold idsCounted. simpl. rewrite length_map, map_map.
    split; [| exact Hseq]. rewrite <- Hids. apply map_ext.
    intros r. destruct (id r =? logId); reflexivity.
Qed.

Lemma tableAfter_idsCounted (ops : list Op) : idsCounted (tableAfter ops).
Proof.
  unfold tableAfter.
  assert (H : idsCounted emptyTable) by (split; reflexivity).
  revert H. generalize emptyTable. induction ops as [| op ops IH]; intros t H; simpl.
  - exact H.
  - apply IH. apply apply_idsCounted. exact H.
Qed.

Lemma idsCounted_below (t : Table) (r : Row) :
  idsCounted t -> In r (rows t) -> 1 <= id r <= sequence t.
Proof.
  intros [Hids Hseq] Hin. apply (in_map id) in Hin. rewrite Hids in Hin.
  apply in_map_iff in Hin. destruct Hin as (n & <- & Hn). apply in_seq in Hn. lia.
Qed.

End SyncLogFacts.

Section SyncLogTheorems.
Import Dates SyncLog.

(** X18.  The log row of a sync.  [createSyncLog] returns an id that no row
    has had before, the number of rows plus one, and appends the row; the
    closing [updateSyncLog] with that id rewrites the counts and the
    status of that row and no other row.  The row gets a completion time
    only when the final status is completed or error: the log row of a
    cancelled sync keeps [completed_at] NULL. *)
Theorem sync_log_row_of_a_sync
    (ops : list Op) (now1 now2 : Z) (e : Entry) (fetched inserted : Z)
    (finalStatus : string) :
  let t := tableAfter ops in
  let created := createSyncLog now1 e t in
  let closed := updateSyncLog now2 (fst created)
                  (finalUpdate fetched inserted finalStatus) (snd created) in
  fst created = Z.of_nat (length (rows t)) + 1
  /\ Forall (fun r => id r < fst created) (rows t)
  /\ rows closed
     = rows t
       ++ [ {| id := fst created;
               entry := {| syncType := syncType e;
                           dimensions := dimensions e;
                           dateFrom := dateFrom e;
                           dateTo := dateTo e;
                           rowsFetched := fetched;
                           rowsInserted := inserted;
                           status := finalStatus;
                           errorMessage := errorMessage e |};
               started_at := now1;
               completed_at :=
                 if (String.eqb finalStatus "completed" || String.eqb finalStatus "error")%bool
                 then Some now2 else None |} ].
Proof.
  intros t created closed. subst closed created.
  pose proof (tableAfter_idsCounted ops) as Hinv. fold t in Hinv.
  assert (Hbelow : Forall (fun r => id r < sequence t + 1) (rows t)).
  { apply Forall_forall. intros r Hr. apply list_elem_of_In in Hr.
    pose proof (idsCounted_below t r Hinv Hr). lia. }
  destruct Hinv as [_ Hseq].
  unfold createSyncLog. cbn [fst snd].
  split; [lia |]. split; [exact Hbelow |].
  unfold updateSyncLog, finalUpdate. cbn [noFields u_rowsFetched rows sequence].
  rewrite map_app. f_equal.
  - rewrite <- (map_id (rows t)) at 2. apply map_ext_in.
    intros r Hr. rewrite Forall_forall in Hbelow.
    apply list_elem_of_In in Hr. specialize (Hbelow r Hr). cbv beta in Hbelow.
    destruct (Z.eqb_spec (id r) (sequence t + 1)); [lia | reflexivity].
  - cbn [map id]. rewrite Z.eqb_refl. reflexivity.
Qed.

End SyncLogTheorems.

Section DateRangeFacts.
Import Dates Database DateRange.

Lemma date_min_le_l (a b : DateText) : date_leb (date_min a b) a = true.
Proof.
  unfold date_min. destruct (date_ltb b a) eqn:E; [| apply date_leb_refl].
  unfold date_leb. destruct a, b; simpl in *; try reflexivity; try discriminate.
  rewrite negb_true_iff, Z.ltb_ge. apply Z.ltb_lt in E. lia.
Qed.

Lemma date_min_le_r (a b : DateText) : date_leb (date_min a b) b = true.
Proof.
  unfold date_min. destruct (date_ltb b a) eqn:E; [apply date_leb_refl |].
  unfold date_leb. rewrite E. reflexivity.
Qed.

Lemma date_min_cases (a b : DateText) : date_min a b = a \/ date_min a b = b.
Proof. unfold date_min. destruct (date_ltb b a); auto. Qed.

Lemma fold_min_spec (rest : list StoredRow) :
  forall m0 : DateText,
    let m := fold_left (fun m s => date_min m (date (data s))) rest m0 in
    date_leb m m0 = true
    /\ (forall s, In s rest -> date_leb m (date (data s)) = true)
    /\ (m = m0 \/ exists s, In s rest /\ date (data s) = m).
Proof.
  induction rest as [| r rest IH]; intros m0; simpl.
  - split; [apply date_leb_refl |]. split; [intros s [] | left; reflexivity].
  - destruct (IH (date_min m0 (date (data r)))) as (Hle & Hall & Hwit).
    split; [eapply date_leb_trans; [exact Hle | apply date_min_le_l] |].
    split.
    + intros s [<- | Hin]; [| apply Hall; exact Hin].
      eapply date_leb_trans; [exact Hle | apply date_min_le_r].
    + destruct Hwit as [Heq | (s & Hin & Hs)].
      * destruct (date_min_cases m0 (date (data r))) as [Hm | Hm].
        -- left. rewrite Heq. exact Hm.
        -- right. exists r. split; [left; reflexivity |]. rewrite Heq. symmetry. exact Hm.
      * right. exists s. split; [right; exact Hin | exact Hs].
Qed.

End DateRangeFacts.

Section DateRangeTheorems.
Import Dates Database DateRange.

(** X19.  [getDateRange()] returns null exactly when the table is empty or
    holds a row with the empty date, which a sync without the date
    dimension writes.  Otherwise it returns two days, the earliest and
    the latest stored: every stored date lies between them, both are
    stored, and the latest is what [getLastSyncDate] returns. *)
Theorem getDateRange_bounds_the_stored_dates (db : Db) :
  (getDateRange db = None
   <-> search_analytics db = []
       \/ exists r, In r (search_analytics db) /\ date (data r) = EmptyDate)
  /\ (forall minDate maxDate,
        getDateRange db = Some (minDate, maxDate) ->
        exists a b : IsoDay,
          minDate = Day a /\ maxDate = Day b /\ a <= b
          /\ (forall r, In r (search_analytics db) ->
                exists d, date (data r) = Day d /\ a <= d <= b)
          /\ (exists r, In r (search_analytics db) /\ date (data r) = Day a)
          /\ (exists r, In r (search_analytics db) /\ date (data r) = Day b)
          /\ forall siteUrl, getLastSyncDate db siteUrl = Some maxDate).
Proof.
  unfold getDateRange, getLastSyncDate, sqlMaxDate.
  destruct (search_analytics db) as [| r rest] eqn:Hrows.
  - split; [split; [auto | reflexivity] | discriminate].
  - destruct (fold_min_spec rest (date (data r))) as (Hle0 & Hle & Hwit).
    destruct (fold_max_spec rest (date (data r))) as (Hge0 & Hge & Hwit').
    cbv zeta in *.
    set (mn := fold_left (fun m s => date_min m (date (data s))) rest (date (data r))) in *.
    set (mx := fold_left (fun m s => date_max m (date (data s))) rest (date (data r))) in *.
    assert (Hmin_in : exists s, In s (r :: rest) /\ date (data s) = mn).
    { destruct Hwit as [-> | (s & Hs & Hd)]; [exists r; split; [left |]; reflexivity |].
      exists s. split; [right; exact Hs | exact Hd]. }
    assert (Hmax_in : exists s, In s (r :: rest) /\ date (data s) = mx).
    { destruct Hwit' as [-> | (s & Hs & Hd)]; [exists r; split; [left |]; reflexivity |].
      exists s. split; [right; exact Hs | exact Hd]. }
    assert (Hall : forall s, In s (r :: rest) ->
                     date_leb mn (date (data s)) = true /\ date_leb (date (data s)) mx = true).
    { intros s [<- | Hs]; [split; assumption |]. split; [apply Hle | apply Hge]; exact Hs. }
    split.
    + split.
      * destruct mn eqn:Emn; [| discriminate]. intros _. right.
        destruct Hmin_in as (s & Hs & Hd). exists s. split; assumption.
      * intros [Habs | (s & Hs & Hd)]; [discriminate |].
        destruct (Hall s Hs) as [Hlo _]. rewrite Hd in Hlo.
        destruct mn; [reflexivity |]. unfold date_leb in Hlo. simpl in Hlo. discriminate.
    + intros minDate maxDate Hsome.
      destruct mn as [| a] eqn:Emn; [discriminate |]. injection Hsome as <- <-.
      assert (Hday : forall s, In s (r :: rest) -> exists d, date (data s) = Day d /\ a <= d).
      { intros s Hs. destruct (Hall s Hs) as [Hlo _].
        destruct (date (data s)) as [| d]; [unfold date_leb in Hlo; simpl in Hlo; discriminate |].
        exists d. split; [reflexivity |].
        unfold date_leb in Hlo. simpl in Hlo. apply negb_true_iff, Z.ltb_ge in Hlo. lia. }
      destruct Hmax_in as (sx & Hsx & Hdx).
      destruct (Hday sx Hsx) as (b & Hb & Hab). rewrite Hdx in Hb.
      exists a, b. split; [reflexivity |]. split; [exact Hb |]. split; [exact Hab |].
      split.
      { intros s Hs. destruct (Hday s Hs) as (d & Hd & Had).
        exists d. split; [exact Hd |]. split; [exact Had |].
        destruct (Hall s Hs) as [_ Hhi]. rewrite Hd, Hb in Hhi.
        unfold date_leb in Hhi. simpl in Hhi. apply negb_true_iff, Z.ltb_ge in Hhi. lia. }
      split; [destruct Hmin_in as (s & Hs & Hd); exists s; split; assumption |].
      split; [exists sx; split; [exact Hsx | congruence] |].
      intros _. reflexivity.
Qed.

End DateRangeTheorems.

(* ===================================================================== *)
(** * The Search Console client *)
(* ===================================================================== *)

Section GscClientFacts.
Import GscClient GscClientVocabulary.
Variable StringToNumber : string -> option Z.

Lemma withRetry_loop_spec {T : Type} (fn : nat -> Attempt T) (retries : Z) (left : nat) :
  forall (attempt : nat) (slept : list Z),
    Z.of_nat attempt + Z.of_nat left = retries + 1 ->
    (0 < left)%nat ->
    (forall k, (k < attempt)%nat ->
               exists e, fn k = Fail e /\ isRetryable StringToNumber e = true) ->
    slept = map retryDelay (seq 0 attempt) ->
    let r := withRetry_loop StringToNumber fn retries left attempt slept in
    (attempt < calls r)%nat /\ Z.of_nat (calls r) <= retries + 1
    /\ settled r = match fn (calls r - 1)%nat with
                   | Ok v => Resolved v
                   | Fail e => Rejected e
                   end
    /\ (forall k, (k < calls r - 1)%nat ->
                  exists e, fn k = Fail e /\ isRetryable StringToNumber e = true)
    /\ (forall e, settled r = Rejected e ->
                  isRetryable StringToNumber e = false \/ Z.of_nat (calls r) = retries + 1)
    /\ delays r = map retryDelay (seq 0 (calls r - 1)).
Proof.
  induction left as [| left IH]; intros attempt slept Hsum Hpos Hfailed Hslept; [lia |].
  cbn [withRetry_loop].
  destruct (fn attempt) as [v | err] eqn:Hfn.
  - cbn [calls settled delays]. replace (S attempt - 1)%nat with attempt by lia.
    rewrite Hfn. repeat split; try lia; try assumption. discriminate.
  - destruct (negb (isRetryable StringToNumber err) || (Z.of_nat attempt =? retries)) eqn:Hstop.
    + cbn [calls settled delays]. replace (S attempt - 1)%nat with attempt by lia.
      rewrite Hfn. repeat split; try lia; try assumption.
      intros e [= <-]. apply orb_prop in Hstop. destruct Hstop as [H | H].
      * left. apply negb_true_iff. exact H.
      * right. apply Z.eqb_eq in H. lia.
    + apply orb_false_elim in Hstop. destruct Hstop as [Hre Hne].
      apply negb_false_iff in Hre. apply Z.eqb_neq in Hne.
      destruct (IH (S attempt) (slept ++ [retryDelay attempt])) as (H1 & H2 & H3 & H4 & H5 & H6).
      * lia.
      * lia.
      * intros k Hk. destruct (decide (k = attempt)) as [-> | Hk'];
          [exists err; split; assumption | apply Hfailed; lia].
      * rewrite seq_S, map_app, Hslept. reflexivity.
      * repeat split; try assumption; lia.
Qed.

(** The delays of the default [MAX_RETRIES]. *)
Lemma delays_default (n : nat) :
  (n <= 3)%nat -> sumZ (map retryDelay (seq 0 n)) <= 7000.
Proof.
  intros Hn. destruct n as [| [| [| [| n]]]]; try lia; vm_compute; discriminate.
Qed.

(** ** The paging loop *)

Lemma withRetry_first_ok {T : Type} (fn : nat -> Attempt T) (v : T) :
  fn 0%nat = Ok v ->
  withRetry StringToNumber fn MAX_RETRIES
  = {| settled := Resolved v; calls := 1; delays := [] |}.
Proof. intros H. unfold withRetry. simpl. rewrite H. reflexivity. Qed.

Lemma allRows_snoc (ps : list PageResult) (p : PageResult) :
  allRows (ps ++ [p]) = allRows ps ++ rows p.
Proof. unfold allRows. rewrite map_app, concat_app. simpl. rewrite app_nil_r. reflexivity. Qed.

Lemma pagesFrom_snoc (ps : list PageResult) :
  forall (start : Z) (p : PageResult),
    pagesFrom start ps ->
    startRow p = start + Z.of_nat (length (allRows ps)) ->
    totalSoFar p = startRow p + Z.of_nat (length (rows p)) ->
    rows p <> [] ->
    pagesFrom start (ps ++ [p]).
Proof.
  induction ps as [| q ps IH]; intros start p Hps Hstart Htotal Hne; simpl in *.
  - rewrite Z.add_0_r in Hstart. repeat split; try assumption. lia.
  - destruct Hps as (Hq1 & Hq2 & Hq3 & Hrest).
    repeat split; try assumption.
    apply IH; try assumption.
    unfold allRows in *. simpl in Hstart. rewrite length_app in Hstart. lia.
Qed.


Lemma fetch_loop_accounts (server : Server) (aborted : nat -> bool)
    (siteUrl : string) (options : FetchOptions) (fuel : nat) :
  forall (iteration : nat) (f f' : Fetched) (total start0 : Z),
    loopHead f total start0 ->
    fetch_loop StringToNumber server aborted siteUrl options fuel iteration f
      total start0 = Some f' ->
    pagesFrom 0 (pages f')
    /\ (forall n, result f' = Resolved n -> n = Z.of_nat (length (allRows (pages f'))))
    /\ (exists more, pages f' = pages f ++ more)
    /\ (exists more, requests f' = requests f ++ more
                     /\ Forall (fun req => req = request siteUrl options (req_startRow req)
                                           /\ total <= req_startRow req) more)
    /\ (httpCalls f <= httpCalls f')%nat.
Proof.
  induction fuel as [| fuel IH]; intros iteration f f' total start0 Hhead Hrun;
    [discriminate |].
  destruct Hhead as (Hpages & Htotal & Hstart).
  cbn [fetch_loop] in Hrun.
  destruct (aborted iteration).
  { injection Hrun as <-. cbn [pages result requests httpCalls].
    split; [exact Hpages |]. split; [intros n [= <-]; exact Htotal |].
    split; [exists []; rewrite app_nil_r; reflexivity |].
    split; [exists []; rewrite app_nil_r; split; [reflexivity | constructor] | lia]. }
  cbv zeta in Hrun.
  set (req := request siteUrl options start0) in *.
  set (response := withRetry StringToNumber (fun k => server (httpCalls f + k)%nat req)
                     MAX_RETRIES) in *.
  assert (Hreq : Forall (fun r => r = request siteUrl options (req_startRow r)
                                  /\ total <= req_startRow r) [req]).
  { constructor; [| constructor]. subst req. cbn [request req_startRow]. split; [reflexivity | lia]. }
  destruct (settled response) as [data | err |] eqn:Hsettled; cbn [pages result requests httpCalls] in Hrun.
  - set (got := default [] data) in *.
    set (total' := total + Z.of_nat (length got)) in *.
    set (delivered := if 0 <? Z.of_nat (length got)
                      then pages f ++ [ {| rows := got; totalSoFar := total';
                                           startRow := start0 |} ]
                      else pages f) in *.
    assert (Hdel : pagesFrom 0 delivered
                   /\ total' = Z.of_nat (length (allRows delivered))
                   /\ exists more, delivered = pages f ++ more).
    { subst delivered. destruct (Z.ltb_spec 0 (Z.of_nat (length got))) as [Hpos | Hzero].
      - split; [| split].
        + apply pagesFrom_snoc; cbn [startRow totalSoFar rows]; try assumption; try lia.
          intros Habs. rewrite Habs in Hpos. simpl in Hpos. lia.
        + rewrite allRows_snoc, length_app. cbn [rows]. lia.
        + eexists. reflexivity.
      - split; [exact Hpages |]. split; [lia |]. exists []. rewrite app_nil_r. reflexivity. }
    destruct Hdel as (Hdel1 & Hdel2 & (more0 & Hdel3)).
    destruct (Z.of_nat (length got) <? effectiveRowLimit options).
    + injection Hrun as <-. cbn [pages result requests httpCalls].
      split; [exact Hdel1 |]. split; [intros n [= <-]; exact Hdel2 |].
      split; [exists more0; exact Hdel3 |].
      split; [exists [req]; split; [reflexivity | exact Hreq] | lia].
    + apply IH in Hrun.
      * cbn [pages result requests httpCalls] in Hrun.
        destruct Hrun as (H1 & H2 & (more1 & H3) & (more2 & H4 & H5) & H6).
        split; [exact H1 |]. split; [exact H2 |].
        split; [exists (more0 ++ more1); rewrite H3, Hdel3, app_assoc; reflexivity |].
        split; [| lia].
        exists ([req] ++ more2). split; [rewrite H4, app_assoc; reflexivity |].
        apply Forall_app. split; [exact Hreq |].
        eapply Forall_impl; [exact H5 |]. cbv beta. intros r [Hr1 Hr2]. split; [exact Hr1 | lia].
      * unfold loopHead. cbn [pages]. split; [exact Hdel1 |]. split; [exact Hdel2 | lia].
  - injection Hrun as <-. cbn [pages result requests httpCalls].
    split; [exact Hpages |]. split; [discriminate |].
    split; [exists []; rewrite app_nil_r; reflexivity |].
    split; [exists [req]; split; [reflexivity | exact Hreq] | lia].
  - injection Hrun as <-. cbn [pages result requests httpCalls].
    split; [exact Hpages |]. split; [discriminate |].
    split; [exists []; rewrite app_nil_r; reflexivity |].
    split; [exists [req]; split; [reflexivity | exact Hreq] | lia].
Qed.

Lemma slice_length (data : list GscApiRow) (req : Request) (i l : nat) :
  req_rowLimit req = Z.of_nat l -> req_startRow req = Z.of_nat (i * l) ->
  slice data req = take l (drop (i * l) data).
Proof. intros Hl Hs. unfold slice. rewrite Hl, Hs, !Nat2Z.id. reflexivity. Qed.

Lemma fetch_loop_serves (server : Server) (data : list GscApiRow)
    (siteUrl : string) (options : FetchOptions) (l : nat) :
  serves server data -> effectiveRowLimit options = Z.of_nat l -> (0 < l)%nat ->
  forall (fuel i iteration : nat) (f : Fetched) (total start0 : Z),
    total = Z.of_nat (i * l) -> start0 = total ->
    (i * l <= length data)%nat ->
    (length data - i * l < fuel)%nat ->
    allRows (pages f) = take (i * l) data ->
    exists f',
      fetch_loop StringToNumber server neverAborted siteUrl options fuel iteration f
        total start0 = Some f'
      /\ result f' = Resolved (Z.of_nat (length data))
      /\ allRows (pages f') = data
      /\ map req_startRow (requests f')
         = map req_startRow (requests f)
           ++ map (fun k => Z.of_nat (k * l)) (seq i (length data / l + 1 - i))
      /\ httpCalls f' = (httpCalls f + (length data / l + 1 - i))%nat.
Proof.
  intros Hserves Hlimit Hl.
  induction fuel as [| fuel IH]; intros i iteration f total start0 Htotal Hstart Hle Hfuel Hrows;
    [lia |].
  cbn [fetch_loop]. unfold neverAborted at 1. cbv zeta.
  set (req := request siteUrl options start0).
  assert (Hresp : withRetry StringToNumber (fun k => server (httpCalls f + k)%nat req) MAX_RETRIES
                  = {| settled := Resolved (Some (slice data req)); calls := 1; delays := [] |})
    by (apply withRetry_first_ok; apply Hserves).
  rewrite Hresp. cbn [settled calls pages result requests httpCalls default from_option id].
  assert (Hslice : slice data req = take l (drop (i * l) data)).
  { apply slice_length; subst req; cbn [request req_rowLimit req_startRow]; [exact Hlimit | lia]. }
  rewrite Hslice.
  set (got := take l (drop (i * l) data)).
  assert (Hgot : length got = Nat.min l (length data - i * l))
    by (subst got; rewrite length_take, length_drop; reflexivity).
  assert (Hjoin : take (i * l) data ++ got = take (i * l + l) data).
  { subst got. apply take_take_drop. }
  rewrite Hlimit.
  destruct (Z.ltb_spec (Z.of_nat (length got)) (Z.of_nat l)) as [Hshort | Hfull].
  - (* the last page *)
    assert (Hrest : (length data - i * l < l)%nat) by lia.
    assert (Hdiv : (length data / l = i)%nat).
    { symmetry. apply (Nat.div_unique _ _ _ (length data - i * l)%nat); lia. }
    eexists. split; [reflexivity |]. cbn [result pages requests httpCalls].
    split; [f_equal; lia |]. split; [| split].
    + destruct (Z.ltb_spec 0 (Z.of_nat (length got))).
      * rewrite allRows_snoc. cbn [rows]. rewrite Hrows, Hjoin. apply take_ge. lia.
      * rewrite Hrows. apply take_ge. lia.
    + rewrite map_app. f_equal. rewrite Hdiv.
      replace (i + 1 - i)%nat with 1%nat by lia. cbn [seq map app].
      subst req. cbn [request req_startRow]. f_equal. lia.
    + rewrite Hdiv. lia.
  - (* a full page *)
    assert (Hnext : (S i * l <= length data)%nat) by (simpl; lia).
    assert (Hdiv : (S i <= length data / l)%nat).
    { apply Nat.div_le_lower_bound; lia. }
    assert (Hpos : (0 <? Z.of_nat (length got)) = true) by (apply Z.ltb_lt; lia).
    rewrite Hpos.
    match goal with |- context [fetch_loop _ _ _ _ _ fuel (S iteration) ?g ?t ?s] =>
      destruct (IH (S i) (S iteration) g t s) as (f' & Hrun & H1 & H2 & H3 & H4)
    end.
    + rewrite Htotal. simpl. lia.
    + lia.
    + exact Hnext.
    + simpl. lia.
    + cbn [pages]. rewrite allRows_snoc. cbn [rows]. rewrite Hrows, Hjoin.
      f_equal. simpl. lia.
    + exists f'. split; [exact Hrun |]. split; [exact H1 |]. split; [exact H2 |].
      cbn [requests httpCalls] in H3, H4. split.
      * rewrite H3, map_app, <- app_assoc. f_equal.
        replace (length data / l + 1 - i)%nat with (S (length data / l + 1 - S i)) by lia.
        cbn [seq map app]. f_equal. subst req. cbn [request req_startRow]. lia.
      * rewrite H4. lia.
Qed.

End GscClientFacts.

Section GscClientTheorems.
Import GscClient GscClientVocabulary GscClientExamples.

(** X20.  [withRetry] with a number of retries that is not negative.  It
    calls [fn] at least once and at most [retries + 1] times; it settles
    as the last call did; every call before the last failed with a
    retryable status; an error it rejects with is not retryable, or is
    the error of call number [retries + 1].  Before the retry after
    attempt [k] it sleeps [min(1000 * 2^k, 30000)] ms, which for the
    default of three retries adds up to 7000 ms at most.  It never ends
    with the error 'Unreachable'. *)
Theorem withRetry_gives_up_after_retries
    (StringToNumber : string -> option Z) (T : Type) (fn : nat -> Attempt T) (retries : Z) :
  0 <= retries ->
  let r := withRetry StringToNumber fn retries in
  (1 <= calls r)%nat /\ Z.of_nat (calls r) <= retries + 1
  /\ settled r = match fn (calls r - 1)%nat with
                 | Ok v => Resolved v
                 | Fail e => Rejected e
                 end
  /\ (forall k, (k < calls r - 1)%nat ->
                exists e, fn k = Fail e /\ isRetryable StringToNumber e = true)
  /\ (forall e, settled r = Rejected e ->
                isRetryable StringToNumber e = false \/ Z.of_nat (calls r) = retries + 1)
  /\ delays r = map retryDelay (seq 0 (calls r - 1))
  /\ (retries = MAX_RETRIES -> sumZ (delays r) <= 7000).
Proof.
  intros Hretries r. subst r. unfold withRetry.
  destruct (withRetry_loop_spec StringToNumber fn retries (Z.to_nat (retries + 1)) 0%nat [])
    as (H1 & H2 & H3 & H4 & H5 & H6); try lia; try reflexivity.
  cbv zeta in *.
  split; [lia |]. split; [exact H2 |]. split; [exact H3 |]. split; [exact H4 |].
  split; [exact H5 |]. split; [exact H6 |].
  intros ->. rewrite H6. apply delays_default. unfold MAX_RETRIES in *. lia.
Qed.

Lemma withRetry_gives_up_after_retries_witness :
  0 <= MAX_RETRIES
  /\ calls (withRetry decimalNumber thirdTime MAX_RETRIES) = 3%nat
  /\ settled (withRetry decimalNumber thirdTime MAX_RETRIES) = Resolved 7
  /\ delays (withRetry decimalNumber thirdTime MAX_RETRIES) = [1000; 2000]
  /\ sumZ (delays (withRetry decimalNumber thirdTime MAX_RETRIES)) <= 7000.
Proof.
  assert (H0 : 0 <= MAX_RETRIES) by (unfold MAX_RETRIES; lia).
  split; [exact H0 |].
  destruct (withRetry_gives_up_after_retries decimalNumber Z thirdTime MAX_RETRIES H0)
    as (_ & _ & _ & _ & _ & _ & H7).
  split; [reflexivity |]. split; [reflexivity |]. split; [reflexivity |].
  apply H7. reflexivity.
Defined.

(** X21.  Paging is complete.  When the API serves a result set, answering
    every request with the rows from [startRow] on, [rowLimit] at most,
    and the fetch is not aborted, [fetchSearchAnalytics] returns the size
    of the result set and hands every row to [onPage] exactly once, in
    order; the requests ask for the rows at 0, limit, 2 * limit, ..., one
    request more than there are full pages, and each is sent once. *)
Theorem fetchSearchAnalytics_fetches_every_row_once
    (StringToNumber : string -> option Z) (server : Server) (data : list GscApiRow)
    (httpCallsBefore : nat) (siteUrl : string) (options : FetchOptions) :
  serves server data ->
  0 < effectiveRowLimit options ->
  let limit := Z.to_nat (effectiveRowLimit options) in
  exists f : Fetched,
    fetchSearchAnalytics StringToNumber server neverAborted httpCallsBefore siteUrl options
      (S (length data)) = Some f
    /\ result f = Resolved (Z.of_nat (length data))
    /\ allRows (pages f) = data
    /\ pagesFrom 0 (pages f)
    /\ map req_startRow (requests f)
       = map (fun k => Z.of_nat (k * limit)) (seq 0 (length data / limit + 1))
    /\ httpCalls f = (httpCallsBefore + (length data / limit + 1))%nat.
Proof.
  intros Hserves Hpos limit. unfold fetchSearchAnalytics.
  destruct (fetch_loop_serves StringToNumber server data siteUrl options limit Hserves)
    with (fuel := S (length data)) (i := 0%nat) (iteration := 0%nat)
         (f := {| result := Resolved 0; pages := []; requests := [];
                  httpCalls := httpCallsBefore |})
         (total := 0) (start0 := 0)
    as (f & Hrun & H1 & H2 & H3 & H4); try reflexivity; try (subst limit; lia).
  exists f. split; [exact Hrun |]. split; [exact H1 |]. split; [exact H2 |].
  split.
  - eapply fetch_loop_accounts; [| exact Hrun]. repeat split.
  - cbn [requests httpCalls map app] in H3, H4. rewrite Nat.sub_0_r in H3, H4.
    split; assumption.
Qed.

Lemma fetchSearchAnalytics_fetches_every_row_once_witness :
  exists f : Fetched,
    serves bySlices fiveRows
    /\ fetchSearchAnalytics decimalNumber bySlices neverAborted 0 "sc-domain:a.com"
         twoAtATime 6 = Some f
    /\ result f = Resolved 5
    /\ allRows (pages f) = fiveRows
    /\ map req_startRow (requests f) = [0; 2; 4].
Proof.
  assert (Hs : serves bySlices fiveRows) by (intros k req; reflexivity).
  destruct (fetchSearchAnalytics_fetches_every_row_once decimalNumber bySlices fiveRows 0
              "sc-domain:a.com" twoAtATime Hs eq_refl) as (f & H1 & H2 & H3 & _ & H5 & _).
  exists f. split; [exact Hs |]. split; [exact H1 |]. split; [exact H2 |].
  split; [exact H3 | exact H5].
Defined.

(** X22.  The accounting of a fetch, whatever the API answers and whenever the
    signal is aborted.  If [fetchSearchAnalytics] ends, every page it
    handed to [onPage] is non-empty, starts at the number of rows of the
    pages before it and reports that number plus its own rows as
    [totalSoFar]; a fetch that returns, returns the number of rows of
    the pages it handed over; every request carries the options of the
    call; and a fetch whose signal is aborted from the start sends no
    request and returns 0. *)
Theorem fetchSearchAnalytics_counts_the_rows_it_hands_over
    (StringToNumber : string -> option Z) (server : Server) (aborted : nat -> bool)
    (httpCallsBefore : nat) (siteUrl : string) (options : FetchOptions) (fuel : nat)
    (f : Fetched) :
  fetchSearchAnalytics StringToNumber server aborted httpCallsBefore siteUrl options fuel
    = Some f ->
  pagesFrom 0 (pages f)
  /\ (forall n, result f = Resolved n -> n = Z.of_nat (length (allRows (pages f))))
  /\ Forall (fun req => req = request siteUrl options (req_startRow req)) (requests f)
  /\ (httpCallsBefore <= httpCalls f)%nat
  /\ (aborted 0%nat = true ->
      f = {| result := Resolved 0; pages := []; requests := [];
             httpCalls := httpCallsBefore |}).
Proof.
  intros Hrun. unfold fetchSearchAnalytics in Hrun.
  destruct (fetch_loop_accounts StringToNumber server aborted siteUrl options fuel 0%nat
              {| result := Resolved 0; pages := []; requests := [];
                 httpCalls := httpCallsBefore |} f 0 0)
    as (H1 & H2 & _ & (more & H4 & H5) & H6); [repeat split | exact Hrun |].
  cbn [requests httpCalls app] in H4, H6.
  split; [exact H1 |]. split; [exact H2 |]. split; [| split; [exact H6 |]].
  - rewrite H4. eapply Forall_impl; [exact H5 |]. cbv beta. tauto.
  - intros Hab. destruct fuel as [| fuel]; [discriminate |].
    cbn [fetch_loop] in Hrun. rewrite Hab in Hrun. injection Hrun as <-. reflexivity.
Qed.

Lemma fetchSearchAnalytics_counts_the_rows_it_hands_over_witness :
  exists f : Fetched,
    fetchSearchAnalytics decimalNumber bySlices abortedAfterFirst 0 "sc-domain:a.com"
      twoAtATime 6 = Some f
    /\ result f = Resolved 2
    /\ length (pages f) = 1%nat
    /\ pagesFrom 0 (pages f).
Proof.
  eexists. split; [reflexivity |].
  match goal with |- _ /\ _ /\ pagesFrom 0 (pages ?f) =>
    destruct (fetchSearchAnalytics_counts_the_rows_it_hands_over decimalNumber bySlices
                abortedAfterFirst 0 "sc-domain:a.com" twoAtATime 6 f eq_refl) as (H1 & _)
  end.
  split; [reflexivity |]. split; [reflexivity | exact H1].
Defined.

End GscClientTheorems.

(* ===================================================================== *)
(** * The calendar and the date ranges *)
(* ===================================================================== *)

Section JsDateFacts.
Import Dates JsDate.

Lemma DaysInYear_cases (y : Z) : DaysInYear y = 365 \/ DaysInYear y = 366.
Proof. unfold DaysInYear. repeat destruct (negb _); auto. Qed.

(** DayFromYear counts the days of the years. *)
Lemma DayFromYear_next (y : Z) : DayFromYear (y + 1) = DayFromYear y + DaysInYear y.
Proof.
  unfold DayFromYear, DaysInYear.
  destruct (Z.eqb_spec (y mod 4) 0); destruct (Z.eqb_spec (y mod 100) 0);
    destruct (Z.eqb_spec (y mod 400) 0); cbn [negb];
    Z.div_mod_to_equations; lia.
Qed.

Lemma DayFromYear_mono (y1 y2 : Z) : y1 <= y2 -> DayFromYear y1 + 365 * (y2 - y1) <= DayFromYear y2.
Proof. unfold DayFromYear. intros H. Z.div_mod_to_equations. lia. Qed.

(** YearFromTime(t) is the largest year that begins on or before [t]. *)
Lemma YearFromDay_spec (day : Z) :
  DayFromYear (YearFromDay day) <= day < DayFromYear (YearFromDay day + 1).
Proof.
  unfold YearFromDay. cbv zeta.
  set (guess := 1970 + 400 * day / 146097).
  assert (Hg : DayFromYear (guess - 1) <= day < DayFromYear (guess + 2)).
  { subst guess. unfold DayFromYear. Z.div_mod_to_equations. lia. }
  destruct (Z.leb_spec (DayFromYear (guess + 1)) day).
  - replace (guess + 1 + 1) with (guess + 2) by ring. lia.
  - destruct (Z.leb_spec (DayFromYear guess) day); [lia |].
    replace (guess - 1 + 1) with guess by ring. lia.
Qed.

Lemma YearFromDay_unique (day y : Z) :
  DayFromYear y <= day < DayFromYear (y + 1) -> YearFromDay day = y.
Proof.
  intros H. pose proof (YearFromDay_spec day) as Hs.
  set (y' := YearFromDay day) in *.
  destruct (Z.lt_trichotomy y' y) as [Hlt | [Heq | Hgt]]; [| exact Heq |].
  - pose proof (DayFromYear_mono (y' + 1) y). lia.
  - pose proof (DayFromYear_mono (y + 1) y'). lia.
Qed.

Lemma DayWithinYear_range (t : Z) :
  0 <= DayWithinYear t < DaysInYear (YearFromTime t).
Proof.
  unfold DayWithinYear, YearFromTime.
  pose proof (YearFromDay_spec (Day t)) as H.
  rewrite DayFromYear_next in H. lia.
Qed.

Lemma InLeapYear_days (t : Z) : DaysInYear (YearFromTime t) = 365 + InLeapYear t.
Proof.
  unfold InLeapYear. destruct (DaysInYear_cases (YearFromTime t)) as [H | H]; rewrite H; reflexivity.
Qed.

Lemma InLeapYear_cases (t : Z) : InLeapYear t = 0 \/ InLeapYear t = 1.
Proof. unfold InLeapYear. destruct (_ =? _); auto. Qed.

(** Splits on the month of [t]; [d] is the day within the year. *)
Ltac by_month t :=
  unfold DateFromTime, MonthFromTime, monthStart;
  pose proof (DayWithinYear_range t) as Hd;
  rewrite (InLeapYear_days t) in Hd;
  destruct (InLeapYear_cases t) as [Hleap | Hleap]; rewrite Hleap in *;
  cbv zeta;
  repeat match goal with
         | |- context [?a <? ?b] => destruct (Z.ltb_spec a b)
         end;
  cbn; try lia.

Lemma MonthFromTime_range (t : Z) : 0 <= MonthFromTime t <= 11.
Proof. by_month t. Qed.

Lemma DateFromTime_range (t : Z) : 1 <= DateFromTime t <= 31.
Proof. by_month t. Qed.

(** MakeDay undoes YearFromTime, MonthFromTime and DateFromTime, and is
    linear in the date. *)
Lemma MakeDay_of_fields (t n : Z) :
  MakeDay (YearFromTime t) (MonthFromTime t) (DateFromTime t + n) = Day t + n.
Proof.
  unfold MakeDay. cbv zeta.
  pose proof (MonthFromTime_range t) as Hm.
  rewrite Z.div_small, Z.mod_small, Z.add_0_r by lia.
  change (if DaysInYear (YearFromTime t) =? 366 then 1 else 0) with (InLeapYear t).
  unfold DateFromTime, DayWithinYear. lia.
Qed.

Lemma leapOf_cases (y : Z) :
  (leapOf y = 0 /\ DaysInYear y = 365) \/ (leapOf y = 1 /\ DaysInYear y = 366).
Proof.
  unfold leapOf. destruct (DaysInYear_cases y) as [H | H]; rewrite H; simpl; auto.
Qed.

Lemma month_cases (m : Z) :
  0 <= m <= 11 ->
  m = 0 \/ m = 1 \/ m = 2 \/ m = 3 \/ m = 4 \/ m = 5 \/ m = 6 \/ m = 7 \/ m = 8
  \/ m = 9 \/ m = 10 \/ m = 11.
Proof. lia. Qed.

(** Walks down a cascade of comparisons, leaving the branch that the
    context allows. *)
Ltac walk :=
  repeat match goal with
         | |- context [?a <? ?b] => destruct (Z.ltb_spec a b); try lia
         end.

(** The fields of a day made by MakeDay from a month and a date of that
    month. *)
Lemma fields_of_MakeDay (y m d t : Z) :
  0 <= m <= 11 -> 1 <= d <= monthLength m (leapOf y) ->
  Day t = MakeDay y m d ->
  YearFromTime t = y /\ MonthFromTime t = m /\ DateFromTime t = d.
Proof.
  intros Hm Hd Hday. unfold MakeDay in Hday. cbv zeta in Hday.
  rewrite Z.div_small, Z.mod_small, Z.add_0_r in Hday by lia.
  fold (leapOf y) in Hday.
  assert (Hin : 0 <= monthStart m (leapOf y) + d - 1 < DaysInYear y).
  { destruct (leapOf_cases y) as [[Hl Hn] | [Hl Hn]]; rewrite Hl in *; rewrite Hn;
      destruct (month_cases m Hm) as [-> | [-> | [-> | [-> | [-> | [-> | [-> | [-> | [->
                                      | [-> | [-> | ->]]]]]]]]]]];
      cbn in *; lia. }
  assert (Hy : YearFromTime t = y).
  { unfold YearFromTime. apply YearFromDay_unique. rewrite DayFromYear_next, Hday. lia. }
  assert (Hleap : InLeapYear t = leapOf y) by (unfold InLeapYear; rewrite Hy; reflexivity).
  assert (Hw : DayWithinYear t = monthStart m (leapOf y) + d - 1)
    by (unfold DayWithinYear; rewrite Hy; lia).
  split; [exact Hy |].
  unfold DateFromTime, MonthFromTime. rewrite Hw, Hleap. cbv zeta.
  destruct (leapOf_cases y) as [[Hl _] | [Hl _]]; rewrite Hl in *;
    destruct (month_cases m Hm) as [-> | [-> | [-> | [-> | [-> | [-> | [-> | [-> | [->
                                    | [-> | [-> | ->]]]]]]]]]]];
    cbn in Hd, Hin |- *; walk; cbn; lia.
Qed.

End JsDateFacts.

Section DateHelpersFacts.
Import Dates JsDate DateHelpers.

Lemma Day_MakeDate (day time : Z) :
  0 <= time < MS_PER_DAY -> Day (MakeDate day time) = day.
Proof.
  intros H. unfold Day, MakeDate. symmetry. apply (Z.div_unique _ _ _ time); lia.
Qed.

Lemma Day_add_days (t n : Z) : Day (t + n * MS_PER_DAY) = Day t + n.
Proof. unfold Day. apply Z.div_add. discriminate. Qed.

Lemma MakeDate_Day (t n : Z) :
  MakeDate (Day t + n) (TimeWithinDay t) = t + n * MS_PER_DAY.
Proof.
  unfold MakeDate, Day, TimeWithinDay.
  pose proof (Z.div_mod t MS_PER_DAY ltac:(discriminate)). lia.
Qed.

(** [d.setDate(d.getDate() + n)] moves the local time by [n] days. *)
Lemma setDate_addDays (tz : TimeZone) (t n : Z) :
  setDate tz t (getDate tz t + n) = TimeClip (addDays tz t n).
Proof.
  unfold setDate, getDate, addDays. cbv zeta.
  rewrite MakeDay_of_fields, MakeDate_Day. reflexivity.
Qed.

Lemma TimeClip_valid (t : Z) : validTime t -> TimeClip t = Some t.
Proof.
  unfold validTime, TimeClip. intros H.
  destruct (Z.leb_spec (Z.abs t) MAX_TIME); [reflexivity | lia].
Qed.

Lemma addDays_in_fixed_zone (tz : TimeZone) (k t n : Z) :
  fixedOffset tz k -> addDays tz t n = t + n * MS_PER_DAY.
Proof.
  intros Hk. unfold addDays, UTC, LocalTime.
  destruct (Hk t) as [-> _]. destruct (Hk (t + k + n * MS_PER_DAY)) as [_ ->]. lia.
Qed.

(** ** The numeric ranges *)

Lemma isDigit_unit (u : RangeUnit) (c : ascii) (s : string) :
  isDigit c = true -> String c s <> unitChar u.
Proof.
  intros Hc E. destruct u; cbn in E; injection E as -> _; discriminate.
Qed.

Lemma unitOf_spec (c : ascii) (u : RangeUnit) :
  unitOf c = Some u <-> String c "" = unitChar u.
Proof.
  unfold unitOf. split.
  - destruct (Ascii.eqb_spec c "d") as [-> | Hd]; [intros [= <-]; reflexivity |].
    destruct (Ascii.eqb_spec c "m") as [-> | Hm]; [intros [= <-]; reflexivity |].
    discriminate.
  - destruct u; cbn; intros [= ->]; reflexivity.
Qed.

Lemma matchNumeric_spec (s : string) : forall (acc : option Z) (n : Z) (u : RangeUnit),
  matchNumeric acc s = Some (n, u) <->
  exists ds, allDigits ds = true /\ s = (ds ++ unitChar u)%string
             /\ n = decimalValue (default 0 acc) ds
             /\ (acc = None -> ds <> ""%string).
Proof.
  induction s as [| c rest IH]; intros acc n u.
  - cbn [matchNumeric]. split; [discriminate |].
    intros (ds & _ & E & _). destruct ds; destruct u; discriminate.
  - cbn [matchNumeric]. destruct (isDigit c) eqn:Hc.
    + rewrite IH. split.
      * intros (ds & Hds & -> & -> & _). exists (String c ds).
        cbn [allDigits decimalValue]. rewrite Hc, Hds.
        split; [reflexivity |]. split; [reflexivity |].
        split; [destruct acc; reflexivity | discriminate].
      * intros (ds & Hds & E & -> & _). destruct ds as [| c' ds].
        -- exfalso. exact (isDigit_unit u c rest Hc E).
        -- rewrite append_String in E. injection E as <- ->.
           cbn [allDigits] in Hds. apply andb_true_iff in Hds as [_ Hds].
           exists ds. split; [exact Hds |]. split; [reflexivity |].
           split; [destruct acc; reflexivity | discriminate].
    + split.
      * destruct acc as [a |]; [| discriminate].
        destruct rest; [| discriminate].
        destruct (unitOf c) as [u' |] eqn:Hu; [| discriminate].
        cbn. intros [= <- <-]. apply unitOf_spec in Hu.
        exists ""%string. split; [reflexivity |]. split; [exact Hu |].
        split; [reflexivity | discriminate].
      * intros (ds & Hds & E & -> & Hacc). destruct ds as [| c' ds].
        -- cbn in E. destruct acc as [a |]; [| exfalso; apply Hacc; reflexivity].
           assert (Hr : rest = ""%string) by (destruct u; injection E as _ ->; reflexivity).
           subst rest. apply unitOf_spec in E. rewrite E. reflexivity.
        -- rewrite append_String in E. injection E as <- _.
           cbn [allDigits] in Hds. rewrite Hc in Hds. discriminate.
Qed.

Lemma numericRange_spec (range : string) (n : Z) (u : RangeUnit) :
  numericRange range = Some (n, u) <->
  exists ds, ds <> ""%string /\ allDigits ds = true
             /\ range = (ds ++ unitChar u)%string /\ n = decimalValue 0 ds.
Proof.
  unfold numericRange. rewrite matchNumeric_spec. split.
  - intros (ds & H1 & H2 & H3 & H4). exists ds. repeat split; auto.
  - intros (ds & H1 & H2 & H3 & H4). exists ds. repeat split; auto.
Qed.

(** A range that begins with a digit is none of the named presets. *)
Lemma digits_not_preset (ds : string) (u : RangeUnit) :
  ds <> ""%string -> allDigits ds = true -> ~ In (ds ++ unitChar u)%string presets.
Proof.
  intros Hne Hds. destruct ds as [| c ds]; [congruence |].
  cbn [allDigits] in Hds. apply andb_true_iff in Hds as [Hc _].
  rewrite append_String. unfold presets.
  intros [E | [E | [E | [E | [E | [E | []]]]]]]; injection E as <- _; discriminate.
Qed.

Lemma formatDate_no_range_error {A : Type} (d : Date) (k : IsoDay -> Checked A) (range : string) :
  (forall x, k x <> Throws (InvalidDateRange range)) ->
  bind (formatDate d) k <> Throws (InvalidDateRange range).
Proof.
  intros Hk. destruct d; cbn; [apply Hk | discriminate].
Qed.

(** On a range that is no preset, [parseDateRange] goes by the pattern. *)
Lemma parseDateRange_not_preset (tz : TimeZone) (t : Z) (range : string) :
  ~ In range presets ->
  parseDateRange tz (Some t) range =
    match numericRange range with
    | None => Throws (InvalidDateRange range)
    | Some (amount, UnitDays) =>
        bind (formatDate (setDate tz t (getDate tz t - amount)))
          (fun start => Value {| startDate := start; endDate := toISODate t |})
    | Some (amount, UnitMonths) =>
        bind (formatDate (setMonth tz t (getMonth tz t - amount)))
          (fun start => Value {| startDate := start; endDate := toISODate t |})
    end.
Proof.
  intros Hn. unfold parseDateRange. cbn [formatDate bind].
  unfold presets in Hn. cbn [In] in Hn.
  repeat match goal with
         | |- context [String.eqb range ?p] =>
             destruct (String.eqb_spec range p); [exfalso; apply Hn; subst; tauto |]
         end.
  reflexivity.
Qed.

End DateHelpersFacts.

Section DateHelpersTheorems.
Import Dates ChunkPlanner JsDate DateHelpers.

Ltac eval_eqb :=
  repeat match goal with
         | |- context [String.eqb ?a ?b] =>
             let v := eval vm_compute in (String.eqb a b) in
             change (String.eqb a b) with v
         end;
  cbv iota.

Lemma toISODate_add_days (t n : Z) : toISODate (t + n * MS_PER_DAY) = toISODate t + n.
Proof. apply Day_add_days. Qed.

Lemma toISODate_at_midnight (d : IsoDay) : toISODate (newDate d) = d.
Proof. unfold toISODate, newDate. apply Z.div_mul. discriminate. Qed.

(** X23.  A range of N days.  For a range of one or more digits followed
    by [d], [parseDateRange] returns today, the UTC day of the reference
    date, as [endDate], and as [startDate] the UTC day of the instant N
    local days earlier, N being the decimal value of the digits.  The
    start lies N days before today give or take one day, and exactly N
    days before today in a zone that keeps one offset.  When that instant
    is out of the range of a [Date], the call throws the RangeError of
    [toISOString] instead. *)
Theorem parseDateRange_days (tz : TimeZone) (t : Z) (ds : string) :
  ds <> ""%string -> allDigits ds = true ->
  let n := decimalValue 0 ds in
  let start := addDays tz t (- n) in
  parseDateRange tz (Some t) (ds ++ "d") =
    (if Z.abs start <=? MAX_TIME
     then Value {| startDate := toISODate start; endDate := toISODate t |}
     else Throws InvalidTimeValue)
  /\ toISODate t - n - 1 <= toISODate start <= toISODate t - n + 1
  /\ (forall k, fixedOffset tz k -> toISODate start = toISODate t - n).
Proof.
  intros Hne Hds n start. split; [| split].
  - rewrite parseDateRange_not_preset by exact (digits_not_preset ds UnitDays Hne Hds).
    assert (Hn : numericRange (ds ++ "d") = Some (n, UnitDays)).
    { apply numericRange_spec. exists ds. auto. }
    rewrite Hn. replace (getDate tz t - n) with (getDate tz t + - n) by lia.
    rewrite setDate_addDays. fold start. unfold TimeClip.
    destruct (Z.abs start <=? MAX_TIME); reflexivity.
  - pose proof (addDays_bounds tz t (- n)) as Hb. fold start in Hb.
    unfold toISODate, HALF_DAY, MS_PER_DAY in *. Z.div_mod_to_equations. lia.
  - intros k Hk. subst start. rewrite (addDays_in_fixed_zone tz k) by exact Hk.
    apply toISODate_add_days.
Qed.

Lemma preset_no_range_error (tz : TimeZone) (t : Z) (range : string) :
  In range presets -> parseDateRange tz (Some t) range <> Throws (InvalidDateRange range).
Proof.
  unfold presets. cbn [In].
  intros [<- | [<- | [<- | [<- | [<- | [<- | []]]]]]];
    unfold parseDateRange; cbn [formatDate bind]; eval_eqb;
    repeat (apply formatDate_no_range_error; intros ?); discriminate.
Qed.

(** X24.  The ranges that are refused.  For a valid reference date,
    [parseDateRange] throws 'Invalid date range', naming the range,
    exactly when the range is none of the presets lw, tm, lm, tq, lq and
    ytd and is not one or more digits followed by [d] or [m]. *)
Theorem parseDateRange_refuses_exactly (tz : TimeZone) (t : Z) (range : string) :
  parseDateRange tz (Some t) range = Throws (InvalidDateRange range)
  <-> ~ In range presets
      /\ ~ (exists ds u, ds <> ""%string /\ allDigits ds = true
                         /\ range = (ds ++ unitChar u)%string).
Proof.
  destruct (in_dec string_dec range presets) as [Hin | Hout].
  - split; [| tauto]. intros E. exfalso. exact (preset_no_range_error tz t range Hin E).
  - rewrite parseDateRange_not_preset by exact Hout.
    destruct (numericRange range) as [[n u] |] eqn:Hn.
    + apply numericRange_spec in Hn as (ds & Hne & Hds & Hr & _).
      split.
      * intros E. exfalso. revert E.
        destruct u; apply formatDate_no_range_error; discriminate.
      * intros [_ Hno]. exfalso. apply Hno. exists ds, u. auto.
    + split; [| reflexivity]. intros _. split; [exact Hout |].
      intros (ds & u & Hne & Hds & Hr).
      assert (Hs : numericRange range = Some (decimalValue 0 ds, u)).
      { apply numericRange_spec. exists ds. auto. }
      congruence.
Qed.

Lemma WeekDay_range (t : Z) : 0 <= WeekDay t <= 6.
Proof. unfold WeekDay. pose proof (Z.mod_pos_bound (Day t + 4) 7). lia. Qed.

Lemma validTime_between (a b t : Z) :
  validTime a -> validTime b -> a <= t <= b -> validTime t.
Proof. unfold validTime. lia. Qed.

(** X25.  Last week.  In a zone that keeps one offset of at most a day,
    [parseDateRange] of lw returns seven consecutive days, the last of
    which is between one and seven days before today, the UTC day of the
    reference date.  The first of them is a Monday exactly when the local
    day of the reference date is its UTC day: the week is found on the
    local calendar and then written in UTC. *)
Theorem parseDateRange_last_week (tz : TimeZone) (k t : Z) :
  fixedOffset tz k -> Z.abs k <= MS_PER_DAY ->
  validTime t -> validTime (t - 13 * MS_PER_DAY) ->
  exists start,
    parseDateRange tz (Some t) "lw" = Value {| startDate := start; endDate := start + 6 |}
    /\ toISODate t - 13 <= start <= toISODate t - 7
    /\ (WeekDay (newDate start) = 1 <-> toISODate (LocalTime tz t) = toISODate t).
Proof.
  intros Hk Hsmall Ht Ht13.
  unfold parseDateRange. cbn [formatDate bind]. eval_eqb.
  set (w := if getDay tz t =? 0 then 7 else getDay tz t).
  assert (Hw : 1 <= w <= 7).
  { subst w. pose proof (WeekDay_range (LocalTime tz t)) as Hr. unfold getDay.
    destruct (Z.eqb_spec (WeekDay (LocalTime tz t)) 0); lia. }
  replace (getDate tz t - w - 6) with (getDate tz t + - (w + 6)) by lia.
  rewrite setDate_addDays, (addDays_in_fixed_zone tz k) by exact Hk.
  rewrite TimeClip_valid
    by (apply (validTime_between (t - 13 * MS_PER_DAY) t); auto; unfold MS_PER_DAY; lia).
  cbn [formatDate bind onDate].
  rewrite setDate_addDays, (addDays_in_fixed_zone tz k) by exact Hk.
  rewrite TimeClip_valid
    by (apply (validTime_between (t - 13 * MS_PER_DAY) t); auto; unfold MS_PER_DAY; lia).
  cbn [formatDate bind]. rewrite !toISODate_add_days.
  eexists. split; [reflexivity |]. split; [lia |].
  unfold WeekDay. change (Day (newDate ?d)) with (toISODate (newDate d)).
  rewrite toISODate_at_midnight.
  assert (Hwd : (w - (toISODate (LocalTime tz t) + 4)) mod 7 = 0).
  { subst w. unfold getDay, WeekDay. change (Day ?x) with (toISODate x).
    destruct (Z.eqb_spec ((toISODate (LocalTime tz t) + 4) mod 7) 0);
      Z.div_mod_to_equations; lia. }
  assert (Hnear : -1 <= toISODate (LocalTime tz t) - toISODate t <= 1).
  { unfold LocalTime. destruct (Hk t) as [-> _].
    unfold toISODate, MS_PER_DAY in *. Z.div_mod_to_equations. lia. }
  Z.div_mod_to_equations. lia.
Qed.

Lemma YearFromTime_epoch (t : Z) : 0 <= t -> 1970 <= YearFromTime t.
Proof.
  intros Ht. unfold YearFromTime.
  pose proof (YearFromDay_spec (Day t)) as Hs.
  assert (Hd : 0 <= Day t) by (apply Z.div_pos; [exact Ht | reflexivity]).
  destruct (Z_lt_le_dec (YearFromDay (Day t)) 1970) as [Hlt | Hle]; [| exact Hle].
  pose proof (DayFromYear_mono (YearFromDay (Day t) + 1) 1970 ltac:(lia)) as Hm.
  change (DayFromYear 1970) with 0 in Hm. lia.
Qed.

(** Evaluates the tables of the months at the months of the goal. *)
Ltac closed_months :=
  repeat match goal with
         | |- context [?a mod 12] =>
             let v := eval vm_compute in (a mod 12) in change (a mod 12) with v
         | |- context [?a / 12] =>
             let v := eval vm_compute in (a / 12) in change (a / 12) with v
         end;
  unfold monthStart, monthLength; cbn [Z.eqb Pos.eqb orb].

(** The first day of a month, from the first day of the month before. *)
Lemma MakeDay_next_month (y m : Z) :
  0 <= m <= 11 ->
  MakeDay y m 1 =
    MakeDay y (m - 1) 1 + monthLength ((m - 1) mod 12) (leapOf (y + (m - 1) / 12)).
Proof.
  intros Hm. unfold MakeDay. cbv zeta. fold (leapOf (y + m / 12)) (leapOf (y + (m - 1) / 12)).
  destruct (month_cases m Hm) as [-> | [-> | [-> | [-> | [-> | [-> | [-> | [-> | [->
                                  | [-> | [-> | ->]]]]]]]]]]];
    closed_months; rewrite ?Z.add_0_r; try lia.
  replace y with ((y + -1) + 1) at 1 by lia. rewrite DayFromYear_next.
  destruct (leapOf_cases (y + -1)) as [[Hl Hn] | [Hl Hn]]; rewrite Hl, Hn; lia.
Qed.

Lemma monthLength_range (m leap : Z) :
  0 <= leap <= 1 -> 28 <= monthLength m leap <= 31.
Proof.
  intros H. unfold monthLength.
  destruct (m =? 1); [lia |]. destruct (_ || _); lia.
Qed.

Lemma leapOf_range (y : Z) : 0 <= leapOf y <= 1.
Proof. destruct (leapOf_cases y) as [[-> _] | [-> _]]; lia. Qed.

Lemma Day_newDate (d : IsoDay) : Day (newDate d) = d.
Proof. apply toISODate_at_midnight. Qed.

(** [formatDate(new Date(year, month, date))] where the offset of the
    zone is [k] at all times. *)
Lemma formatDate_ofLocal (tz : TimeZone) (k year month date : Z) :
  fixedOffset tz k -> ~ 0 <= year <= 99 ->
  validTime (newDate (MakeDay year month date) - k) ->
  formatDate (ofLocal tz year month date) =
    Value (MakeDay year month date + (- k) / MS_PER_DAY).
Proof.
  intros Hk Hy Hv. unfold ofLocal.
  replace ((0 <=? year) && (year <=? 99)) with false
    by (symmetry; apply andb_false_iff; destruct (Z.leb_spec 0 year); [right; apply Z.leb_gt; lia | left; reflexivity]).
  unfold UTC, MakeDate. destruct (Hk (MakeDay year month date * MS_PER_DAY + 0)) as [_ ->].
  rewrite Z.add_0_r. change (MakeDay year month date * MS_PER_DAY) with (newDate (MakeDay year month date)).
  rewrite TimeClip_valid by exact Hv. cbn [formatDate]. f_equal.
  unfold toISODate, newDate.
  replace (MakeDay year month date * MS_PER_DAY - k)
    with (- k + MakeDay year month date * MS_PER_DAY) by lia.
  rewrite Z.div_add by discriminate. lia.
Qed.

(** X26.  Last month.  In a zone that keeps one offset of less than a
    day, for a reference date that is not before 1970 on the local
    calendar, [parseDateRange] of lm returns the days from [first - len]
    to [first - 1], both moved by [shift].  Here [first] is the first day
    of the local month of the reference date; [len], from 28 to 31, is
    the length of the month before, so that [first - len] is the first
    day of that month and [first - 1] its last; and [shift] is 0 at and
    west of Greenwich and -1 east of it, where local midnight falls on
    the UTC day before: there the range is the month moved one day
    back. *)
Theorem parseDateRange_last_month (tz : TimeZone) (k t : Z) :
  fixedOffset tz k -> Z.abs k < MS_PER_DAY ->
  0 <= LocalTime tz t -> validTime t ->
  let first := toISODate (LocalTime tz t) - (getDate tz t - 1) in
  let shift := (- k) / MS_PER_DAY in
  exists len,
    parseDateRange tz (Some t) "lm" =
      Value {| startDate := first - len + shift; endDate := first - 1 + shift |}
    /\ 28 <= len <= 31
    /\ DateFromTime (newDate (first - len)) = 1
    /\ MonthFromTime (newDate (first - 1)) = MonthFromTime (newDate (first - len))
    /\ YearFromTime (newDate (first - 1)) = YearFromTime (newDate (first - len))
    /\ DateFromTime (newDate first) = 1
    /\ MonthFromTime (newDate first) = getMonth tz t
    /\ (shift = if 0 <? k then -1 else 0).
Proof.
  intros Hk Hsmall Hpos Ht first shift.
  set (tl := LocalTime tz t) in *.
  set (y := getFullYear tz t). set (m := getMonth tz t).
  assert (Hy : 1970 <= y) by (apply YearFromTime_epoch; exact Hpos).
  assert (Hm : 0 <= m <= 11) by apply MonthFromTime_range.
  assert (Hd : 1 <= getDate tz t <= 31) by apply DateFromTime_range.
  assert (Hfirst : MakeDay y m 1 = first).
  { pose proof (MakeDay_of_fields tl (1 - DateFromTime tl)) as H.
    replace (DateFromTime tl + (1 - DateFromTime tl)) with 1 in H by lia.
    subst first y m. unfold getFullYear, getMonth, getDate. fold tl. rewrite H.
    unfold toISODate, Day. lia. }
  set (y' := y + (m - 1) / 12). set (m' := (m - 1) mod 12).
  set (len := monthLength m' (leapOf y')).
  assert (Hlen : 28 <= len <= 31) by (apply monthLength_range, leapOf_range).
  assert (Hprev : MakeDay y (m - 1) 1 = first - len).
  { pose proof (MakeDay_next_month y m Hm) as H. fold y' m' len in H. lia. }
  assert (Hprev' : MakeDay y' m' 1 = first - len).
  { rewrite <- Hprev. unfold MakeDay. cbv zeta. subst y' m'.
    assert (Hmm : 0 <= (m - 1) mod 12 < 12) by (apply Z.mod_pos_bound; lia).
    rewrite (Z.div_small ((m - 1) mod 12)), Z.mod_mod, Z.add_0_r by lia. reflexivity. }
  assert (Hm' : 0 <= m' <= 11)
    by (subst m'; pose proof (Z.mod_pos_bound (m - 1) 12); lia).
  assert (Hlast : MakeDay y' m' len = first - 1).
  { unfold MakeDay in Hprev' |- *. cbv zeta in Hprev' |- *. lia. }
  assert (Hday : toISODate tl = Day tl) by reflexivity.
  assert (Htl : tl = t + k) by (subst tl; unfold LocalTime; destruct (Hk t) as [-> _]; reflexivity).
  assert (Hbound : first <= Day tl <= first + 30) by (subst first; rewrite Hday; lia).
  assert (Hdiv : Day tl * MS_PER_DAY <= tl < Day tl * MS_PER_DAY + MS_PER_DAY).
  { unfold Day, MS_PER_DAY. Z.div_mod_to_equations. lia. }
  exists len.
  split; [| split; [exact Hlen |]].
  - unfold parseDateRange. cbn [formatDate bind]. eval_eqb.
    fold y m.
    rewrite (formatDate_ofLocal tz k y (m - 1) 1 Hk ltac:(lia)); cycle 1.
    { rewrite Hprev. unfold validTime, newDate, MS_PER_DAY, MAX_TIME in *. lia. }
    cbn [bind].
    rewrite (formatDate_ofLocal tz k y m 0 Hk ltac:(lia)); cycle 1.
    { replace (MakeDay y m 0) with (first - 1) by (rewrite <- Hfirst; unfold MakeDay; lia).
      unfold validTime, newDate, MS_PER_DAY, MAX_TIME in *. lia. }
    cbn [bind]. rewrite Hprev.
    replace (MakeDay y m 0) with (first - 1) by (rewrite <- Hfirst; unfold MakeDay; lia).
    reflexivity.
  - destruct (fields_of_MakeDay y' m' 1 (newDate (first - len)) Hm') as (Ey1 & Em1 & Ed1);
      [fold len; lia | rewrite Day_newDate; auto |].
    destruct (fields_of_MakeDay y' m' len (newDate (first - 1)) Hm') as (Ey2 & Em2 & Ed2);
      [fold len; lia | rewrite Day_newDate; auto |].
    destruct (fields_of_MakeDay y m 1 (newDate first) Hm) as (Ey3 & Em3 & Ed3);
      [pose proof (monthLength_range m (leapOf y) (leapOf_range y)); lia
      | rewrite Day_newDate; auto |].
    repeat split; try congruence.
    subst shift. unfold MS_PER_DAY in *.
    destruct (Z.ltb_spec 0 k); Z.div_mod_to_equations; lia.
Qed.

Lemma newDate_shift (d n : Z) : newDate d + n * DAY = newDate (d + n).
Proof. unfold newDate, DAY, MS_PER_DAY. lia. Qed.

Lemma newDate_sub (d : Z) : newDate d - DAY = newDate (d - 1).
Proof. unfold newDate, DAY, MS_PER_DAY. lia. Qed.

(** X27.  The period before.  When the range parses to the days from
    [startDate] to [endDate], [getPeriodDates] in the mode
    previous_period, without weekday matching, returns that range as the
    current period and, as the prior period, as many days ending the day
    before [startDate]; this is so in every time zone, provided the two
    days of the prior period are in the range of a [Date]. *)
Theorem getPeriodDates_previous_period (tz : TimeZone) (now : Date) (range : string)
    (cur : DateRange) :
  let len := endDate cur - startDate cur in
  parseDateRange tz now range = Value cur ->
  validTime (newDate (startDate cur - 1)) ->
  validTime (newDate (startDate cur - 1 - len)) ->
  getPeriodDates tz now range PreviousPeriod false =
    Value {| current := cur;
             prior := {| startDate := startDate cur - 1 - len;
                         endDate := startDate cur - 1 |} |}.
Proof.
  intros len Hcur Hv1 Hv2. unfold getPeriodDates. rewrite Hcur. cbn [bind].
  rewrite newDate_sub.
  unfold ofTime. rewrite (TimeClip_valid _ Hv1). cbn [onDate].
  replace (newDate (startDate cur - 1) - (newDate (endDate cur) - newDate (startDate cur)))
    with (newDate (startDate cur - 1 - len)) by (subst len; unfold newDate; lia).
  rewrite (TimeClip_valid _ Hv2). cbn [formatDate bind].
  rewrite !toISODate_at_midnight. reflexivity.
Qed.

(** X28.  Weekday matching.  With [matchWeekdays], in a zone that keeps
    one offset, the prior period of the mode previous_period is the
    period that ends the day before the current one begins, moved by at
    most three days either way so that it begins on the same day of the
    week as the current period; it has as many days as the current
    one. *)
Theorem getPeriodDates_match_weekdays (tz : TimeZone) (k : Z) (now : Date) (range : string)
    (cur : DateRange) :
  let len := endDate cur - startDate cur in
  fixedOffset tz k ->
  parseDateRange tz now range = Value cur ->
  0 <= len ->
  validTime (newDate (startDate cur + 2)) ->
  validTime (newDate (startDate cur - 4 - len)) ->
  exists shift,
    getPeriodDates tz now range PreviousPeriod true =
      Value {| current := cur;
               prior := {| startDate := startDate cur - 1 - len + shift;
                           endDate := startDate cur - 1 + shift |} |}
    /\ -3 <= shift <= 3
    /\ WeekDay (newDate (startDate cur - 1 - len + shift)) = WeekDay (newDate (startDate cur)).
Proof.
  intros len Hk Hcur Hlen Hv1 Hv2.
  assert (Hl : len = endDate cur - startDate cur) by reflexivity. clearbody len.
  unfold getPeriodDates. rewrite Hcur. cbn [bind].
  rewrite newDate_sub.
  assert (Hbetween : forall d, startDate cur - 4 - len <= d <= startDate cur + 2 ->
                               validTime (newDate d)).
  { intros d Hd. apply (validTime_between _ _ _ Hv2 Hv1). unfold newDate, MS_PER_DAY. lia. }
  unfold ofTime. rewrite (TimeClip_valid _ (Hbetween (startDate cur - 1) ltac:(lia))).
  cbn [onDate].
  replace (newDate (startDate cur - 1) - (newDate (endDate cur) - newDate (startDate cur)))
    with (newDate (startDate cur - 1 - len)) by (subst len; unfold newDate; lia).
  rewrite (TimeClip_valid _ (Hbetween (startDate cur - 1 - len) ltac:(lia))).
  set (p := startDate cur - 1 - len) in *.
  set (diff0 := getDay tz (newDate (startDate cur)) - getDay tz (newDate p)).
  set (diff1 := if 3 <? diff0 then diff0 - 7 else diff0).
  set (diff := if diff1 <? -3 then diff1 + 7 else diff1).
  assert (Hwd : forall d, getDay tz (newDate d) = (d + k / MS_PER_DAY + 4) mod 7).
  { intros d. unfold getDay, WeekDay, LocalTime, Day. destruct (Hk (newDate d)) as [-> _].
    unfold newDate. rewrite (Z.add_comm (d * MS_PER_DAY)), Z.div_add by discriminate.
    f_equal. lia. }
  assert (Hdiff : -3 <= diff <= 3 /\ (p + diff - startDate cur) mod 7 = 0).
  { subst diff diff1 diff0. rewrite !Hwd.
    destruct (Z.ltb_spec 3 ((startDate cur + k / MS_PER_DAY + 4) mod 7
                            - (p + k / MS_PER_DAY + 4) mod 7)) as [H1 | H1];
      match goal with
      | |- context [?a <? -3] => destruct (Z.ltb_spec a (-3)) as [H2 | H2]
      end;
      generalize dependent (k / MS_PER_DAY); intros c; intros;
      Z.div_mod_to_equations; lia. }
  destruct Hdiff as [Hr Hmod].
  exists diff. rewrite !newDate_shift.
  rewrite (TimeClip_valid _ (Hbetween (p + diff) ltac:(lia))). cbn [onDate].
  rewrite (TimeClip_valid _ (Hbetween (startDate cur - 1 + diff) ltac:(lia))).
  cbn [formatDate bind].
  rewrite !toISODate_at_midnight.
  split; [reflexivity |]. split; [exact Hr |].
  unfold WeekDay. rewrite !Day_newDate. fold p.
  Z.div_mod_to_equations. lia.
Qed.

(** The days between the first of a month and the first of the month
    three months before. *)
Lemma MakeDay_three_months (y m d : Z) :
  0 <= m <= 11 ->
  89 <= MakeDay y m d - MakeDay y (m - 3) d <= 92.
Proof.
  intros Hm. unfold MakeDay. cbv zeta.
  destruct (month_cases m Hm) as [-> | [-> | [-> | [-> | [-> | [-> | [-> | [-> | [->
                                  | [-> | [-> | ->]]]]]]]]]]];
    closed_months; rewrite ?Z.add_0_r;
    fold (leapOf y) (leapOf (y + -1));
    try (destruct (leapOf_cases y) as [[Hl Hn] | [Hl Hn]]; rewrite ?Hl; lia);
    replace (DayFromYear y) with (DayFromYear ((y + -1) + 1)) by (f_equal; lia);
    rewrite DayFromYear_next;
    destruct (leapOf_cases (y + -1)) as [[Hl Hn] | [Hl Hn]]; rewrite ?Hl, ?Hn;
    destruct (leapOf_cases y) as [[Hl' Hn'] | [Hl' Hn']]; rewrite ?Hl'; lia.
Qed.

(** X29.  The default window of a sync.  In a zone that keeps one
    offset, [defaultEndDate()] is between 89 and 92 days after
    [defaultStartDate()], both read at the same clock value: the start is
    three months back on the local calendar, and a day of the month that
    the earlier month lacks runs over into the month after. *)
Theorem default_window_spans_three_months (tz : TimeZone) (k now : Z) :
  fixedOffset tz k ->
  validTime now -> validTime (now - 92 * MS_PER_DAY) ->
  exists start span,
    defaultStartDate tz now = Value start
    /\ defaultEndDate now = Value (start + span)
    /\ 89 <= span <= 92.
Proof.
  intros Hk Hv Hv92. unfold defaultStartDate, defaultEndDate, setMonth, getMonth. cbv zeta.
  set (tl := LocalTime tz now).
  assert (Htl : tl = now + k) by (subst tl; unfold LocalTime; destruct (Hk now) as [-> _]; reflexivity).
  pose proof (MakeDay_three_months (YearFromTime tl) (MonthFromTime tl) (DateFromTime tl)
                (MonthFromTime_range tl)) as Hspan.
  pose proof (MakeDay_of_fields tl 0) as Hday. rewrite !Z.add_0_r in Hday.
  rewrite Hday in Hspan.
  set (M := MakeDay (YearFromTime tl) (MonthFromTime tl - 3) (DateFromTime tl)) in *.
  assert (Hres : UTC tz (MakeDate M (TimeWithinDay tl)) = now - (Day tl - M) * MS_PER_DAY).
  { unfold UTC. destruct (Hk (MakeDate M (TimeWithinDay tl))) as [_ ->].
    pose proof (MakeDate_Day tl (M - Day tl)) as H.
    replace (Day tl + (M - Day tl)) with M in H by lia. rewrite H. lia. }
  rewrite Hres, TimeClip_valid
    by (apply (validTime_between _ _ _ Hv92 Hv); unfold MS_PER_DAY; lia).
  cbn [formatDate].
  exists (toISODate (now - (Day tl - M) * MS_PER_DAY)), (Day tl - M).
  split; [reflexivity |]. split; [| exact Hspan].
  f_equal. replace (now - (Day tl - M) * MS_PER_DAY) with (now + - (Day tl - M) * MS_PER_DAY) by lia.
  rewrite toISODate_add_days. lia.
Qed.

End DateHelpersTheorems.

Section DateHelpersWitnesses.
Import Dates JsDate DateHelpers DateExamples.

Lemma brisbane_fixed : fixedOffset brisbane TEN_HOURS.
Proof. intros t. split; reflexivity. Qed.

Lemma utc_has_fixed_offset : fixedOffset utc 0.
Proof. intros t. split; reflexivity. Qed.

Lemma parseDateRange_days_witness :
  parseDateRange utc (Some mondayNoon) "28d" =
    Value {| startDate := 20759 - 28; endDate := 20759 |}.
Proof.
  destruct (parseDateRange_days utc mondayNoon "28" ltac:(discriminate) eq_refl)
    as (H1 & _ & H3).
  change "28d"%string with ("28" ++ "d")%string.
  rewrite H1. specialize (H3 0 utc_has_fixed_offset). cbv zeta in H3. rewrite H3.
  vm_compute. reflexivity.
Defined.

Lemma parseDateRange_last_week_witness :
  parseDateRange brisbane (Some mondayMorning) "lw" =
    Value {| startDate := 20751; endDate := 20757 |}
  /\ WeekDay (newDate 20751) <> 1.
Proof.
  destruct (parseDateRange_last_week brisbane TEN_HOURS mondayMorning brisbane_fixed)
    as (start & H1 & _ & H3).
  - vm_compute. discriminate.
  - vm_compute. discriminate.
  - vm_compute. discriminate.
  - assert (E : parseDateRange brisbane (Some mondayMorning) "lw" =
                Value {| startDate := 20751; endDate := 20757 |}) by (vm_compute; reflexivity).
    split; [exact E |]. rewrite E in H1. injection H1 as <-.
    intros Hw. apply H3 in Hw. vm_compute in Hw. discriminate.
Defined.

Lemma parseDateRange_last_month_witness :
  parseDateRange brisbane (Some mondayMorning) "lm" =
    Value {| startDate := 20726; endDate := 20756 |}
  /\ DateFromTime (newDate (20726 + 1)) = 1
  /\ MonthFromTime (newDate (20726 + 1)) = 9.
Proof.
  destruct (parseDateRange_last_month brisbane TEN_HOURS mondayMorning brisbane_fixed)
    as (len & H1 & _ & H3 & _).
  - vm_compute. reflexivity.
  - vm_compute. discriminate.
  - vm_compute. discriminate.
  - assert (Hf : toISODate (LocalTime brisbane mondayMorning)
                 - (getDate brisbane mondayMorning - 1) = 20758) by (vm_compute; reflexivity).
    assert (Hsh : - TEN_HOURS / MS_PER_DAY = -1) by (vm_compute; reflexivity).
    assert (E : parseDateRange brisbane (Some mondayMorning) "lm" =
                Value {| startDate := 20726; endDate := 20756 |}) by (vm_compute; reflexivity).
    rewrite Hf in H1, H3. rewrite Hsh, E in H1.
    assert (Hs := f_equal (fun c => match c with Value r => startDate r | Throws _ => 0 end) H1).
    cbv beta iota in Hs. cbn [startDate] in Hs.
    assert (Hlen : len = 31) by lia. subst len.
    split; [exact E |]. split; [exact H3 | vm_compute; reflexivity].
Defined.

Lemma getPeriodDates_previous_period_witness :
  getPeriodDates utc (Some mondayNoon) "7d" PreviousPeriod false =
    Value {| current := {| startDate := 20752; endDate := 20759 |};
             prior := {| startDate := 20744; endDate := 20751 |} |}.
Proof.
  apply (getPeriodDates_previous_period utc (Some mondayNoon) "7d"
           {| startDate := 20752; endDate := 20759 |}).
  - vm_compute. reflexivity.
  - vm_compute. discriminate.
  - vm_compute. discriminate.
Defined.

Lemma getPeriodDates_match_weekdays_witness :
  getPeriodDates utc (Some mondayNoon) "7d" PreviousPeriod true =
    Value {| current := {| startDate := 20752; endDate := 20759 |};
             prior := {| startDate := 20745; endDate := 20752 |} |}
  /\ WeekDay (newDate 20745) = WeekDay (newDate 20752).
Proof.
  destruct (getPeriodDates_match_weekdays utc 0 (Some mondayNoon) "7d"
              {| startDate := 20752; endDate := 20759 |} utc_has_fixed_offset)
    as (shift & H1 & _ & H3).
  - vm_compute. reflexivity.
  - vm_compute. discriminate.
  - vm_compute. discriminate.
  - vm_compute. discriminate.
  - assert (E : getPeriodDates utc (Some mondayNoon) "7d" PreviousPeriod true =
                Value {| current := {| startDate := 20752; endDate := 20759 |};
                         prior := {| startDate := 20745; endDate := 20752 |} |})
      by (vm_compute; reflexivity).
    split; [exact E |]. rewrite E in H1. injection H1 as H1 _.
    cbn [startDate endDate] in H1, H3.
    assert (Hs : shift = 1) by lia. subst shift. exact H3.
Defined.

Lemma default_window_spans_three_months_witness :
  exists span,
    defaultStartDate brisbane mondayMorning = Value 20666
    /\ defaultEndDate mondayMorning = Value (20666 + span)
    /\ 89 <= span <= 92.
Proof.
  destruct (default_window_spans_three_months brisbane TEN_HOURS mondayMorning brisbane_fixed)
    as (start & span & H1 & H2 & H3).
  - vm_compute. discriminate.
  - vm_compute. discriminate.
  - assert (E : defaultStartDate brisbane mondayMorning = Value 20666)
      by (vm_compute; reflexivity).
    rewrite E in H1. injection H1 as <-. exists span. auto.
Defined.

End DateHelpersWitnesses.
